(** * RecruitPro backend: matching, scoring and upload pipeline

    A shallow embedding of the FastAPI route handlers of the backend
    ([routes/matching.py], [routes/candidates.py],
    [routes/job_descriptions.py]) and of the two language-model wrappers they
    call ([llmservices/parser_llm.py], [llmservices/topscore_gemini.py]),
    followed by the properties of the specification that concern them.

    Modelling conventions.
    - A Python value is a [value]; a Python [dict] used as a record (a
      MongoDB document, a keyword-argument record) is a [gmap string value];
      a [dict] that comes out of [json.loads] keeps its key order as an
      association list ([VDict]) until the code uses it as a record.
    - Python [int] and [float] are both [VNum], an exact rational: rounding,
      infinities and NaN of binary floating point are outside the model.
    - [bytes] is [string], and a [str] is held as the [string] of its UTF-8
      encoding: [len], [strip] and iteration see its code points. [lower]
      acts on the ASCII range.
    - A MongoDB collection is the list of its documents in insertion order.
      The [_id] key that the server adds is not modelled, and a filter
      compares a field with a scalar by equality (the element-wise matching
      of array-valued fields is not modelled).
    - Everything that leaves the process (the language model, [json], [re],
      [hashlib], the text extractors, [uuid], the clock, pydantic) is a field
      of the class [Externals]; results that may differ from call to call take
      the logical time [tick] of the world as an argument.
    - A handler is a function in the monad [M]: it threads the [world] (the
      three collections, GridFS and the logical time) and either returns or
      raises an [exn]; writes made before a raise stay in the world. *)

From Stdlib Require Import QArith Qcanon ZArith Ascii String.
From stdpp Require Import gmap strings list fin_maps sorting numbers pretty.

#[local] Set Warnings "-register-all".
#[local] Open Scope string_scope.

(** ** Python values *)

Inductive value :=
  | VNone
  | VBool (b : bool)
  | VNum (q : Qc)
  | VStr (s : string)
  | VTime (t : Z)
  | VList (l : list value)
  | VDict (kvs : list (string * value)).

Abbreviation document := (gmap string value).

(** [dict(kvs)]: a later binding of a key replaces an earlier one. *)
Definition to_document (kvs : list (string * value)) : document :=
  foldl (λ d kv, <[kv.1 := kv.2]> d) ∅ kvs.

(** [d.get(k, default)] *)
Definition get (d : document) (k : string) (default : value) : value :=
  match d !! k with Some v => v | None => default end.

(** Python truthiness, as used by [if x:] and [not x]. *)
Definition truthy (v : value) : bool :=
  match v with
  | VNone => false
  | VBool b => b
  | VNum q => negb (Qeq_bool q 0)
  | VStr s => negb (String.eqb s "")
  | VTime _ => true
  | VList l => negb (Nat.eqb (length l) 0)
  | VDict kvs => negb (Nat.eqb (length kvs) 0)
  end.

Definition Qc_leb (x y : Qc) : bool := Qle_bool x y.

(** Equality of scalars as a MongoDB equality filter or [$in] sees it. *)
Definition scalar_eqb (a b : value) : bool :=
  match a, b with
  | VNone, VNone => true
  | VBool x, VBool y => Bool.eqb x y
  | VNum x, VNum y => Qc_eq_bool x y
  | VStr x, VStr y => String.eqb x y
  | VTime x, VTime y => Z.eqb x y
  | _, _ => false
  end.

(** ** Strings *)

Definition lower_ascii (c : ascii) : ascii :=
  let n := nat_of_ascii c in
  if (65 <=? n)%nat && (n <=? 90)%nat then ascii_of_nat (n + 32) else c.

(** [s.lower()] *)
Fixpoint lower (s : string) : string :=
  match s with
  | EmptyString => EmptyString
  | String c s' => String (lower_ascii c) (lower s')
  end.

(** [s.endswith(suffix)] *)
Definition endswith (s suffix : string) : bool :=
  String.prefix (String.rev suffix) (String.rev s).

(** A byte of the form [10xxxxxx] continues the code point before it. *)
Definition is_continuation (c : ascii) : bool :=
  let n := nat_of_ascii c in (128 <=? n)%nat && (n <? 192)%nat.

(** The code points of a [str], each as the bytes that encode it. *)
Fixpoint code_points (s : string) : list string :=
  match s with
  | EmptyString => []
  | String c rest =>
      match code_points rest with
      | String c' cp :: cps =>
          if is_continuation c' then String c (String c' cp) :: cps
          else String c EmptyString :: String c' cp :: cps
      | cps => String c EmptyString :: cps
      end
  end.

(** [len(s)] *)
Definition str_len (s : string) : nat := length (code_points s).

Definition utf8 (bytes : list nat) : string :=
  string_of_list_ascii (ascii_of_nat <$> bytes).

(** The code points [str.strip()] removes, those for which [str.isspace()]
    holds: U+0009 to U+000D, U+001C to U+0020, U+0085, U+00A0, U+1680,
    U+2000 to U+200A, U+2028, U+2029, U+202F, U+205F and U+3000. *)
Definition whitespace : list string :=
  utf8 <$>
    [ [9]; [10]; [11]; [12]; [13]; [28]; [29]; [30]; [31]; [32];
      [194; 133]; [194; 160]; [225; 154; 128];
      [226; 128; 128]; [226; 128; 129]; [226; 128; 130]; [226; 128; 131];
      [226; 128; 132]; [226; 128; 133]; [226; 128; 134]; [226; 128; 135];
      [226; 128; 136]; [226; 128; 137]; [226; 128; 138];
      [226; 128; 168]; [226; 128; 169]; [226; 128; 175]; [226; 129; 159];
      [227; 128; 128] ]%nat.

Definition is_whitespace (cp : string) : bool := existsb (String.eqb cp) whitespace.

Fixpoint lstrip (cps : list string) : list string :=
  match cps with
  | [] => []
  | cp :: rest => if is_whitespace cp then lstrip rest else cps
  end.

(** [s.strip()] *)
Definition strip (s : string) : string :=
  String.concat "" (rev (lstrip (rev (lstrip (code_points s))))).

(** ** Exceptions and responses *)

Inductive exn :=
  | HTTPException (status_code : Z) (detail : string)
  | PyError (kind : string) (msg : string).

(** [str(e)] *)
Definition str_exn (e : exn) : string :=
  match e with
  | HTTPException c d => pretty c ++ ": " ++ d
  | PyError _ m => m
  end.

(** What the client receives: the returned value, or the status and detail
    of the error. An exception that is not an [HTTPException] reaches the
    framework, which answers 500. *)
Inductive response (A : Type) :=
  | Ok (body : A)
  | Error (status_code : Z) (detail : string).
Arguments Ok {A} body.
Arguments Error {A} status_code detail.

Definition respond {A} (r : exn + A) : response A :=
  match r with
  | inr a => Ok a
  | inl (HTTPException c d) => Error c d
  | inl (PyError _ _) => Error 500 "Internal Server Error"
  end.

(** ** The world: document store, blob store and logical time *)

Record gridfile := GridFile { gf_filename : string; gf_content : string }.

Record world := World {
  candidates : list document;
  job_descriptions : list document;
  top_scores : list document;
  gridfs : gmap string gridfile;
  tick : nat;
}.

Definition set_candidates (c : list document) (w : world) : world :=
  World c (job_descriptions w) (top_scores w) (gridfs w) (tick w).
Definition set_job_descriptions (j : list document) (w : world) : world :=
  World (candidates w) j (top_scores w) (gridfs w) (tick w).
Definition set_top_scores (t : list document) (w : world) : world :=
  World (candidates w) (job_descriptions w) t (gridfs w) (tick w).
Definition set_gridfs (g : gmap string gridfile) (w : world) : world :=
  World (candidates w) (job_descriptions w) (top_scores w) g (tick w).
Definition advance (w : world) : world :=
  World (candidates w) (job_descriptions w) (top_scores w) (gridfs w) (S (tick w)).

(** ** The handler monad *)

Definition M (A : Type) : Type := world → world * (exn + A).

Definition ret {A} (a : A) : M A := λ w, (w, inr a).
Definition raise {A} (e : exn) : M A := λ w, (w, inl e).
Definition bind {A B} (m : M A) (k : A → M B) : M B :=
  λ w, match m w with
       | (w', inr a) => k a w'
       | (w', inl e) => (w', inl e)
       end.
(** [try: m except Exception as e: h e] *)
Definition try_except {A} (m : M A) (h : exn → M A) : M A :=
  λ w, match m w with
       | (w', inr a) => (w', inr a)
       | (w', inl e) => h e w'
       end.
Definition read {A} (f : world → A) : M A := λ w, (w, inr (f w)).
Definition write (f : world → world) : M unit := λ w, (f w, inr tt).
Definition lift {A} (r : exn + A) : M A := λ w, (w, r).
(** The logical time of a call to the outside; the clock moves on. *)
Definition fresh : M nat := λ w, (advance w, inr (tick w)).

Notation "'let*' x ':=' m 'in' k" := (bind m (λ x, k))
  (at level 10, x pattern, m at level 100, k at level 200).
Notation "m ';;' k" := (bind m (λ _, k))
  (at level 100, k at level 200, right associativity).

(** [for x in l: body x] *)
Fixpoint for_each {A} (l : list A) (body : A → M unit) : M unit :=
  match l with
  | [] => ret tt
  | x :: rest => body x ;; for_each rest body
  end.

(** Pure code that may raise: the error monad on [exn + _]. *)
#[global] Instance result_ret : MRet (sum exn) := λ A a, inr a.
#[global] Instance result_bind : MBind (sum exn) :=
  λ A B f m, match m with inl e => inl e | inr a => f a end.

Fixpoint map_result {A B} (f : A → exn + B) (l : list A) : exn + list B :=
  match l with
  | [] => inr []
  | x :: rest => y ← f x; ys ← map_result f rest; inr (y :: ys)
  end.

(** [d[k]] *)
Definition item (d : document) (k : string) : exn + value :=
  match d !! k with
  | Some v => inr v
  | None => inl (PyError "KeyError" k)
  end.

(** [k in d] *)
Definition has_key (d : document) (k : string) : bool :=
  match d !! k with Some _ => true | None => false end.

(** ** MongoDB filters and collection operations *)

Inductive cond :=
  | Eq (v : value)
  | In (vs : list value)
  | Gte (q : Qc).

Definition filter_spec := list (string * cond).

Definition cond_holds (c : cond) (field : option value) : bool :=
  match c, field with
  | Eq v, Some x => scalar_eqb x v
  | In vs, Some x => existsb (scalar_eqb x) vs
  | Gte q, Some (VNum x) => Qc_leb q x
  | _, _ => false
  end.

Definition matches (flt : filter_spec) (d : document) : bool :=
  forallb (λ kc, cond_holds kc.2 (d !! kc.1)) flt.

(** [coll.find(flt)] *)
Definition find (flt : filter_spec) (coll : list document) : list document :=
  List.filter (matches flt) coll.

(** [coll.find_one(flt)] *)
Definition find_one (flt : filter_spec) (coll : list document) : option document :=
  List.find (matches flt) coll.

(** [coll.insert_one(d)] *)
Definition insert_one (d : document) (coll : list document) : list document :=
  coll ++ [d].

(** The fields an upsert takes from the equality conditions of its filter. *)
Definition eq_fields (flt : filter_spec) : document :=
  foldl (λ d kc, match kc.2 with Eq v => <[kc.1 := v]> d | _ => d end) ∅ flt.

(** [coll.update_one(flt, {"$set": upd})] on the first matching document;
    [None] when no document matches. *)
Fixpoint update_first (flt : filter_spec) (upd : document) (coll : list document)
  : option (list document) :=
  match coll with
  | [] => None
  | d :: rest =>
      if matches flt d then Some ((upd ∪ d) :: rest)
      else option_map (cons d) (update_first flt upd rest)
  end.

(** [coll.update_one(flt, {"$set": upd}, upsert=True)] *)
Definition update_one_upsert (flt : filter_spec) (upd : document) (coll : list document)
  : list document :=
  match update_first flt upd coll with
  | Some coll' => coll'
  | None => coll ++ [upd ∪ eq_fields flt]
  end.

(** [cursor.sort(key, -1)]: descending by a numeric field. *)
Definition num_field (k : string) (d : document) : Qc :=
  match d !! k with Some (VNum q) => q | _ => Q2Qc 0 end.

Definition desc_by (k : string) : relation document :=
  λ d1 d2, Qcle (num_field k d2) (num_field k d1).

#[global] Instance desc_by_dec k : RelDecision (desc_by k).
Proof. intros d1 d2. unfold desc_by. apply _. Defined.

Definition sort_desc (k : string) (docs : list document) : list document :=
  merge_sort (desc_by k) docs.

(** [cursor.limit(n)]: the driver documents that a limit of 0 is equivalent
    to no limit, and sends the absolute value of a negative one. *)
Definition limit (n : Z) (docs : list document) : list document :=
  if (n =? 0)%Z then docs else take (Z.to_nat (Z.abs n)) docs.

(** ** models/schemas.py *)

Definition is_str (field : option value) : bool :=
  match field with Some (VStr _) => true | _ => false end.
Definition is_optional_str (field : option value) : bool :=
  match field with None | Some VNone | Some (VStr _) => true | _ => false end.
Definition is_str_list (field : option value) : bool :=
  match field with
  | None => true
  | Some (VList l) => forallb (λ v, match v with VStr _ => true | _ => false end) l
  | _ => false
  end.
Definition is_optional_time (field : option value) : bool :=
  match field with None | Some (VTime _) => true | _ => false end.
Definition is_absent_or_none (field : option value) : bool :=
  match field with None | Some VNone => true | _ => false end.

(** A record whose fields already have the types [Candidate] declares (and
    no email to validate). Keys the model does not declare are ignored. *)
Definition fits_Candidate (d : document) : bool :=
  is_str (d !! "candidate_id") && is_str (d !! "uid")
  && forallb (λ k, is_optional_str (d !! k))
       ["file_hash"; "name"; "contact"; "location"; "designation"; "experience";
        "education"; "professional_summary"; "profile_type"; "resume_url";
        "resume_filename"]
  && is_absent_or_none (d !! "email")
  && forallb (λ k, is_str_list (d !! k))
       ["skills"; "certifications"; "projects"; "key_achievements"]
  && forallb (λ k, is_optional_time (d !! k)) ["created_at"; "updated_at"].

(** The same for [JobDescription]. *)
Definition fits_JobDescription (d : document) : bool :=
  is_str (d !! "jd_id") && is_str (d !! "uid")
  && forallb (λ k, is_optional_str (d !! k))
       ["file_hash"; "job_title"; "company"; "location"; "job_type";
        "experience_required"; "description"; "jd_url"; "jd_filename"]
  && forallb (λ k, is_str_list (d !! k))
       ["required_skills"; "preferred_skills"; "responsibilities"; "qualifications"]
  && forallb (λ k, is_optional_time (d !! k)) ["created_at"; "updated_at"].

(** The same for [CandidateScore]: the twelve required fields are there, a
    score is a number from 0 to 100. *)
Definition is_score (field : option value) : bool :=
  match field with
  | Some (VNum q) => Qc_leb (Q2Qc 0) q && Qc_leb q (Q2Qc 100)
  | _ => false
  end.
Definition is_optional_number (field : option value) : bool :=
  match field with None | Some VNone | Some (VNum _) => true | _ => false end.

Definition fits_CandidateScore (d : document) : bool :=
  forallb (λ k, is_str (d !! k))
    ["uid"; "candidate_id"; "jd_id"; "name"; "skills_explanation";
     "experience_explanation"; "education_explanation"; "certifications_explanation"]
  && forallb (λ k, is_optional_str (d !! k))
       ["email"; "contact"; "designation"; "experience"; "education"; "location";
        "resume_url"; "profile_type"]
  && forallb (λ k, is_score (d !! k))
       ["skills_score"; "experience_score"; "education_score"; "certifications_score"]
  && forallb (λ k, is_str_list (d !! k))
       ["skills_matched"; "skills_related"; "skills_missing"; "key_achievements"]
  && is_optional_number (d !! "total_score")
  && is_optional_time (d !! "created_at").

(** ** What lies outside the process *)

Class Externals := {
  (** [hashlib.sha256(content).hexdigest()] *)
  sha256_hexdigest : string → string;
  (** [str(uuid.uuid4())], [str(ObjectId())] and [datetime.utcnow()] at a
      logical time *)
  uuid4 : nat → string;
  new_object_id : nat → string;
  utcnow : nat → Z;
  (** [json.loads] *)
  json_loads : string → exn + value;
  (** [repr] of a value that is not a string, for f-strings *)
  py_repr : value → string;
  (** the chat completion of the model on the prompt built from the
      arguments; returns [message.content] *)
  chat_parse_resume : nat → string → exn + string;
  chat_parse_jd : nat → string → exn + string;
  chat_score : nat → string → list document → exn + string;
  (** the four regular expressions of [clean_and_validate_data] *)
  re_sub_titles : string → string;
  re_sub_spaces : string → string;
  re_sub_contact : string → string;
  re_match_email : string → bool;
  (** text extraction: PyPDF2 with OCR fallback, python-docx, tesseract,
      [bytes.decode('utf-8', errors='ignore')] *)
  extract_from_pdf : string → exn + string;
  extract_from_docx : string → exn + string;
  extract_from_image : string → exn + string;
  decode_utf8_ignore : string → string;
  (** the inline extraction of the job upload: PyPDF2 page text, and the
      paragraphs of a DOCX joined by new lines *)
  pdf_pages_text : string → exn + string;
  docx_paragraphs_text : string → exn + string;
  (** the f-string that renders a stored job as prompt text *)
  render_jd_text : document → exn + string;
  (** pydantic: does the model accept the record as keyword arguments; it
      does when every field already has its declared type *)
  Candidate_validates : document → bool;
  JobDescription_validates : document → bool;
  CandidateScore_validates : document → bool;
  Candidate_validates_fits d :
    fits_Candidate d = true → Candidate_validates d = true;
  JobDescription_validates_fits d :
    fits_JobDescription d = true → JobDescription_validates d = true;
}.

Section Backend.
Context `{outside : Externals}.

(** [str(v)] inside an f-string *)
Definition py_str (v : value) : string :=
  match v with VStr s => s | _ => py_repr v end.

(** ** llmservices/topscore_gemini.py *)

(** The items of a [dict] built from [kvs]: each key once, at the position
    of its first binding, with the value of its last. *)
Fixpoint dict_items_go (seen : list string) (d : document) (kvs : list (string * value))
  : list (string * value) :=
  match kvs with
  | [] => []
  | (k, _) :: rest =>
      if bool_decide (k ∈ seen) then dict_items_go seen d rest
      else (k, get d k VNone) :: dict_items_go (k :: seen) d rest
  end.
Definition dict_items (kvs : list (string * value)) : list (string * value) :=
  dict_items_go [] (to_document kvs) kvs.

(** [type(v).__name__]; a number is reported as a float. *)
Definition type_name (v : value) : string :=
  match v with
  | VNone => "NoneType"
  | VBool _ => "bool"
  | VNum _ => "float"
  | VStr _ => "str"
  | VTime _ => "datetime"
  | VList _ => "list"
  | VDict _ => "dict"
  end.

(** [len(v)] *)
Definition py_len (v : value) : exn + nat :=
  match v with
  | VStr s => inr (str_len s)
  | VList l => inr (length l)
  | VDict kvs => inr (length (dict_items kvs))
  | _ => inl (PyError "TypeError"
                ("object of type '" ++ type_name v ++ "' has no len()"))
  end.

(** The one-element list that signals a failed analysis. *)
Definition error_record (msg : string) (cands : list document) : exn + value :=
  cid ← match cands with
        | c :: _ => item c "candidate_id"
        | [] => inr (VStr "unknown")
        end;
  inr (VList [VDict [("error", VStr msg);
                     ("candidate_id", cid);
                     ("name", match cands with
                              | c :: _ => get c "name" (VStr "Unknown")
                              | [] => VStr "Unknown"
                              end)]]).

Definition is_nonempty_list (v : value) : bool :=
  match v with VList (_ :: _) => true | _ => false end.

(** Lines 282-303: where the array of scores sits in the decoded answer;
    [None] when the [for ... else] finds none. *)
Definition locate_scores (result : value) : exn + option value :=
  match result with
  | VList _ => inr (Some result)
  | VDict kvs =>
      let d := to_document kvs in
      match d !! "candidates", d !! "scores" with
      | Some v, _ => inr (Some v)
      | None, Some v => inr (Some v)
      | None, None =>
          inr (List.find is_nonempty_list (map snd (dict_items kvs)))
      end
  | _ => inl (PyError "AttributeError" "object has no attribute 'items'")
  end.

(** The body of the [try] block. The first message leaves out the list of
    keys that the source appends to it. *)
Definition analyze_attempt (t : nat) (job_text : string) (cands : list document)
  : exn + value :=
  result_text ← chat_score t job_text cands;
  result ← json_loads result_text;
  found ← locate_scores result;
  match found with
  | None => error_record "Invalid AI response format. Expected array or object with 'candidates'/'scores' key." cands
  | Some parsed =>
      if negb (truthy parsed) then error_record "AI returned empty results" cands
      else
        n ← py_len parsed;
        if Nat.eqb n 0 then error_record "AI returned empty results" cands
        else inr parsed
  end.

Definition analyze_multiple_resumes_structured (job_text : string) (cands : list document)
  : M value :=
  let* t := fresh in
  lift (match analyze_attempt t job_text cands with
        | inr v => inr v
        | inl (PyError "JSONDecodeError" m) =>
            error_record ("Failed to parse AI response as JSON: " ++ m) cands
        | inl e => error_record (str_exn e) cands
        end).

(** ** routes/matching.py and the fan-out of routes/job_descriptions.py *)

(** The operand of [score.get(k, 0) * w]: [bool] is a kind of [int]; any
    other type cannot be multiplied by a float. *)
Definition as_number (v : value) : exn + Qc :=
  match v with
  | VNum q => inr q
  | VBool b => inr (if b then Q2Qc 1 else Q2Qc 0)
  | _ => inl (PyError "TypeError" "unsupported operand type(s) for *")
  end.

Definition weighted (score : document) (k : string) (w : Qc) : exn + Qc :=
  q ← as_number (get score k (VNum (Q2Qc 0)));
  inr (q * w)%Qc.

(** Lines 145-150 of matching.py, 184-189 of job_descriptions.py. *)
Definition weighted_total (score : document) : exn + Qc :=
  s ← weighted score "skills_score" (Q2Qc (50 # 100));
  e ← weighted score "experience_score" (Q2Qc (30 # 100));
  d ← weighted score "education_score" (Q2Qc (15 # 100));
  c ← weighted score "certifications_score" (Q2Qc (5 # 100));
  inr (s + e + d + c)%Qc.

(** The dict display of lines 152-160 (191-199): the keys are bound in the
    order written, [**score] rebinding those the scorer's record also has,
    and ["uid"] bound last. *)
Definition score_data (score_id : string) (jd_id cid : value) (now : Z) (total : Qc)
    (score : document) (uid : string) : document :=
  <["uid" := VStr uid]>
    (score ∪
      <["total_score" := VNum total]>
        (<["created_at" := VTime now]>
          (<["candidate_id" := cid]>
            (<["jd_id" := jd_id]>
              (<["score_id" := VStr score_id]> ∅))))).

(** Everything one iteration of the storing loop does before it writes:
    skip what is not a dict or carries ["error"], else build the record. *)
Definition prepare_score (jd_id : value) (uid : string) (score : value)
  : M (option (value * document)) :=
  match score with
  | VDict kvs =>
      let s := to_document kvs in
      if has_key s "error" then ret None
      else
        let* total := lift (weighted_total s) in
        let* t_id := fresh in
        let* cid := lift (item s "candidate_id") in
        let* t_now := fresh in
        ret (Some (cid, score_data (uuid4 t_id) jd_id cid (utcnow t_now) total s uid))
  | _ => ret None
  end.

(** matching.py, lines 133-170: update if exists, insert if not. *)
Definition store_match_score (jd_id : value) (uid : string) (score : value) : M unit :=
  let* data := prepare_score jd_id uid score in
  match data with
  | None => ret tt
  | Some (cid, d) =>
      write (λ w, set_top_scores
        (update_one_upsert
           [("jd_id", Eq jd_id); ("candidate_id", Eq cid)]
           d (top_scores w)) w)
  end.

(** job_descriptions.py, lines 172-200. *)
Definition store_upload_score (jd_id : value) (uid : string) (score : value) : M unit :=
  let* data := prepare_score jd_id uid score in
  match data with
  | None => ret tt
  | Some (_, d) => write (λ w, set_top_scores (insert_one d (top_scores w)) w)
  end.

(** The [resumes] comprehension shared by both callers of the scorer. *)
Definition resume_of (c : document) : exn + document :=
  cid ← item c "candidate_id";
  inr (<["certifications" := get c "certifications" (VList [])]>
        (<["education" := get c "education" (VList [])]>
          (<["experience" := get c "experience" (VStr "")]>
            (<["skills" := get c "skills" (VList [])]>
              (<["email" := get c "email" (VStr "")]>
                (<["name" := get c "name" (VStr "Unknown")]>
                  (<["candidate_id" := cid]> ∅))))))).

(** [isinstance(v, dict) and "error" in v], with [v.get('error')] *)
Definition error_of (v : value) : option value :=
  match v with
  | VDict kvs => to_document kvs !! "error"
  | _ => None
  end.

Definition jd_filter (jd_id uid : string) : filter_spec :=
  [("jd_id", Eq (VStr jd_id)); ("uid", Eq (VStr uid))].

(** POST /api/match. [candidate_ids] is the empty list when the body gives
    none. The result is the message and the scorer's list. *)
Definition match_candidates (jd_id : string) (candidate_ids : list string) (uid : string)
  : M (string * value) :=
  let* jd := read (λ w, find_one (jd_filter jd_id uid) (job_descriptions w)) in
  match jd with
  | None => raise (HTTPException 404 "Job description not found")
  | Some jd =>
      let query :=
        ("uid", Eq (VStr uid)) ::
        match candidate_ids with
        | [] => []
        | _ => [("candidate_id", In (VStr <$> candidate_ids))]
        end in
      let* cands := read (λ w, find query (candidates w)) in
      match cands with
      | [] => raise (HTTPException 404 "No candidates found")
      | _ =>
          let* resumes := lift (map_result resume_of cands) in
          let* jd_text := lift (render_jd_text jd) in
          let* scores := analyze_multiple_resumes_structured jd_text resumes in
          match scores with
          | VList (first :: rest) =>
              match error_of first with
              | Some detail =>
                  raise (HTTPException 500 ("AI analysis error: " ++ py_str detail))
              | None =>
                  for_each (first :: rest) (store_match_score (VStr jd_id) uid) ;;
                  ret ("Matched " ++ pretty (length (first :: rest))
                         ++ " candidates successfully", scores)
              end
          | _ =>
              raise (HTTPException 500
                ("AI analysis failed: returned " ++ type_name scores ++ " instead of list"))
          end
      end
  end.

(** GET /api/top-matches/{jd_id}. The returned records are the documents
    that [CandidateScore] accepted. *)
Definition get_top_matches (jd_id : string) (min_score : Qc) (limit_ : Z) (uid : string)
  : M (list document) :=
  let* jd := read (λ w, find_one (jd_filter jd_id uid) (job_descriptions w)) in
  match jd with
  | None => raise (HTTPException 404 "Job description not found")
  | Some _ =>
      let query := (jd_filter jd_id uid ++ [("total_score", Gte min_score)])%list in
      let* docs := read (λ w, limit limit_ (sort_desc "total_score" (find query (top_scores w)))) in
      lift (map_result
              (λ d, if CandidateScore_validates d then inr d
                    else inl (PyError "ValidationError" "CandidateScore"))
              docs)
  end.

(** ** llmservices/parser_llm.py *)

(** The receiver of a [str] method. *)
Definition as_str (v : value) : exn + string :=
  match v with
  | VStr s => inr s
  | _ => inl (PyError "AttributeError" "object has no such attribute")
  end.

(** The elements [for x in v] visits. *)
Definition iterate (v : value) : exn + list value :=
  match v with
  | VList l => inr l
  | VStr s => inr (VStr <$> code_points s)
  | VDict kvs => inr ((λ kv, VStr kv.1) <$> dict_items kvs)
  | _ => inl (PyError "TypeError" "object is not iterable")
  end.

Definition nonempty (s : string) : bool := negb (String.eqb s "").

(** [[x.strip() for x in v if x.strip()]] *)
Definition stripped_nonempty (v : value) : exn + list string :=
  xs ← iterate v;
  ss ← map_result as_str xs;
  inr (List.filter nonempty (strip <$> ss)).

(** [list(dict.fromkeys(l))]: the first occurrence of each string. *)
Fixpoint dedup_go (seen l : list string) : list string :=
  match l with
  | [] => []
  | x :: rest =>
      if bool_decide (x ∈ seen) then dedup_go seen rest
      else x :: dedup_go (x :: seen) rest
  end.
Definition dedup (l : list string) : list string := dedup_go [] l.

Definition skill_mappings : list (string * string) :=
  [("js", "JavaScript"); ("ts", "TypeScript"); ("py", "Python");
   ("ml", "Machine Learning"); ("ai", "Artificial Intelligence");
   ("dl", "Deep Learning"); ("nlp", "Natural Language Processing");
   ("css3", "CSS"); ("html5", "HTML"); ("reactjs", "React");
   ("nodejs", "Node.js"); ("nextjs", "Next.js")].

(** [skill_mappings.get(skill.lower(), skill)] *)
Definition normalize_skill (skill : string) : string :=
  match List.find (λ kv, String.eqb kv.1 (lower skill)) skill_mappings with
  | Some kv => kv.2
  | None => skill
  end.

Definition str_list (l : list string) : value := VList (VStr <$> l).

Definition clean_and_validate_data (parsed : value) : exn + document :=
  match parsed with
  | VDict kvs =>
      let p := to_document kvs in
      name ← as_str (get p "name" (VStr ""));
      let name := re_sub_spaces (re_sub_titles (strip name)) in
      let email := get p "email" (VStr "") in
      email ← (if truthy email then
                 e ← as_str email;
                 let e := strip (lower e) in
                 inr (if re_match_email e then VStr e else VNone)
               else inr VNone);
      contact ← as_str (get p "contact" (VStr ""));
      let contact := strip contact in
      let contact := if nonempty contact
                     then strip (re_sub_spaces (re_sub_contact contact))
                     else contact in
      let skills := get p "skills" (VList []) in
      skills ← (if truthy skills then
                  ss ← stripped_nonempty skills;
                  inr (str_list (dedup (normalize_skill <$> dedup ss)))
                else inr skills);
      experience ← as_str (get p "experience" (VStr ""));
      let experience := strip experience in
      let experience := if nonempty experience then re_sub_spaces experience
                        else experience in
      location ← as_str (get p "location" (VStr ""));
      designation ← as_str (get p "designation" (VStr ""));
      education ← as_str (get p "education" (VStr ""));
      certifications ← stripped_nonempty (get p "certifications" (VList []));
      projects ← stripped_nonempty (get p "projects" (VList []));
      key_achievements ← stripped_nonempty (get p "key_achievements" (VList []));
      professional_summary ← as_str (get p "professional_summary" (VStr ""));
      inr (<["professional_summary" := VStr (strip professional_summary)]>
            (<["key_achievements" := str_list key_achievements]>
              (<["projects" := str_list projects]>
                (<["certifications" := str_list certifications]>
                  (<["skills" := skills]>
                    (<["education" := VStr (strip education)]>
                      (<["experience" := VStr experience]>
                        (<["designation" := VStr (strip designation)]>
                          (<["location" := VStr (strip location)]>
                            (<["contact" := VStr contact]>
                              (<["email" := email]>
                                (<["name" := VStr (if nonempty name then name else "Unknown")]>
                                  ∅))))))))))))
  | _ => inl (PyError "AttributeError" "object has no attribute 'get'")
  end.

(** The record [parse_resume] returns from its [except] clause. *)
Definition resume_fallback (e : exn) : document :=
  <["professional_summary" := VStr ("Error parsing resume: " ++ str_exn e)]>
    (<["key_achievements" := VList []]>
      (<["projects" := VList []]>
        (<["certifications" := VList []]>
          (<["skills" := VList []]>
            (<["education" := VStr ""]>
              (<["experience" := VStr ""]>
                (<["designation" := VStr ""]>
                  (<["location" := VStr ""]>
                    (<["contact" := VStr ""]>
                      (<["email" := VNone]>
                        (<["name" := VStr "Unknown"]> ∅))))))))))).

(** The body of the [try] block of [parse_resume]. *)
Definition parse_resume_attempt (t : nat) (resume_text : string) : exn + document :=
  result_text ← chat_parse_resume t resume_text;
  parsed ← json_loads result_text;
  clean_and_validate_data parsed.

Definition parse_resume (resume_text : string) : M document :=
  let* t := fresh in
  ret (match parse_resume_attempt t resume_text with
       | inr cleaned_data => cleaned_data
       | inl e => resume_fallback e
       end).

Definition jd_fallback (e : exn) : document :=
  <["description" := VStr ("Error parsing JD: " ++ str_exn e)]>
    (<["qualifications" := VList []]>
      (<["responsibilities" := VList []]>
        (<["preferred_skills" := VList []]>
          (<["required_skills" := VList []]>
            (<["experience_required" := VStr ""]>
              (<["job_type" := VStr ""]>
                (<["location" := VStr ""]>
                  (<["company" := VStr ""]>
                    (<["job_title" := VStr "Untitled Position"]> ∅))))))))).

(** The body of the [try] block of [parse_job_description]. *)
Definition parse_jd_attempt (t : nat) (jd_text : string) : exn + document :=
  result_text ← chat_parse_jd t jd_text;
  parsed ← json_loads result_text;
  match parsed with
  | VDict kvs =>
      let p := to_document kvs in
      inr (<["description" := get p "description" (VStr "")]>
            (<["qualifications" := get p "qualifications" (VList [])]>
              (<["responsibilities" := get p "responsibilities" (VList [])]>
                (<["preferred_skills" := get p "preferred_skills" (VList [])]>
                  (<["required_skills" := get p "required_skills" (VList [])]>
                    (<["experience_required" := get p "experience_required" (VStr "")]>
                      (<["job_type" := get p "job_type" (VStr "")]>
                        (<["location" := get p "location" (VStr "")]>
                          (<["company" := get p "company" (VStr "")]>
                            (<["job_title" := get p "job_title" (VStr "Untitled Position")]>
                              ∅))))))))))
  | _ => inl (PyError "AttributeError" "object has no attribute 'get'")
  end.

Definition parse_job_description (jd_text : string) : M document :=
  let* t := fresh in
  ret (match parse_jd_attempt t jd_text with
       | inr fields => fields
       | inl e => jd_fallback e
       end).

(** ** utils/file_extractor.py *)

Record UploadFile := {
  filename : string;
  content : string;
  content_type : string;
}.

Definition supported_extensions : list string :=
  [".pdf"; ".docx"; ".txt"; ".jpg"; ".jpeg"; ".png"; ".bmp"; ".tiff"].

Definition is_supported_file (name : string) : bool :=
  existsb (endswith (lower name)) supported_extensions.

(** An [HTTPException] passes through; anything else becomes a 500. *)
Definition extract_text_from_upload (file : UploadFile) : exn + string :=
  let name := lower (filename file) in
  let text :=
    if endswith name ".pdf" then extract_from_pdf (content file)
    else if endswith name ".docx" then extract_from_docx (content file)
    else if endswith name ".txt" then inr (decode_utf8_ignore (content file))
    else if existsb (endswith name) [".jpg"; ".jpeg"; ".png"; ".bmp"; ".tiff"]
    then extract_from_image (content file)
    else inl (HTTPException 400
                "Unsupported file format. Supported: PDF, DOCX, TXT, JPG, PNG") in
  match text with
  | inl (PyError k m) =>
      inl (HTTPException 500 ("Error extracting text from file: " ++ m))
  | r => r
  end.

(** ** The upload loops of routes/candidates.py and routes/job_descriptions.py *)

(** How one iteration of the loop over the files ends when it does not
    raise: a record was stored and appended to the result, or the file was
    appended to [skipped_files] and the loop went on ([continue]). *)
Inductive outcome :=
  | Created (record : document)
  | Skipped (entry : document).

Definition skipped_entry (name reason : string) : document :=
  <["reason" := VStr reason]> (<["filename" := VStr name]> ∅).

(** [except Exception as e: raise HTTPException(500, ...)] around the body
    of the loop. *)
Definition or_abort {A} (name : string) (body : M A) : M A :=
  try_except body
    (λ e, raise (HTTPException 500 ("Error processing " ++ name ++ ": " ++ str_exn e))).

Definition hash_filter (uid file_hash : string) : filter_spec :=
  [("uid", Eq (VStr uid)); ("file_hash", Eq (VStr file_hash))].

(** [fs.upload_from_stream(name, bytes)]: the id of the stored file. *)
Definition upload_from_stream (name bytes : string) : M string :=
  let* t := fresh in
  write (λ w, set_gridfs (<[new_object_id t := GridFile name bytes]> (gridfs w)) w) ;;
  ret (new_object_id t).

(** candidates.py, lines 41-122: the body of the [try]. *)
Definition candidate_file_body (uid : string) (file : UploadFile) : M outcome :=
  if negb (is_supported_file (filename file)) then
    raise (HTTPException 400
      ("Unsupported file format: " ++ filename file
         ++ ". Supported: PDF, DOCX, TXT, JPG, PNG"))
  else
    let file_hash := sha256_hexdigest (content file) in
    let* existing_by_hash :=
      read (λ w, find_one (hash_filter uid file_hash) (candidates w)) in
    match existing_by_hash with
    | Some _ =>
        ret (Skipped (skipped_entry (filename file)
                        "Duplicate file - same content already uploaded"))
    | None =>
        let* resume_text := lift (extract_text_from_upload file) in
        if negb (nonempty resume_text) || (str_len (strip resume_text) <? 50)%nat
        then
          raise (HTTPException 400
            ("Could not extract sufficient text from " ++ filename file
               ++ ". Please ensure the file is readable."))
        else
          let* parsed_data := parse_resume resume_text in
          (* the log line takes the length of the skills *)
          let* _ := lift (py_len (get parsed_data "skills" (VList []))) in
          let email := get parsed_data "email" VNone in
          let* existing_by_email :=
            if truthy email then
              read (λ w, find_one [("uid", Eq (VStr uid)); ("email", Eq email)]
                           (candidates w))
            else ret None in
          match existing_by_email with
          | Some _ =>
              ret (Skipped (skipped_entry (filename file)
                              ("Candidate with email " ++ py_str email
                                 ++ " already exists")))
          | None =>
              let* file_id := upload_from_stream (filename file) (content file) in
              let* t_id := fresh in
              let* t_now := fresh in
              let candidate_data :=
                parsed_data ∪
                  <["uploaded_at" := VTime (utcnow t_now)]>
                    (<["resume_filename" := VStr (filename file)]>
                      (<["file_hash" := VStr file_hash]>
                        (<["file_id" := VStr file_id]>
                          (<["uid" := VStr uid]>
                            (<["candidate_id" := VStr (uuid4 t_id)]> ∅))))) in
              write (λ w, set_candidates (insert_one candidate_data (candidates w)) w) ;;
              if Candidate_validates candidate_data then ret (Created candidate_data)
              else raise (PyError "ValidationError" "Candidate")
          end
    end.

(** The loop, with the two lists it builds. *)
Fixpoint upload_candidates_loop (uid : string) (files : list UploadFile)
    (created skipped_files : list document) : M (list document * list document) :=
  match files with
  | [] => ret (created, skipped_files)
  | file :: rest =>
      let* o := or_abort (filename file) (candidate_file_body uid file) in
      match o with
      | Created r => upload_candidates_loop uid rest (created ++ [r]) skipped_files
      | Skipped e => upload_candidates_loop uid rest created (skipped_files ++ [e])
      end
  end.

(** POST /api/candidates/upload: [skipped_files] is printed, [candidates]
    is returned. *)
Definition upload_candidates (files : list UploadFile) (uid : string) : M (list document) :=
  let* lists := upload_candidates_loop uid files [] [] in
  ret lists.1.

(** job_descriptions.py, lines 157-169: what the fan-out keeps of the
    scorer's answer. *)
Definition usable_scores (scores : value) : list value :=
  match scores with
  | VList (first :: rest) =>
      match error_of first with
      | Some _ => []
      | None => first :: rest
      end
  | _ => []
  end.

(** job_descriptions.py, lines 134-200: score every candidate of the user
    against the job just stored. *)
Definition fan_out (uid jd_text : string) (jd_data : document) : M unit :=
  let* cands := read (λ w, find [("uid", Eq (VStr uid))] (candidates w)) in
  match cands with
  | [] => ret tt
  | _ =>
      let* resumes := lift (map_result resume_of cands) in
      let* scores := analyze_multiple_resumes_structured jd_text resumes in
      let* jd_id := lift (item jd_data "jd_id") in
      for_each (usable_scores scores) (store_upload_score jd_id uid)
  end.

(** job_descriptions.py, lines 80-91: the text of the uploaded job. *)
Definition jd_inline_text (file : UploadFile) : exn + string :=
  if endswith (filename file) ".pdf" then pdf_pages_text (content file)
  else if endswith (filename file) ".docx" then docx_paragraphs_text (content file)
  else inl (HTTPException 400 "Unsupported file format. Use PDF or DOCX").

(** job_descriptions.py, lines 59-200: the body of the [try]. *)
Definition jd_file_body (uid : string) (file : UploadFile) : M outcome :=
  let file_hash := sha256_hexdigest (content file) in
  let* existing_by_hash :=
    read (λ w, find_one (hash_filter uid file_hash) (job_descriptions w)) in
  match existing_by_hash with
  | Some _ =>
      ret (Skipped (skipped_entry (filename file)
                      "Duplicate file - same content already uploaded"))
  | None =>
      let* jd_text := lift (jd_inline_text file) in
      let* parsed_data := parse_job_description jd_text in
      let job_title := get parsed_data "job_title" VNone in
      let company := get parsed_data "company" VNone in
      let* existing_by_title :=
        if truthy job_title && truthy company then
          read (λ w, find_one [("uid", Eq (VStr uid)); ("job_title", Eq job_title);
                                ("company", Eq company)] (job_descriptions w))
        else ret None in
      match existing_by_title with
      | Some _ =>
          ret (Skipped (skipped_entry (filename file)
                          ("Job description '" ++ py_str job_title ++ "' from '"
                             ++ py_str company ++ "' already exists")))
      | None =>
          let* file_id := upload_from_stream (filename file) (content file) in
          let* t_id := fresh in
          let* t_now := fresh in
          let jd_data :=
            parsed_data ∪
              <["uploaded_at" := VTime (utcnow t_now)]>
                (<["jd_filename" := VStr (filename file)]>
                  (<["file_hash" := VStr file_hash]>
                    (<["file_id" := VStr file_id]>
                      (<["uid" := VStr uid]>
                        (<["jd_id" := VStr (uuid4 t_id)]> ∅))))) in
          write (λ w, set_job_descriptions (insert_one jd_data (job_descriptions w)) w) ;;
          (if JobDescription_validates jd_data then ret tt
           else raise (PyError "ValidationError" "JobDescription")) ;;
          fan_out uid jd_text jd_data ;;
          ret (Created jd_data)
      end
  end.

Fixpoint upload_job_descriptions_loop (uid : string) (files : list UploadFile)
    (created skipped_files : list document) : M (list document * list document) :=
  match files with
  | [] => ret (created, skipped_files)
  | file :: rest =>
      let* o := or_abort (filename file) (jd_file_body uid file) in
      match o with
      | Created r => upload_job_descriptions_loop uid rest (created ++ [r]) skipped_files
      | Skipped e => upload_job_descriptions_loop uid rest created (skipped_files ++ [e])
      end
  end.

(** POST /api/jds/upload *)
Definition upload_job_descriptions (files : list UploadFile) (uid : string)
  : M (list document) :=
  let* lists := upload_job_descriptions_loop uid files [] [] in
  ret lists.1.

(** ** Reading and downloading one record *)

(** GET /api/candidates/{candidate_id} *)
Definition get_candidate (candidate_id uid : string) : M document :=
  let* candidate :=
    read (λ w, find_one [("candidate_id", Eq (VStr candidate_id)); ("uid", Eq (VStr uid))]
                 (candidates w)) in
  match candidate with
  | None => raise (HTTPException 404 "Candidate not found")
  | Some c =>
      let c := match c !! "email" with
               | Some (VStr "") => <["email" := VNone]> c
               | _ => c
               end in
      if Candidate_validates c then ret c
      else raise (PyError "ValidationError" "Candidate")
  end.

(** GET /api/jds/{jd_id} *)
Definition get_job_description (jd_id uid : string) : M document :=
  let* jd := read (λ w, find_one (jd_filter jd_id uid) (job_descriptions w)) in
  match jd with
  | None => raise (HTTPException 404 "Job description not found")
  | Some jd =>
      if JobDescription_validates jd then ret jd
      else raise (PyError "ValidationError" "JobDescription")
  end.

(** The streamed file: its bytes, its media type and its name. *)
Record download := {
  dl_contents : string;
  dl_media_type : string;
  dl_filename : string;
}.

Definition media_type_of (name : string) : string :=
  if endswith (lower name) ".pdf" then "application/pdf"
  else if endswith (lower name) ".docx"
  then "application/vnd.openxmlformats-officedocument.wordprocessingml.document"
  else if endswith (lower name) ".doc" then "application/msword"
  else "application/octet-stream".

(** The [try] block shared by the two download handlers: open the GridFS
    file the record points to and name it after [name_key], or after
    [title_key] with [.pdf] when the record has no file name. *)
Definition stream_file (record : document) (name_key title_key default_title : string)
  : M download :=
  try_except
    (let* file_id := lift (item record "file_id" ≫= as_str) in
     let* grid_out := read (λ w, gridfs w !! file_id) in
     match grid_out with
     | None => raise (PyError "NoFile" "no file could be found")
     | Some f =>
         let* name :=
           lift (as_str (get record name_key
                           (VStr (py_str (get record title_key (VStr default_title))
                                    ++ ".pdf")))) in
         ret {| dl_contents := gf_content f;
                dl_media_type := media_type_of name;
                dl_filename := name |}
     end)
    (λ e, raise (HTTPException 500 ("Failed to download file: " ++ str_exn e))).

(** GET /api/candidates/download/{candidate_id} *)
Definition download_candidate_resume (candidate_id uid : string) : M download :=
  let* candidate :=
    read (λ w, find_one [("candidate_id", Eq (VStr candidate_id))] (candidates w)) in
  match candidate with
  | None => raise (HTTPException 404 "Candidate not found")
  | Some c => stream_file c "resume_filename" "name" "resume"
  end.

(** GET /api/jds/download/{jd_id} *)
Definition download_job_description (jd_id uid : string) : M download :=
  let* jd := read (λ w, find_one [("jd_id", Eq (VStr jd_id))] (job_descriptions w)) in
  match jd with
  | None => raise (HTTPException 404 "Job description not found")
  | Some jd => stream_file jd "jd_filename" "job_title" "job_description"
  end.

End Backend.

(** ** A scripted outside world, for running the handlers

    The digest, the identifiers and the clock are simple injective
    stand-ins; the extractors return the bytes as text; the model answers
    the parsing prompts with ["resume"] and ["jd"] and the scoring prompt
    with ["scores"], and [answers] says what [json.loads] decodes each of
    them to; pydantic accepts every candidate and every job, and a score
    whose fields have the declared types. *)
Definition scripted (answers : string → exn + value) : Externals := {|
  sha256_hexdigest c := "sha256:" ++ c;
  uuid4 t := "uuid-" ++ pretty t;
  new_object_id t := "oid-" ++ pretty t;
  utcnow t := Z.of_nat t;
  json_loads := answers;
  py_repr _ := "<value>";
  chat_parse_resume _ _ := inr "resume";
  chat_parse_jd _ _ := inr "jd";
  chat_score _ _ _ := inr "scores";
  re_sub_titles s := s;
  re_sub_spaces s := s;
  re_sub_contact s := s;
  re_match_email _ := true;
  extract_from_pdf c := inr c;
  extract_from_docx c := inr c;
  extract_from_image c := inr c;
  decode_utf8_ignore c := c;
  pdf_pages_text c := inr c;
  docx_paragraphs_text c := inr c;
  render_jd_text _ := inr "job text";
  Candidate_validates _ := true;
  JobDescription_validates _ := true;
  CandidateScore_validates := fits_CandidateScore;
  Candidate_validates_fits _ _ := eq_refl;
  JobDescription_validates_fits _ _ := eq_refl;
|}.

Definition num (z : Z) : value := VNum (Q2Qc (inject_Z z)).

(** User [u1] has one job and one candidate; nothing is scored yet. *)
Definition job1 : document :=
  <["job_title" := VStr "Engineer"]> (<["uid" := VStr "u1"]> (<["jd_id" := VStr "jd1"]> ∅)).
Definition candidate1 : document :=
  <["name" := VStr "Ann"]> (<["uid" := VStr "u1"]> (<["candidate_id" := VStr "c1"]> ∅)).
Definition world1 : world :=
  {| candidates := [candidate1]; job_descriptions := [job1]; top_scores := [];
     gridfs := ∅; tick := 0 |}.

(** A scorer record for candidate [c1] with the category scores 90, 85, 80
    and 70, to which the model has added a [total_score] of its own. *)
Definition record_with_total : list (string * value) :=
  [("candidate_id", VStr "c1"); ("name", VStr "Ann");
   ("skills_score", num 90); ("experience_score", num 85);
   ("education_score", num 80); ("certifications_score", num 70);
   ("total_score", num 1)].

Definition answers_with_total (text : string) : exn + value :=
  if String.eqb text "scores"
  then inr (VDict [("candidates", VList [VDict record_with_total])])
  else if String.eqb text "jd"
  then inr (VDict [("job_title", VStr "Analyst"); ("company", VStr "Acme")])
  else inl (PyError "JSONDecodeError" "Expecting value").

Definition posting : UploadFile :=
  {| filename := "analyst.pdf"; content := "Analyst wanted at Acme";
     content_type := "application/pdf" |}.

(** The scorer answers twice for candidate [c1]. *)
Definition answers_twice (text : string) : exn + value :=
  if String.eqb text "scores"
  then inr (VDict [("candidates",
         VList [VDict [("candidate_id", VStr "c1"); ("skills_score", num 90)];
                VDict [("candidate_id", VStr "c1"); ("skills_score", num 40)]])])
  else if String.eqb text "jd"
  then inr (VDict [("job_title", VStr "Analyst"); ("company", VStr "Acme")])
  else inl (PyError "JSONDecodeError" "Expecting value").

(** The job, the candidate and the owner of each stored score. *)
Definition score_keys (w : world) : list (option value * option value * option value) :=
  (λ d : document, (d !! "jd_id", d !! "candidate_id", d !! "uid")) <$> top_scores w.

(** Everything in the store belongs to [alice]: a candidate and a job, each
    with its file in GridFS. *)
Definition alice_candidate : document :=
  <["resume_filename" := VStr "ann.pdf"]>
    (<["file_id" := VStr "f1"]>
      (<["name" := VStr "Ann"]>
        (<["uid" := VStr "alice"]> (<["candidate_id" := VStr "c1"]> ∅)))).
Definition alice_job : document :=
  <["jd_filename" := VStr "analyst.docx"]>
    (<["file_id" := VStr "f2"]>
      (<["job_title" := VStr "Analyst"]>
        (<["uid" := VStr "alice"]> (<["jd_id" := VStr "jd1"]> ∅)))).
Definition alice_world : world :=
  {| candidates := [alice_candidate]; job_descriptions := [alice_job]; top_scores := [];
     gridfs := <["f2" := GridFile "analyst.docx" "Analyst wanted"]>
                 (<["f1" := GridFile "ann.pdf" "Resume of Ann"]> ∅);
     tick := 0 |}.

Definition no_answers (text : string) : exn + value :=
  inl (PyError "JSONDecodeError" "Expecting value").

(** Two scores of the job of [u1] as /match stores them: the category
    scores 90, 85, 80 and 70 with the composite 86 for [c1], and 40, 40, 40
    and 30 with the composite 39.5 for [c2]. *)
Definition scored (cid name : string) (skills experience education certifications : Z)
    (total : Q) : document :=
  to_document
    [("score_id", VStr ("score-" ++ cid)); ("jd_id", VStr "jd1");
     ("candidate_id", VStr cid); ("created_at", VTime 0);
     ("total_score", VNum (Q2Qc total)); ("name", VStr name);
     ("skills_score", num skills); ("skills_explanation", VStr "skills");
     ("experience_score", num experience); ("experience_explanation", VStr "experience");
     ("education_score", num education); ("education_explanation", VStr "education");
     ("certifications_score", num certifications);
     ("certifications_explanation", VStr "certifications");
     ("uid", VStr "u1")].
Definition scored_c1 : document := scored "c1" "Ann" 90 85 80 70 (86 # 1).
Definition scored_c2 : document := scored "c2" "Bo" 40 40 40 30 (79 # 2).
Definition scored_world : world :=
  {| candidates := [candidate1]; job_descriptions := [job1];
     top_scores := [scored_c2; scored_c1];
     gridfs := ∅; tick := 0 |}.

(** An empty store, and a resume that the model parses to a profile. *)
Definition empty_world : world :=
  {| candidates := []; job_descriptions := []; top_scores := []; gridfs := ∅; tick := 0 |}.

Definition ann_text : string :=
  "Ann Example, Python developer with five years of experience in web services.".

Definition ann_txt : UploadFile :=
  {| filename := "ann.txt"; content := ann_text; content_type := "text/plain" |}.
(** The same bytes under other names. *)
Definition ann_copy : UploadFile :=
  {| filename := "copy-of-ann.txt"; content := ann_text; content_type := "text/plain" |}.
Definition ann_exe : UploadFile :=
  {| filename := "ann.exe"; content := ann_text; content_type := "application/octet-stream" |}.
(** A no-break space, U+00A0, and 49 letters: 51 bytes, 50 code points, 49
    of them left by [strip]. *)
Definition nbsp_text : string :=
  utf8 [194; 160] ++ "yyyyyyyyyyyyyyyyyyyyyyyyyyyyyyyyyyyyyyyyyyyyyyyyy".
Definition nbsp_txt : UploadFile :=
  {| filename := "nbsp.txt"; content := nbsp_text; content_type := "text/plain" |}.
Definition short_txt : UploadFile :=
  {| filename := "short.txt"; content := "Too short."; content_type := "text/plain" |}.
Definition bob_txt : UploadFile :=
  {| filename := "bob.txt";
     content := "Bob Sample, accountant with a decade of experience in auditing firms.";
     content_type := "text/plain" |}.
Definition posting_copy : UploadFile :=
  {| filename := "renamed.docx"; content := "Analyst wanted at Acme";
     content_type := "application/pdf" |}.
Definition posting_txt : UploadFile :=
  {| filename := "analyst.txt"; content := "Another analyst wanted";
     content_type := "text/plain" |}.

Definition answers_profile (text : string) : exn + value :=
  if String.eqb text "resume"
  then inr (VDict [("name", VStr "Ann Example"); ("skills", VList [VStr "py"])])
  else if String.eqb text "jd"
  then inr (VDict [("job_title", VStr "Analyst"); ("company", VStr "Acme")])
  else inl (PyError "JSONDecodeError" "Expecting value").

(** The store after [u1] has uploaded [ann_txt], and after [u1] has uploaded
    [posting]. *)
Definition after_ann : world :=
  (upload_candidates (outside := scripted answers_profile) [ann_txt] "u1" empty_world).1.
Definition after_posting : world :=
  (upload_job_descriptions (outside := scripted answers_profile) [posting] "u1" empty_world).1.

(** The record each of them left. *)
Definition ann_record : document := default ∅ (head (candidates after_ann)).
Definition posting_record : document := default ∅ (head (job_descriptions after_posting)).

(** The model parses the resume to a profile whose skills are [null]. *)
Definition answers_null_skills (text : string) : exn + value :=
  if String.eqb text "resume"
  then inr (VDict [("name", VStr "Ann Example"); ("skills", VNone)])
  else inl (PyError "JSONDecodeError" "Expecting value").

(** What [json.loads] raises when the model never answers with JSON. *)
Definition parse_error : exn := PyError "JSONDecodeError" "Expecting value".

(** ** Vocabulary of the properties *)

(** [m] only ever moves the world along [R], whether it returns or raises. *)
Definition keeps (R : relation world) {A} (m : M A) : Prop := ∀ w, R w (m w).1.

(** Every document of [new] was already in [old] or carries [uid]. *)
Definition stamped (uid : string) (old new : list document) : Prop :=
  ∀ d, d ∈ new → d ∈ old ∨ d !! "uid" = Some (VStr uid).

Definition stamps (uid : string) : relation world :=
  λ w w', stamped uid (top_scores w) (top_scores w').

(** The two collections of profiles are as they were. *)
Definition same_profiles : relation world :=
  λ w w', candidates w' = candidates w ∧ job_descriptions w' = job_descriptions w.

Definition total_scores (w : world) : list (option value) :=
  (λ d : document, d !! "total_score") <$> top_scores w.

(** The (job, candidate) pair a score is about; a collection holds at most
    one score per pair. *)
Definition pair_key (d : document) : option value * option value :=
  (d !! "jd_id", d !! "candidate_id").
Definition one_per_pair (coll : list document) : Prop := NoDup (pair_key <$> coll).

(** The document is the job [jd_id] of user [uid]. *)
Definition job_of (jd_id uid : string) (d : document) : Prop :=
  d !! "jd_id" = Some (VStr jd_id) ∧ d !! "uid" = Some (VStr uid).

(** The composite score of a stored record is at least [q]. *)
Definition composite_at_least (q : Qc) (d : document) : Prop :=
  ∃ x, d !! "total_score" = Some (VNum x) ∧ (q ≤ x)%Qc.

(** The collection holds a record of [uid] whose stored digest is that of
    [bytes]. *)
Definition holds_upload `{outside : Externals} (uid bytes : string)
    (coll : list document) : Prop :=
  ∃ d, d ∈ coll ∧ d !! "uid" = Some (VStr uid)
       ∧ d !! "file_hash" = Some (VStr (sha256_hexdigest bytes)).

Definition duplicate_entry (name : string) : document :=
  skipped_entry name "Duplicate file - same content already uploaded".

(** What the client can observe of a run of an upload loop: the store it
    leaves and the list of created records, or the error. *)
Definition visible (run : world * (exn + list document * list document))
  : world * (exn + list document) :=
  (run.1, match run.2 with inl e => inl e | inr lists => inr lists.1 end).

(** ** More of the store *)

(** [coll.delete_one(flt)]: the first matching document goes. *)
Fixpoint delete_one (flt : filter_spec) (coll : list document) : list document :=
  match coll with
  | [] => []
  | d :: rest => if matches flt d then rest else d :: delete_one flt rest
  end.

(** [coll.delete_many(flt)] *)
Definition delete_many (flt : filter_spec) (coll : list document) : list document :=
  List.filter (λ d, negb (matches flt d)) coll.

(** [cursor.skip(n)]: the driver refuses a negative number. *)
Definition cursor_skip (n : Z) (docs : list document) : exn + list document :=
  if (n <? 0)%Z then inl (PyError "ValueError" "skip must be >= 0")
  else inr (drop (Z.to_nat n) docs).

(** ** The other handlers of routes/candidates.py and routes/job_descriptions.py *)

Section Records.
Context `{outside : Externals}.

(** The [try] around the deletion of the stored file: the file the record
    points to is removed from GridFS; a record without a usable [file_id], or
    a file that is not there, only leaves a warning in the log. *)
Definition discard_file (record : document) : M unit :=
  try_except
    (let* file_id := lift (item record "file_id" ≫= as_str) in
     let* stored := read (λ w, gridfs w !! file_id) in
     match stored with
     | None => raise (PyError "NoFile" "no file could be found")
     | Some _ => write (λ w, set_gridfs (delete file_id (gridfs w)) w)
     end)
    (λ _, ret tt).

Definition id_filter (key id : string) : filter_spec := [(key, Eq (VStr id))].
Definition owned_filter (key id uid : string) : filter_spec :=
  [(key, Eq (VStr id)); ("uid", Eq (VStr uid))].

(** candidates.py, lines 190-201 and 219-226: the file, the candidate
    document and the scores that name the candidate. *)
Definition remove_candidate (candidate_id : string) (candidate : document) : M unit :=
  discard_file candidate ;;
  write (λ w, set_candidates
                (delete_one (id_filter "candidate_id" candidate_id) (candidates w)) w) ;;
  write (λ w, set_top_scores
                (delete_many (id_filter "candidate_id" candidate_id) (top_scores w)) w).

(** DELETE /api/candidates/{candidate_id} *)
Definition delete_candidate (candidate_id uid : string) : M string :=
  let* candidate :=
    read (λ w, find_one (owned_filter "candidate_id" candidate_id uid) (candidates w)) in
  match candidate with
  | None => raise (HTTPException 404 "Candidate not found")
  | Some c =>
      remove_candidate candidate_id c ;;
      ret "Candidate deleted successfully"
  end.

(** The loop of [bulk_delete_candidates], with its counter. *)
Fixpoint bulk_delete_loop (uid : string) (candidate_ids : list string) (deleted_count : nat)
  : M nat :=
  match candidate_ids with
  | [] => ret deleted_count
  | candidate_id :: rest =>
      let* candidate :=
        read (λ w, find_one (owned_filter "candidate_id" candidate_id uid) (candidates w)) in
      match candidate with
      | None => bulk_delete_loop uid rest deleted_count
      | Some c =>
          remove_candidate candidate_id c ;;
          bulk_delete_loop uid rest (S deleted_count)
      end
  end.

(** POST /api/candidates/bulk-delete *)
Definition bulk_delete_candidates (candidate_ids : list string) (uid : string) : M nat :=
  bulk_delete_loop uid candidate_ids 0.

(** DELETE /api/jds/{jd_id} *)
Definition delete_job_description (jd_id uid : string) : M string :=
  let* jd := read (λ w, find_one (jd_filter jd_id uid) (job_descriptions w)) in
  match jd with
  | None => raise (HTTPException 404 "Job description not found")
  | Some jd =>
      discard_file jd ;;
      write (λ w, set_job_descriptions
                    (delete_one (id_filter "jd_id" jd_id) (job_descriptions w)) w) ;;
      write (λ w, set_top_scores
                    (delete_many (id_filter "jd_id" jd_id) (top_scores w)) w) ;;
      ret "Job description deleted successfully"
  end.

(** The empty string is no email for [EmailStr]. *)
Definition clean_email (d : document) : document :=
  match d !! "email" with
  | Some (VStr "") => <["email" := VNone]> d
  | _ => d
  end.

Definition as_Candidate (d : document) : exn + document :=
  let d := clean_email d in
  if Candidate_validates d then inr d else inl (PyError "ValidationError" "Candidate").

Definition as_JobDescription (d : document) : exn + document :=
  if JobDescription_validates d then inr d
  else inl (PyError "ValidationError" "JobDescription").

(** GET /api/candidates/ *)
Definition get_candidates (skip limit_ : Z) (uid : string) : M (list document) :=
  let* found := read (λ w, find [("uid", Eq (VStr uid))] (candidates w)) in
  let* rest := lift (cursor_skip skip found) in
  lift (map_result as_Candidate (limit limit_ rest)).

(** GET /api/jds/ *)
Definition get_job_descriptions (skip limit_ : Z) (uid : string) : M (list document) :=
  let* found := read (λ w, find [("uid", Eq (VStr uid))] (job_descriptions w)) in
  let* rest := lift (cursor_skip skip found) in
  lift (map_result as_JobDescription (limit limit_ rest)).

End Records.

(** ** More vocabulary *)

(** The keys of a parsed resume and of a parsed job. *)
Definition resume_fields : gset string :=
  {[ "name"; "email"; "contact"; "location"; "designation"; "experience";
     "education"; "skills"; "certifications"; "projects"; "key_achievements";
     "professional_summary" ]}.
Definition jd_fields : gset string :=
  {[ "job_title"; "company"; "location"; "job_type"; "experience_required";
     "required_skills"; "preferred_skills"; "responsibilities"; "qualifications";
     "description" ]}.

(** A list of strings none of which is empty. *)
Definition no_blanks (l : list string) : Prop := Forall (λ s, s ≠ "") l.

(** The document belongs to [uid]. *)
Definition owned_by (uid : string) (d : document) : Prop :=
  d !! "uid" = Some (VStr uid).

(** The document names [id] under [key]. *)
Definition names_id (key id : string) (d : document) : Prop :=
  d !! key = Some (VStr id).

(** At most one document of the collection names [id] under [key]. *)
Definition at_most_one (key id : string) (coll : list document) : Prop :=
  (length (find [(key, Eq (VStr id))] coll) ≤ 1)%nat.

(** No two documents of the collection have the same owner and the same
    string under [key] (the digest of a file). *)
Definition one_per_owner (key : string) (coll : list document) : Prop :=
  ∀ uid s, (length (find [("uid", Eq (VStr uid)); (key, Eq (VStr s))] coll) ≤ 1)%nat.

(** No two documents of the collection have the same owner and the same
    email, when that is a string that is not empty. *)
Definition one_email_per_owner (coll : list document) : Prop :=
  ∀ uid e, e ≠ "" →
    (length (find [("uid", Eq (VStr uid)); ("email", Eq (VStr e))] coll) ≤ 1)%nat.

(** The entry of [skipped_files] for a job whose title and company are
    taken, and for a resume whose email is taken. *)
Definition posting_entry (name title company : string) : document :=
  skipped_entry name
    ("Job description '" ++ title ++ "' from '" ++ company ++ "' already exists").
Definition email_entry (name email : string) : document :=
  skipped_entry name ("Candidate with email " ++ email ++ " already exists").

(** The page a cursor with a skip and a limit yields of [docs]. *)
Definition page (skip limit_ : Z) (docs : list document) : exn + list document :=
  rest ← cursor_skip skip docs; inr (limit limit_ rest).

(** A category score in range. *)
Definition in_range (score : document) (k : string) : Prop :=
  ∃ q, get score k (VNum (Q2Qc 0)) = VNum q ∧ (Q2Qc 0 ≤ q)%Qc ∧ (q ≤ Q2Qc 100)%Qc.

(** Only the scores may differ: the profiles and the stored files are as
    they were. *)
Definition only_scores : relation world :=
  λ w w', candidates w' = candidates w ∧ job_descriptions w' = job_descriptions w
          ∧ gridfs w' = gridfs w.

(** [m] raises no [HTTPException]. *)
Definition no_http {A} (m : M A) : Prop :=
  ∀ w c d, (m w).2 ≠ inl (HTTPException c d).

(** The resume sent to the scorer for the stored candidate of [world1]. *)
Definition resume1 : document :=
  match resume_of candidate1 with inr r => r | inl _ => ∅ end.

(** The store of [alice] with a score for her candidate and her job, and
    what is left of it after she has deleted the candidate, or the job. *)
Definition alice_scored : world :=
  set_top_scores
    [<["uid" := VStr "alice"]>
       (<["candidate_id" := VStr "c1"]> (<["jd_id" := VStr "jd1"]> ∅))]
    alice_world.
Definition without_candidate : world := (delete_candidate "c1" "alice" alice_scored).1.
Definition without_job : world := (delete_job_description "jd1" "alice" alice_scored).1.

(** User [u1] with two candidates. *)
Definition candidate2 : document :=
  <["name" := VStr "Bo"]> (<["uid" := VStr "u1"]> (<["candidate_id" := VStr "c2"]> ∅)).
Definition two_candidates : world :=
  {| candidates := [candidate1; candidate2]; job_descriptions := [job1]; top_scores := [];
     gridfs := ∅; tick := 0 |}.

(** The model reads the email of Ann, in capitals, in every resume; [u1]
    has a candidate with that email. *)
Definition answers_email (text : string) : exn + value :=
  if String.eqb text "resume"
  then inr (VDict [("name", VStr "Bob Sample"); ("email", VStr "Ann@Example.com");
                   ("skills", VList [VStr "py"])])
  else inl (PyError "JSONDecodeError" "Expecting value").
Definition email_world : world :=
  {| candidates := [<["email" := VStr "ann@example.com"]> candidate1];
     job_descriptions := []; top_scores := []; gridfs := ∅; tick := 0 |}.
Definition bob_parsed : document :=
  match (parse_resume (outside := scripted answers_email) (content bob_txt) email_world).2 with
  | inr d => d
  | inl _ => ∅
  end.

(** Another file for the job that [after_posting] holds. *)
Definition posting_again : UploadFile :=
  {| filename := "analyst-again.pdf"; content := "Analyst wanted at Acme, still";
     content_type := "application/pdf" |}.
Definition posting_parsed : document :=
  match (parse_job_description (outside := scripted answers_profile)
           (content posting_again) after_posting).2 with
  | inr d => d
  | inl _ => ∅
  end.

(** The scorer's record for candidate [c1] with everything the prompt asks
    for that [CandidateScore] requires, and no total. *)
Definition record_full : list (string * value) :=
  [("candidate_id", VStr "c1"); ("name", VStr "Ann");
   ("skills_score", num 90); ("skills_explanation", VStr "skills");
   ("experience_score", num 85); ("experience_explanation", VStr "experience");
   ("education_score", num 80); ("education_explanation", VStr "education");
   ("certifications_score", num 70);
   ("certifications_explanation", VStr "certifications");
   ("skills_matched", VList [VStr "Python"])].

(** * Properties *)

(** ** Running the monad *)

Section Keeps.
Context (R : relation world) `{!PreOrder R}.

Lemma keeps_ret {A} (a : A) : keeps R (ret a).
Proof. intros w. reflexivity. Qed.

Lemma keeps_raise {A} (e : exn) : keeps R (@raise A e).
Proof. intros w. reflexivity. Qed.

Lemma keeps_lift {A} (r : exn + A) : keeps R (lift r).
Proof. intros w. reflexivity. Qed.

Lemma keeps_read {A} (f : world → A) : keeps R (read f).
Proof. intros w. reflexivity. Qed.

Lemma keeps_write (f : world → world) : (∀ w, R w (f w)) → keeps R (write f).
Proof. intros Hf w. apply Hf. Qed.

Lemma keeps_bind {A B} (m : M A) (k : A → M B) :
  keeps R m → (∀ a, keeps R (k a)) → keeps R (bind m k).
Proof.
  intros Hm Hk w. unfold bind. specialize (Hm w).
  destruct (m w) as [w' [e|a]]; simpl in *; [done|].
  etrans; [exact Hm|apply Hk].
Qed.

(** The continuation may rely on what [m] guarantees of its result. *)
Lemma keeps_bind_ret {A B} (Q : A → Prop) (m : M A) (k : A → M B) :
  keeps R m → (∀ w w' a, m w = (w', inr a) → Q a) → (∀ a, Q a → keeps R (k a)) →
  keeps R (bind m k).
Proof.
  intros Hm HQ Hk w. unfold bind. specialize (Hm w). specialize (HQ w).
  destruct (m w) as [w' [e|a]]; simpl in *; [done|].
  etrans; [exact Hm|]. apply Hk. by eapply HQ.
Qed.

Lemma keeps_try_except {A} (m : M A) (h : exn → M A) :
  keeps R m → (∀ e, keeps R (h e)) → keeps R (try_except m h).
Proof.
  intros Hm Hh w. unfold try_except. specialize (Hm w).
  destruct (m w) as [w' [e|a]]; simpl in *; [|done].
  etrans; [exact Hm|apply Hh].
Qed.

Lemma keeps_for_each {A} (l : list A) (body : A → M unit) :
  (∀ x, keeps R (body x)) → keeps R (for_each l body).
Proof.
  intros Hb. induction l as [|x l IH]; simpl.
  - apply keeps_ret.
  - apply keeps_bind; [apply Hb|intros _; exact IH].
Qed.

End Keeps.

Ltac keeps_step :=
  first
    [ apply keeps_ret; apply _ | apply keeps_raise; apply _
    | apply keeps_lift; apply _ | apply keeps_read; apply _
    | apply keeps_bind; [apply _| |intros ?]
    | apply keeps_try_except; [apply _| |intros ?]
    | apply keeps_for_each; [apply _|intros ?]
    | case_match ].

(** ** Filters and collections *)

Lemma scalar_eqb_str x s : scalar_eqb x (VStr s) = true ↔ x = VStr s.
Proof.
  destruct x; simpl; try (split; [done|by intros [=]]).
  rewrite String.eqb_eq. split; [by intros ->|by intros [= ->]].
Qed.

Lemma cond_holds_eq_str s field :
  cond_holds (Eq (VStr s)) field = true ↔ field = Some (VStr s).
Proof.
  destruct field as [x|]; simpl; [|split; [done|by intros [=]]].
  rewrite scalar_eqb_str. split; [by intros ->|by intros [= ->]].
Qed.

Lemma cond_holds_gte q field :
  cond_holds (Gte q) field = true ↔ ∃ x, field = Some (VNum x) ∧ (q ≤ x)%Qc.
Proof.
  split.
  - destruct field as [[]|]; simpl; try done.
    intros Hle. eexists. split; [done|]. by apply Qle_bool_iff.
  - intros (x & -> & Hle). simpl. by apply Qle_bool_iff.
Qed.

Lemma matches_jd_filter jd_id uid d :
  matches (jd_filter jd_id uid) d = true ↔ job_of jd_id uid d.
Proof.
  unfold job_of.
  change (matches (jd_filter jd_id uid) d)
    with (cond_holds (Eq (VStr jd_id)) (d !! "jd_id")
          && (cond_holds (Eq (VStr uid)) (d !! "uid") && true)).
  rewrite !andb_true_iff, !cond_holds_eq_str. tauto.
Qed.

Lemma matches_hash_filter uid h d :
  matches (hash_filter uid h) d = true
  ↔ d !! "uid" = Some (VStr uid) ∧ d !! "file_hash" = Some (VStr h).
Proof.
  change (matches (hash_filter uid h) d)
    with (cond_holds (Eq (VStr uid)) (d !! "uid")
          && (cond_holds (Eq (VStr h)) (d !! "file_hash") && true)).
  rewrite !andb_true_iff, !cond_holds_eq_str. tauto.
Qed.

Lemma find_one_None flt coll :
  find_one flt coll = None ↔ ∀ d, d ∈ coll → matches flt d = false.
Proof.
  unfold find_one. split.
  - intros Hn d Hd. eapply find_none; [done|]. by apply list_elem_of_In.
  - intros Hall. induction coll as [|d coll IH]; simpl; [done|].
    rewrite (Hall d) by left. apply IH. intros x Hx. apply Hall. by right.
Qed.

Lemma find_one_Some flt coll d :
  find_one flt coll = Some d → d ∈ coll ∧ matches flt d = true.
Proof.
  unfold find_one. intros [Hd Hm]%find_some. split; [by apply list_elem_of_In|done].
Qed.

Lemma find_one_is_Some flt coll d :
  d ∈ coll → matches flt d = true → is_Some (find_one flt coll).
Proof.
  intros Hd Hm. destruct (find_one flt coll) eqn:E; [done|].
  rewrite find_one_None in E. by rewrite (E d Hd) in Hm.
Qed.

Lemma elem_of_find flt coll d : d ∈ find flt coll ↔ d ∈ coll ∧ matches flt d = true.
Proof. unfold find. rewrite !list_elem_of_In. apply filter_In. Qed.

Lemma holds_upload_find `{outside : Externals} uid bytes coll :
  holds_upload uid bytes coll
  ↔ is_Some (find_one (hash_filter uid (sha256_hexdigest bytes)) coll).
Proof.
  split.
  - intros (d & Hd & Hu & Hh). eapply find_one_is_Some; [done|].
    by apply matches_hash_filter.
  - intros [d [Hd Hm]%find_one_Some]. exists d. by apply matches_hash_filter in Hm.
Qed.

Lemma map_result_check {A} (p : A → bool) (e : exn) (l l' : list A) :
  map_result (λ d, if p d then inr d else inl e) l = inr l' → l' = l.
Proof.
  revert l'. induction l as [|x l IH]; intros l'; simpl.
  - by intros [= <-].
  - destruct (p x); simpl; [|done].
    destruct (map_result _ l) as [|ys] eqn:E; simpl; [done|].
    intros [= <-]. f_equal. by apply IH.
Qed.

(** ** Who owns a written score *)

Section Stamp.
Context `{outside : Externals}.

#[local] Instance stamps_preorder uid : PreOrder (stamps uid).
Proof.
  split.
  - intros w d Hd. by left.
  - intros w1 w2 w3 H12 H23 d Hd.
    destruct (H23 d Hd) as [Hd2|?]; [|by right]. exact (H12 d Hd2).
Qed.

Lemma keeps_same_scores uid {A} (m : M A) :
  (∀ w, top_scores (m w).1 = top_scores w) → keeps (stamps uid) m.
Proof. intros Hm w d Hd. left. by rewrite <-Hm. Qed.

Lemma score_data_uid sid jd cid now total score uid :
  score_data sid jd cid now total score uid !! "uid" = Some (VStr uid).
Proof. apply lookup_insert_eq. Qed.

Lemma update_first_stamped flt upd uid coll coll' :
  upd !! "uid" = Some (VStr uid) →
  update_first flt upd coll = Some coll' → stamped uid coll coll'.
Proof.
  intros Hu. revert coll'. induction coll as [|d coll IH]; intros coll'; simpl; [done|].
  destruct (matches flt d).
  - intros Hc x Hx. injection Hc as <-. apply elem_of_cons in Hx as [->|Hx].
    + right. by apply lookup_union_Some_l.
    + left. by right.
  - destruct (update_first flt upd coll) as [c|]; simpl; [|done].
    intros Hc x Hx. injection Hc as <-. apply elem_of_cons in Hx as [->|Hx].
    + left. by left.
    + destruct (IH c eq_refl x Hx); [left; by right|by right].
Qed.

Lemma update_one_upsert_stamped flt upd uid coll :
  upd !! "uid" = Some (VStr uid) → stamped uid coll (update_one_upsert flt upd coll).
Proof.
  intros Hu. unfold update_one_upsert.
  destruct (update_first flt upd coll) as [c|] eqn:E.
  - by eapply update_first_stamped.
  - intros x [Hx | ->%list_elem_of_singleton]%elem_of_app; [by left|].
    right. by apply lookup_union_Some_l.
Qed.

Lemma prepare_score_world jd uid score w :
  let w' := (prepare_score jd uid score w).1 in
  candidates w' = candidates w ∧ job_descriptions w' = job_descriptions w
  ∧ top_scores w' = top_scores w.
Proof.
  unfold prepare_score. destruct score; try done.
  destruct (has_key _ _); [done|].
  unfold bind, lift, fresh, ret.
  destruct (weighted_total _); [done|].
  destruct (item _ _); done.
Qed.

Lemma prepare_score_uid jd uid score w w' cid d :
  prepare_score jd uid score w = (w', inr (Some (cid, d))) →
  d !! "uid" = Some (VStr uid).
Proof.
  unfold prepare_score. destruct score; try done.
  destruct (has_key _ _); [done|].
  unfold bind, lift, fresh, ret.
  destruct (weighted_total _); [done|].
  destruct (item _ _); [done|].
  intros Hr. injection Hr as _ _ <-. apply score_data_uid.
Qed.

Lemma keeps_prepare_score jd uid score : keeps (stamps uid) (prepare_score jd uid score).
Proof. apply keeps_same_scores. intros w. apply prepare_score_world. Qed.

Lemma keeps_store_match_score jd uid score :
  keeps (stamps uid) (store_match_score jd uid score).
Proof.
  unfold store_match_score.
  apply (keeps_bind_ret _ (λ r, ∀ cid d, r = Some (cid, d) → d !! "uid" = Some (VStr uid))).
  - apply keeps_prepare_score.
  - intros w w' a Ha cid d ->. by eapply prepare_score_uid.
  - intros [[cid d]|] Hd; [|apply keeps_ret; apply _].
    apply keeps_write. intros w. apply update_one_upsert_stamped. by eapply Hd.
Qed.

Lemma keeps_store_upload_score jd uid score :
  keeps (stamps uid) (store_upload_score jd uid score).
Proof.
  unfold store_upload_score.
  apply (keeps_bind_ret _ (λ r, ∀ cid d, r = Some (cid, d) → d !! "uid" = Some (VStr uid))).
  - apply keeps_prepare_score.
  - intros w w' a Ha cid d ->. by eapply prepare_score_uid.
  - intros [[cid d]|] Hd; [|apply keeps_ret; apply _].
    apply keeps_write.
    intros w x [Hx | ->%list_elem_of_singleton]%elem_of_app; [by left|].
    right. by eapply Hd.
Qed.

Lemma keeps_analyze uid job_text cands :
  keeps (stamps uid) (analyze_multiple_resumes_structured job_text cands).
Proof. apply keeps_same_scores. done. Qed.

Lemma keeps_parse_job_description uid text :
  keeps (stamps uid) (parse_job_description text).
Proof. apply keeps_same_scores. done. Qed.

Lemma keeps_upload_from_stream uid name bytes :
  keeps (stamps uid) (upload_from_stream name bytes).
Proof. apply keeps_same_scores. done. Qed.

Lemma keeps_stamps_fresh uid : keeps (stamps uid) fresh.
Proof. apply keeps_same_scores. done. Qed.

Lemma keeps_write_other uid (f : world → world) :
  (∀ w, top_scores (f w) = top_scores w) → keeps (stamps uid) (write f).
Proof. intros Hf. apply keeps_same_scores. exact Hf. Qed.

Lemma keeps_match_candidates jd_id ids uid :
  keeps (stamps uid) (match_candidates jd_id ids uid).
Proof.
  unfold match_candidates.
  repeat first [apply keeps_analyze | apply keeps_store_match_score | keeps_step].
Qed.

Lemma keeps_fan_out uid jd_text jd_data : keeps (stamps uid) (fan_out uid jd_text jd_data).
Proof.
  unfold fan_out.
  repeat first [apply keeps_analyze | apply keeps_store_upload_score | keeps_step].
Qed.

Lemma keeps_jd_file_body uid file : keeps (stamps uid) (jd_file_body uid file).
Proof.
  unfold jd_file_body.
  repeat first
    [ apply keeps_parse_job_description | apply keeps_upload_from_stream
    | apply keeps_stamps_fresh | apply keeps_fan_out
    | apply keeps_write_other; done | keeps_step ].
Qed.

Lemma keeps_upload_job_descriptions_loop uid files created skipped :
  keeps (stamps uid) (upload_job_descriptions_loop uid files created skipped).
Proof.
  revert created skipped. induction files as [|f files IH]; intros created skipped; simpl.
  - apply keeps_ret; apply _.
  - apply keeps_bind; [apply _| |intros [r|e]; apply IH].
    apply keeps_try_except; [apply _|apply keeps_jd_file_body|].
    intros e. apply keeps_raise; apply _.
Qed.

Lemma keeps_upload_job_descriptions uid files :
  keeps (stamps uid) (upload_job_descriptions files uid).
Proof.
  unfold upload_job_descriptions.
  apply keeps_bind; [apply _|apply keeps_upload_job_descriptions_loop|].
  intros a. apply keeps_ret; apply _.
Qed.

End Stamp.

(** C10. Every document that the /match handler or the fan-out of the job
    upload adds to [top_scores] or updates there carries the [uid] of the
    authenticated caller, whatever the scorer answered and whether the
    handler returns or raises: ["uid"] is bound last in the record, after the
    fields of the scorer. *)
Theorem written_scores_carry_caller_uid `{outside : Externals} (uid : string) (w : world) :
  (∀ jd_id candidate_ids,
     stamped uid (top_scores w) (top_scores (match_candidates jd_id candidate_ids uid w).1))
  ∧ (∀ files,
     stamped uid (top_scores w) (top_scores (upload_job_descriptions files uid w).1))
  ∧ (∀ score_id jd_id cid now total score,
     score_data score_id jd_id cid now total score uid !! "uid" = Some (VStr uid)).
Proof.
  split_and!.
  - intros jd_id ids. apply keeps_match_candidates.
  - intros files. apply keeps_upload_job_descriptions.
  - intros. apply score_data_uid.
Qed.

(** ** The composite score *)

(** When the scorer's record has no [total_score] of its own, the stored
    one is the weighted sum. *)
Lemma score_data_total_computed sid jd cid now total score uid :
  score !! "total_score" = None →
  score_data sid jd cid now total score uid !! "total_score" = Some (VNum total).
Proof.
  intros Hs. unfold score_data.
  rewrite lookup_insert_ne by done.
  rewrite lookup_union_r by done. by rewrite lookup_insert_eq.
Qed.

(** When it has one, that one is stored. *)
Lemma score_data_total_overridden sid jd cid now total score uid v :
  score !! "total_score" = Some v →
  score_data sid jd cid now total score uid !! "total_score" = Some v.
Proof.
  intros Hs. unfold score_data.
  rewrite lookup_insert_ne by done.
  by apply lookup_union_Some_l.
Qed.

(** The worked example of the specification: 90, 85, 80 and 70 weigh to 86. *)
Lemma weighted_total_example :
  ∃ total,
    weighted_total (to_document record_with_total) = inr total
    ∧ total = Q2Qc (86 # 1).
Proof. eexists. split; [reflexivity|]. apply Qc_is_canon. by vm_compute. Qed.

(** C1. The scorer answers with a record whose category scores weigh to 86
    and which also carries a [total_score] of 1. The /match handler and the
    fan-out of the job upload both store 1: [**score] is spread after the
    computed total and rebinds it. *)
Theorem scorer_total_score_is_stored :
  total_scores
    (match_candidates (outside := scripted answers_with_total) "jd1" [] "u1" world1).1
  = [Some (num 1)]
  ∧ total_scores
      (upload_job_descriptions (outside := scripted answers_with_total)
         [posting] "u1" world1).1
    = [Some (num 1)].
Proof. split; by vm_compute. Qed.

(** ** One score per pair *)

Lemma matches_pair jd c d :
  matches [("jd_id", Eq (VStr jd)); ("candidate_id", Eq (VStr c))] d = true
  ↔ pair_key d = (Some (VStr jd), Some (VStr c)).
Proof.
  change (matches _ d)
    with (cond_holds (Eq (VStr jd)) (d !! "jd_id")
          && (cond_holds (Eq (VStr c)) (d !! "candidate_id") && true)).
  rewrite !andb_true_iff, !cond_holds_eq_str. unfold pair_key.
  split; [by intros (-> & -> & _)|by intros [= -> ->]].
Qed.

Lemma update_first_pair_keys jd c upd coll coll' :
  pair_key upd = (Some (VStr jd), Some (VStr c)) →
  update_first [("jd_id", Eq (VStr jd)); ("candidate_id", Eq (VStr c))] upd coll
  = Some coll' →
  pair_key <$> coll' = pair_key <$> coll.
Proof.
  intros Hupd. revert coll'. induction coll as [|d coll IH]; intros coll'; [done|].
  cbn [update_first]. destruct (matches _ d) eqn:Hm.
  - intros [= <-]. rewrite !fmap_cons. f_equal.
    apply matches_pair in Hm. rewrite Hm, <-Hupd.
    injection Hupd as Hj Hc. unfold pair_key.
    by rewrite (lookup_union_Some_l _ _ _ _ Hj), (lookup_union_Some_l _ _ _ _ Hc), Hj, Hc.
  - destruct (update_first _ upd coll) as [c'|]; [|done].
    intros [= <-]. rewrite !fmap_cons. f_equal. by apply IH.
Qed.

Lemma update_first_no_match flt upd coll :
  update_first flt upd coll = None → ∀ d, d ∈ coll → matches flt d = false.
Proof.
  induction coll as [|d coll IH]; simpl; [by intros _ x ?%elem_of_nil|].
  destruct (matches flt d) eqn:Hm; [done|].
  destruct (update_first flt upd coll); [done|].
  intros _ x [->|Hx]%elem_of_cons; [done|by apply IH].
Qed.

(** The upsert of /match keeps one score per pair, replacing in place. *)
Lemma upsert_keeps_one_per_pair jd c upd coll :
  pair_key upd = (Some (VStr jd), Some (VStr c)) →
  one_per_pair coll →
  one_per_pair
    (update_one_upsert [("jd_id", Eq (VStr jd)); ("candidate_id", Eq (VStr c))] upd coll).
Proof.
  intros Hupd Hone. unfold update_one_upsert, one_per_pair in *.
  destruct (update_first _ upd coll) as [coll'|] eqn:E.
  - by rewrite (update_first_pair_keys _ _ _ _ _ Hupd E).
  - rewrite fmap_app. apply NoDup_app. split_and!; [done| |apply NoDup_singleton].
    intros k Hk ->%list_elem_of_singleton.
    apply list_elem_of_fmap in Hk as (d & Hkey & Hd).
    pose proof (update_first_no_match _ _ _ E d Hd) as Hm.
    assert (pair_key d = (Some (VStr jd), Some (VStr c))) as Hd'.
    { rewrite <-Hkey. injection Hupd as Hj Hc. unfold pair_key.
      by rewrite (lookup_union_Some_l _ _ _ _ Hj), (lookup_union_Some_l _ _ _ _ Hc). }
    apply matches_pair in Hd'. congruence.
Qed.

(** So does a whole turn of the /match loop, for a scorer record that names
    its candidate and brings no [jd_id] of its own. *)
Lemma store_match_score_keeps_one_per_pair `{outside : Externals} jd uid kvs c w :
  to_document kvs !! "jd_id" = None →
  to_document kvs !! "candidate_id" = Some (VStr c) →
  one_per_pair (top_scores w) →
  one_per_pair (top_scores (store_match_score (VStr jd) uid (VDict kvs) w).1).
Proof.
  intros Hj Hc Hone. unfold store_match_score, prepare_score, bind, lift, fresh, ret, item.
  destruct (has_key _ _); [done|].
  destruct (weighted_total _); [done|]. rewrite Hc. simpl.
  apply upsert_keeps_one_per_pair; [|done].
  unfold pair_key, score_data. rewrite !lookup_insert_ne by done.
  rewrite (lookup_union_r _ _ _ Hj), (lookup_union_Some_l _ _ _ _ Hc). done.
Qed.

(** C2. One candidate, one new job, and a scorer that answers twice for that
    candidate: the fan-out of the job upload inserts two scores for the same
    job, candidate and owner, where the /match handler, given the same
    answer, keeps one. *)
Theorem fan_out_inserts_a_pair_twice :
  score_keys
    (upload_job_descriptions (outside := scripted answers_twice) [posting] "u1" world1).1
  = [(Some (VStr "uuid-2"), Some (VStr "c1"), Some (VStr "u1"));
     (Some (VStr "uuid-2"), Some (VStr "c1"), Some (VStr "u1"))]
  ∧ score_keys
      (match_candidates (outside := scripted answers_twice) "jd1" [] "u1" world1).1
    = [(Some (VStr "jd1"), Some (VStr "c1"), Some (VStr "u1"))].
Proof. split; by vm_compute. Qed.

(** ** Downloads *)

(** The caller's identity plays no part in a download. *)
Lemma download_ignores_caller `{outside : Externals} id uid1 uid2 w :
  download_candidate_resume id uid1 w = download_candidate_resume id uid2 w
  ∧ download_job_description id uid1 w = download_job_description id uid2 w.
Proof. split; reflexivity. Qed.

(** C3. Everything in the store belongs to [alice]. Asked by [bob], the two
    download handlers return her resume and her job description, while the
    handlers that read the same records answer 404. *)
Theorem download_serves_another_users_file :
  respond (download_candidate_resume (outside := scripted no_answers)
             "c1" "bob" alice_world).2
  = Ok {| dl_contents := "Resume of Ann"; dl_media_type := "application/pdf";
          dl_filename := "ann.pdf" |}
  ∧ respond (download_job_description (outside := scripted no_answers)
               "jd1" "bob" alice_world).2
    = Ok {| dl_contents := "Analyst wanted";
            dl_media_type :=
              "application/vnd.openxmlformats-officedocument.wordprocessingml.document";
            dl_filename := "analyst.docx" |}
  ∧ respond (get_candidate (outside := scripted no_answers) "c1" "bob" alice_world).2
    = Error 404 "Candidate not found"
  ∧ respond (get_job_description (outside := scripted no_answers)
               "jd1" "bob" alice_world).2
    = Error 404 "Job description not found".
Proof. split_and!; by vm_compute. Qed.

(** ** The top-matches query *)

#[local] Instance desc_by_total k : Total (desc_by k).
Proof.
  intros d1 d2. unfold desc_by.
  destruct (Qc_le_total (num_field k d1) (num_field k d2)); auto.
Qed.

#[local] Instance desc_by_trans k : Transitive (desc_by k).
Proof. intros d1 d2 d3 H12 H23. unfold desc_by in *. by etrans. Qed.

Lemma limit_prefix n docs : ∃ rest, docs = (limit n docs ++ rest)%list.
Proof.
  unfold limit. destruct (n =? 0)%Z.
  - exists []. by rewrite app_nil_r.
  - eexists. symmetry. apply take_drop.
Qed.

Lemma limit_length n docs : (0 < n)%Z → (Z.of_nat (length (limit n docs)) ≤ n)%Z.
Proof.
  intros Hn. unfold limit. destruct (Z.eqb_spec n 0); [lia|].
  rewrite length_take. lia.
Qed.

(** C4, as the code has it. Without a job [jd_id] of the caller the query
    fails with 404 and returns nothing. When it returns, every record has a
    composite of at least [min_score], the records are in non-increasing
    order of composite, and, for a limit of at least 1, there are at most
    [limit_] of them. *)
Theorem top_matches_filtered_sorted_limited `{outside : Externals}
    (jd_id : string) (min_score : Qc) (limit_ : Z) (uid : string) (w : world) :
  ((∀ d, d ∈ job_descriptions w → ¬ job_of jd_id uid d) →
     get_top_matches jd_id min_score limit_ uid w
     = (w, inl (HTTPException 404 "Job description not found")))
  ∧ (∀ w' docs, get_top_matches jd_id min_score limit_ uid w = (w', inr docs) →
       Forall (composite_at_least min_score) docs
       ∧ StronglySorted (desc_by "total_score") docs
       ∧ ((0 < limit_)%Z → (Z.of_nat (length docs) ≤ limit_)%Z)).
Proof.
  unfold get_top_matches, bind, read, raise, lift. split.
  - intros Hnone.
    destruct (find_one _ _) as [d|] eqn:E; [|done].
    apply find_one_Some in E as [Hd Hm]. apply matches_jd_filter in Hm.
    by destruct (Hnone d Hd).
  - intros w' docs. destruct (find_one _ _) as [jd|]; [|done].
    intros Hr. injection Hr as _ Hr. apply map_result_check in Hr as ->.
    set (found := find _ _).
    destruct (limit_prefix limit_ (sort_desc "total_score" found)) as [rest Hrest].
    split_and!.
    + apply Forall_forall. intros d Hd.
      assert (d ∈ found) as Hf.
      { rewrite <-(merge_sort_Permutation (desc_by "total_score") found).
        fold (sort_desc "total_score" found). rewrite Hrest. apply elem_of_app. by left. }
      apply elem_of_find in Hf as [_ Hm].
      change (cond_holds (Eq (VStr jd_id)) (d !! "jd_id")
              && (cond_holds (Eq (VStr uid)) (d !! "uid")
                  && (cond_holds (Gte min_score) (d !! "total_score") && true)) = true) in Hm.
      rewrite !andb_true_iff in Hm. destruct Hm as (_ & _ & Hm & _).
      by apply cond_holds_gte.
    + eapply StronglySorted_app_1_l. rewrite <-Hrest.
      apply StronglySorted_merge_sort; apply _.
    + apply limit_length.
Qed.

(** With a threshold of 50 and a limit of 1, of the composites 39.5 and 86
    the query returns the record with 86. *)
Lemma top_matches_filtered_sorted_limited_witness :
  get_top_matches (outside := scripted no_answers) "jd1" (Q2Qc 50) 1 "u1" scored_world
  = (scored_world, inr [scored_c1])
  ∧ Forall (composite_at_least (Q2Qc 50)) [scored_c1]
  ∧ StronglySorted (desc_by "total_score") [scored_c1]
  ∧ (Z.of_nat (length [scored_c1]) ≤ 1)%Z.
Proof.
  assert (get_top_matches (outside := scripted no_answers)
            "jd1" (Q2Qc 50) 1 "u1" scored_world
          = (scored_world, inr [scored_c1])) as Hrun by reflexivity.
  split; [exact Hrun|].
  destruct (top_matches_filtered_sorted_limited (outside := scripted no_answers)
              "jd1" (Q2Qc 50) 1 "u1" scored_world) as [_ Hok].
  destruct (Hok _ _ Hrun) as (Hmin & Hsorted & Hlen).
  split_and!; [exact Hmin|exact Hsorted|apply Hlen; lia].
Defined.

(** The two stored scores have every field [CandidateScore] requires, and
    with a limit of 0 the query returns both of them: more than 0. *)
Lemma top_matches_limit_zero_is_unbounded :
  Forall (λ d, fits_CandidateScore d = true) (top_scores scored_world)
  ∧ ∃ docs,
      get_top_matches (outside := scripted no_answers) "jd1" (Q2Qc 0) 0 "u1" scored_world
      = (scored_world, inr docs)
      ∧ ¬ (Z.of_nat (length docs) ≤ 0)%Z.
Proof.
  split; [repeat constructor|].
  exists [scored_c1; scored_c2].
  split; [reflexivity|simpl; lia].
Qed.

(** ** The upload loops *)

Section Uploads.
Context `{outside : Externals}.

(** One turn of each loop. *)
Lemma upload_candidates_loop_cons uid file rest created skipped w :
  upload_candidates_loop uid (file :: rest) created skipped w =
  match or_abort (filename file) (candidate_file_body uid file) w with
  | (w', inr (Created r)) => upload_candidates_loop uid rest (created ++ [r]) skipped w'
  | (w', inr (Skipped e)) => upload_candidates_loop uid rest created (skipped ++ [e]) w'
  | (w', inl e) => (w', inl e)
  end.
Proof.
  simpl. unfold bind. destruct (or_abort _ _ w) as [w' [e|[r|e]]]; reflexivity.
Qed.

Lemma upload_job_descriptions_loop_cons uid file rest created skipped w :
  upload_job_descriptions_loop uid (file :: rest) created skipped w =
  match or_abort (filename file) (jd_file_body uid file) w with
  | (w', inr (Created r)) => upload_job_descriptions_loop uid rest (created ++ [r]) skipped w'
  | (w', inr (Skipped e)) => upload_job_descriptions_loop uid rest created (skipped ++ [e]) w'
  | (w', inl e) => (w', inl e)
  end.
Proof.
  simpl. unfold bind. destruct (or_abort _ _ w) as [w' [e|[r|e]]]; reflexivity.
Qed.

(** A batch is processed file by file: the second part starts where the
    first part ended. *)
Lemma upload_candidates_loop_app uid pre post created skipped w :
  upload_candidates_loop uid (pre ++ post) created skipped w =
  match upload_candidates_loop uid pre created skipped w with
  | (w', inr (c, s)) => upload_candidates_loop uid post c s w'
  | (w', inl e) => (w', inl e)
  end.
Proof.
  revert created skipped w. induction pre as [|f pre IH]; intros created skipped w.
  - reflexivity.
  - rewrite <-app_comm_cons, !upload_candidates_loop_cons.
    destruct (or_abort _ _ w) as [w' [e|[r|e]]]; [done|apply IH..].
Qed.

Lemma upload_job_descriptions_loop_app uid pre post created skipped w :
  upload_job_descriptions_loop uid (pre ++ post) created skipped w =
  match upload_job_descriptions_loop uid pre created skipped w with
  | (w', inr (c, s)) => upload_job_descriptions_loop uid post c s w'
  | (w', inl e) => (w', inl e)
  end.
Proof.
  revert created skipped w. induction pre as [|f pre IH]; intros created skipped w.
  - reflexivity.
  - rewrite <-app_comm_cons, !upload_job_descriptions_loop_cons.
    destruct (or_abort _ _ w) as [w' [e|[r|e]]]; [done|apply IH..].
Qed.

(** The handlers return what is [visible] of their loop. *)
Lemma upload_candidates_visible files uid w :
  upload_candidates files uid w = visible (upload_candidates_loop uid files [] [] w).
Proof.
  unfold upload_candidates, bind, visible.
  by destruct (upload_candidates_loop _ _ _ _ _) as [w' [e|[c s]]].
Qed.

Lemma upload_job_descriptions_visible files uid w :
  upload_job_descriptions files uid w
  = visible (upload_job_descriptions_loop uid files [] [] w).
Proof.
  unfold upload_job_descriptions, bind, visible.
  by destruct (upload_job_descriptions_loop _ _ _ _ _) as [w' [e|[c s]]].
Qed.

(** [skipped_files] is only appended to: it decides nothing. *)
Lemma upload_job_descriptions_loop_skipped uid files created s1 s2 w :
  visible (upload_job_descriptions_loop uid files created s1 w)
  = visible (upload_job_descriptions_loop uid files created s2 w).
Proof.
  revert created s1 s2 w. induction files as [|f files IH]; intros created s1 s2 w.
  - reflexivity.
  - rewrite !upload_job_descriptions_loop_cons.
    destruct (or_abort _ _ w) as [w' [e|[r|e]]]; [done|apply IH..].
Qed.

Lemma upload_job_descriptions_loop_grows uid files created skipped w w' c s :
  upload_job_descriptions_loop uid files created skipped w = (w', inr (c, s)) →
  ∃ more, s = (skipped ++ more)%list.
Proof.
  revert created skipped w. induction files as [|f files IH]; intros created skipped w.
  - intros [= _ _ <-]. exists []. by rewrite app_nil_r.
  - rewrite upload_job_descriptions_loop_cons.
    destruct (or_abort _ _ w) as [w1 [e|[r|e]]]; [done|apply IH|].
    intros [more ->]%IH. exists (e :: more). by rewrite <-app_assoc.
Qed.

(** What one file does in each of the cases the properties below speak of. *)
Lemma candidate_duplicate_content uid file w :
  is_supported_file (filename file) = true →
  holds_upload uid (content file) (candidates w) →
  or_abort (filename file) (candidate_file_body uid file) w
  = (w, inr (Skipped (duplicate_entry (filename file)))).
Proof.
  intros Hs [d Hd]%holds_upload_find.
  unfold or_abort, try_except, candidate_file_body, bind, read. rewrite Hs. simpl.
  by rewrite Hd.
Qed.

Lemma jd_duplicate_content uid file w :
  holds_upload uid (content file) (job_descriptions w) →
  or_abort (filename file) (jd_file_body uid file) w
  = (w, inr (Skipped (duplicate_entry (filename file)))).
Proof.
  intros [d Hd]%holds_upload_find.
  unfold or_abort, try_except, jd_file_body, bind, read. simpl.
  by rewrite Hd.
Qed.

Lemma jd_duplicate_posting uid file w text parsed title company :
  find_one (hash_filter uid (sha256_hexdigest (content file))) (job_descriptions w) = None →
  jd_inline_text file = inr text →
  parse_job_description text w = (advance w, inr parsed) →
  parsed !! "job_title" = Some (VStr title) → title ≠ "" →
  parsed !! "company" = Some (VStr company) → company ≠ "" →
  (∃ jd, jd ∈ job_descriptions w ∧ owned_by uid jd
         ∧ names_id "job_title" title jd ∧ names_id "company" company jd) →
  or_abort (filename file) (jd_file_body uid file) w
  = (advance w, inr (Skipped (posting_entry (filename file) title company))).
Proof.
  intros Hnone Htext Hparse Htitle Hnt Hcompany Hnc (jd & Hjd & Ho & Ht & Hc).
  unfold or_abort, try_except, jd_file_body.
  unfold bind at 1. unfold read at 1. rewrite Hnone.
  unfold bind at 1. unfold lift at 1. rewrite Htext.
  unfold bind at 1. rewrite Hparse.
  assert (get parsed "job_title" VNone = VStr title) as ->
    by (unfold get; by rewrite Htitle).
  assert (get parsed "company" VNone = VStr company) as ->
    by (unfold get; by rewrite Hcompany).
  assert (truthy (VStr title) = true) as ->.
  { simpl. by destruct (String.eqb_spec title ""). }
  assert (truthy (VStr company) = true) as ->.
  { simpl. by destruct (String.eqb_spec company ""). }
  cbn [andb]. unfold bind, read.
  destruct (find_one _ (job_descriptions (advance w))) eqn:E; [done|].
  rewrite find_one_None in E. specialize (E jd Hjd).
  apply not_true_iff_false in E. destruct E.
  change (cond_holds (Eq (VStr uid)) (jd !! "uid")
          && (cond_holds (Eq (VStr title)) (jd !! "job_title")
              && (cond_holds (Eq (VStr company)) (jd !! "company") && true)) = true).
  rewrite !andb_true_iff, !cond_holds_eq_str. done.
Qed.

Lemma candidate_unsupported uid file w :
  is_supported_file (filename file) = false →
  or_abort (filename file) (candidate_file_body uid file) w
  = (w, inl (HTTPException 500
       ("Error processing " ++ filename file ++ ": 400: Unsupported file format: "
          ++ filename file ++ ". Supported: PDF, DOCX, TXT, JPG, PNG"))).
Proof.
  intros Hs. unfold or_abort, try_except, candidate_file_body. by rewrite Hs.
Qed.

Lemma jd_unsupported uid file w :
  find_one (hash_filter uid (sha256_hexdigest (content file))) (job_descriptions w) = None →
  endswith (filename file) ".pdf" = false →
  endswith (filename file) ".docx" = false →
  or_abort (filename file) (jd_file_body uid file) w
  = (w, inl (HTTPException 500
       ("Error processing " ++ filename file
          ++ ": 400: Unsupported file format. Use PDF or DOCX"))).
Proof.
  intros Hn Hpdf Hdocx.
  unfold or_abort, try_except, jd_file_body, jd_inline_text, bind, read, lift. simpl.
  by rewrite Hn, Hpdf, Hdocx.
Qed.

Lemma candidate_insufficient_text uid file w text :
  is_supported_file (filename file) = true →
  find_one (hash_filter uid (sha256_hexdigest (content file))) (candidates w) = None →
  extract_text_from_upload file = inr text →
  (str_len (strip text) < 50)%nat →
  or_abort (filename file) (candidate_file_body uid file) w
  = (w, inl (HTTPException 500
       ("Error processing " ++ filename file
          ++ ": 400: Could not extract sufficient text from " ++ filename file
          ++ ". Please ensure the file is readable."))).
Proof.
  intros Hs Hn Ht Hlen.
  unfold or_abort, try_except, candidate_file_body, bind, read, lift. rewrite Hs. simpl.
  rewrite Hn, Ht.
  assert ((str_len (strip text) <? 50)%nat = true) as -> by by apply Nat.ltb_lt.
  by rewrite orb_true_r.
Qed.

End Uploads.

(** C5, as the code has it. A file whose bytes are those of a record the
    same user already has is skipped as duplicate content whatever its name,
    the skip is appended to [skipped_files], and the loop goes on with the
    next file in the same store: for a job upload always, for a candidate
    upload when the name has a supported extension. *)
Theorem duplicate_content_is_skipped `{outside : Externals}
    (uid : string) (file : UploadFile) (rest : list UploadFile)
    (created skipped : list document) (w : world) :
  (is_supported_file (filename file) = true →
   holds_upload uid (content file) (candidates w) →
   upload_candidates_loop uid (file :: rest) created skipped w
   = upload_candidates_loop uid rest created
       (skipped ++ [duplicate_entry (filename file)]) w)
  ∧ (holds_upload uid (content file) (job_descriptions w) →
     upload_job_descriptions_loop uid (file :: rest) created skipped w
     = upload_job_descriptions_loop uid rest created
         (skipped ++ [duplicate_entry (filename file)]) w).
Proof.
  split.
  - intros Hs Hdup. by rewrite upload_candidates_loop_cons, candidate_duplicate_content.
  - intros Hdup. by rewrite upload_job_descriptions_loop_cons, jd_duplicate_content.
Qed.

(** With the renamed copy of a stored resume first in the batch, and with a
    renamed copy of a stored posting. *)
Lemma duplicate_content_is_skipped_witness :
  upload_candidates_loop (outside := scripted answers_profile)
    "u1" (ann_copy :: [bob_txt]) [] [] after_ann
  = upload_candidates_loop (outside := scripted answers_profile)
      "u1" [bob_txt] [] ([] ++ [duplicate_entry (filename ann_copy)]) after_ann
  ∧ upload_job_descriptions_loop (outside := scripted answers_profile)
      "u1" (posting_copy :: []) [] [] after_posting
    = upload_job_descriptions_loop (outside := scripted answers_profile)
        "u1" [] [] ([] ++ [duplicate_entry (filename posting_copy)]) after_posting.
Proof.
  split.
  - apply (proj1 (duplicate_content_is_skipped (outside := scripted answers_profile)
                    "u1" ann_copy [bob_txt] [] [] after_ann)).
    + reflexivity.
    + apply holds_upload_find. eexists. reflexivity.
  - apply (proj2 (duplicate_content_is_skipped (outside := scripted answers_profile)
                    "u1" posting_copy [] [] [] after_posting)).
    apply holds_upload_find. eexists. reflexivity.
Defined.

(** The bytes of a stored resume under the name [ann.exe]: the candidate
    upload does not skip the file, it fails, and the file after it is not
    processed. *)
Lemma renamed_duplicate_aborts_candidate_upload :
  content ann_exe = content ann_txt
  ∧ holds_upload (outside := scripted answers_profile)
      "u1" (content ann_exe) (candidates after_ann)
  ∧ upload_candidates (outside := scripted answers_profile)
      [ann_exe; bob_txt] "u1" after_ann
    = (after_ann,
       inl (HTTPException 500
              "Error processing ann.exe: 400: Unsupported file format: ann.exe. Supported: PDF, DOCX, TXT, JPG, PNG")).
Proof.
  split_and!.
  - reflexivity.
  - apply holds_upload_find. eexists. reflexivity.
  - reflexivity.
Qed.

(** C6, as the code has it. In a candidate upload, a file of a supported
    type that is not a duplicate and whose extracted text has fewer than 50
    code points once stripped (an empty text among them) ends the batch: the
    request fails with a 500 that names the file, the files after it are not
    processed, no list of records is returned, and the store is as the files
    before it left it. *)
Theorem insufficient_text_aborts_batch `{outside : Externals}
    (uid : string) (pre : list UploadFile) (file : UploadFile) (post : list UploadFile)
    (w0 w1 : world) (created skipped : list document) (text : string) :
  upload_candidates_loop uid pre [] [] w0 = (w1, inr (created, skipped)) →
  is_supported_file (filename file) = true →
  find_one (hash_filter uid (sha256_hexdigest (content file))) (candidates w1) = None →
  extract_text_from_upload file = inr text →
  (str_len (strip text) < 50)%nat →
  upload_candidates (pre ++ file :: post) uid w0
  = (w1, inl (HTTPException 500
       ("Error processing " ++ filename file
          ++ ": 400: Could not extract sufficient text from " ++ filename file
          ++ ". Please ensure the file is readable."))).
Proof.
  intros Hpre Hs Hn Ht Hlen.
  rewrite upload_candidates_visible, upload_candidates_loop_app, Hpre.
  rewrite upload_candidates_loop_cons.
  by rewrite (candidate_insufficient_text _ _ _ text).
Qed.

Lemma insufficient_text_aborts_batch_witness :
  upload_candidates (outside := scripted answers_profile)
    ([ann_txt] ++ short_txt :: [bob_txt]) "u1" empty_world
  = (after_ann,
     inl (HTTPException 500
            ("Error processing " ++ filename short_txt
               ++ ": 400: Could not extract sufficient text from " ++ filename short_txt
               ++ ". Please ensure the file is readable."))).
Proof.
  apply (insufficient_text_aborts_batch (outside := scripted answers_profile)
           "u1" [ann_txt] short_txt [bob_txt] empty_world after_ann
           [ann_record] [] "Too short.").
  - reflexivity.
  - reflexivity.
  - reflexivity.
  - reflexivity.
  - vm_compute. lia.
Defined.

(** A ten-character text file between two good resumes: the response is an
    error, not the list with the first resume, and the third file is never
    stored. *)
Lemma short_text_fails_the_upload :
  respond (upload_candidates (outside := scripted answers_profile)
             [ann_txt; short_txt; bob_txt] "u1" empty_world).2
  = Error 500
      "Error processing short.txt: 400: Could not extract sufficient text from short.txt. Please ensure the file is readable."
  ∧ length (candidates (upload_candidates (outside := scripted answers_profile)
                          [ann_txt; short_txt; bob_txt] "u1" empty_world).1) = 1.
Proof. split; reflexivity. Qed.

(** The threshold counts code points after [strip]: a no-break space and 49
    letters are 51 bytes and 50 code points, of which [strip] leaves 49, and
    the file is refused. *)
Lemma stripped_code_points_are_counted :
  String.length nbsp_text = 51%nat
  ∧ str_len nbsp_text = 50%nat
  ∧ str_len (strip nbsp_text) = 49%nat
  ∧ respond (upload_candidates (outside := scripted answers_profile)
               [nbsp_txt] "u1" empty_world).2
    = Error 500
        "Error processing nbsp.txt: 400: Could not extract sufficient text from nbsp.txt. Please ensure the file is readable.".
Proof. split_and!; reflexivity. Qed.

(** C7, as the code has it. A file of an unsupported type ends the batch:
    the request fails with a 500 that names the file, the files after it are
    not processed, and the store is as the files before it left it. A
    candidate upload checks the type first; a job upload accepts [.pdf] and
    [.docx] only and checks after the duplicate-content test. *)
Theorem unsupported_file_aborts_batch `{outside : Externals}
    (uid : string) (pre : list UploadFile) (file : UploadFile) (post : list UploadFile)
    (w0 w1 : world) (created skipped : list document) :
  (upload_candidates_loop uid pre [] [] w0 = (w1, inr (created, skipped)) →
   is_supported_file (filename file) = false →
   upload_candidates (pre ++ file :: post) uid w0
   = (w1, inl (HTTPException 500
        ("Error processing " ++ filename file ++ ": 400: Unsupported file format: "
           ++ filename file ++ ". Supported: PDF, DOCX, TXT, JPG, PNG"))))
  ∧ (upload_job_descriptions_loop uid pre [] [] w0 = (w1, inr (created, skipped)) →
     find_one (hash_filter uid (sha256_hexdigest (content file))) (job_descriptions w1)
     = None →
     endswith (filename file) ".pdf" = false →
     endswith (filename file) ".docx" = false →
     upload_job_descriptions (pre ++ file :: post) uid w0
     = (w1, inl (HTTPException 500
          ("Error processing " ++ filename file
             ++ ": 400: Unsupported file format. Use PDF or DOCX")))).
Proof.
  split.
  - intros Hpre Hs.
    rewrite upload_candidates_visible, upload_candidates_loop_app, Hpre.
    by rewrite upload_candidates_loop_cons, candidate_unsupported.
  - intros Hpre Hn Hpdf Hdocx.
    rewrite upload_job_descriptions_visible, upload_job_descriptions_loop_app, Hpre.
    by rewrite upload_job_descriptions_loop_cons, jd_unsupported.
Qed.

Lemma unsupported_file_aborts_batch_witness :
  upload_candidates (outside := scripted answers_profile)
    ([ann_txt] ++ ann_exe :: [bob_txt]) "u1" empty_world
  = (after_ann,
     inl (HTTPException 500
            ("Error processing " ++ filename ann_exe ++ ": 400: Unsupported file format: "
               ++ filename ann_exe ++ ". Supported: PDF, DOCX, TXT, JPG, PNG")))
  ∧ upload_job_descriptions (outside := scripted answers_profile)
      ([posting] ++ posting_txt :: [posting_copy]) "u1" empty_world
    = (after_posting,
       inl (HTTPException 500
              ("Error processing " ++ filename posting_txt
                 ++ ": 400: Unsupported file format. Use PDF or DOCX"))).
Proof.
  split.
  - apply (proj1 (unsupported_file_aborts_batch (outside := scripted answers_profile)
                    "u1" [ann_txt] ann_exe [bob_txt] empty_world after_ann
                    [ann_record] [])).
    + reflexivity.
    + reflexivity.
  - apply (proj2 (unsupported_file_aborts_batch (outside := scripted answers_profile)
                    "u1" [posting] posting_txt [posting_copy] empty_world after_posting
                    [posting_record] [])).
    + reflexivity.
    + reflexivity.
    + reflexivity.
    + reflexivity.
Defined.

(** An [.exe] between two good resumes, and a [.txt] posting after a good
    one: both uploads answer 500 and stop. *)
Lemma unsupported_file_fails_the_upload :
  respond (upload_candidates (outside := scripted answers_profile)
             [ann_txt; ann_exe; bob_txt] "u1" empty_world).2
  = Error 500
      "Error processing ann.exe: 400: Unsupported file format: ann.exe. Supported: PDF, DOCX, TXT, JPG, PNG"
  ∧ length (candidates (upload_candidates (outside := scripted answers_profile)
                          [ann_txt; ann_exe; bob_txt] "u1" empty_world).1) = 1
  ∧ respond (upload_job_descriptions (outside := scripted answers_profile)
               [posting; posting_txt] "u1" empty_world).2
    = Error 500 "Error processing analyst.txt: 400: Unsupported file format. Use PDF or DOCX".
Proof. split_and!; reflexivity. Qed.

(** C8, as the code has it. In a job upload, a file that is skipped, as
    duplicate content or because a job of the caller has its title and
    company, is appended with its reason to [skipped_files], and the
    response is the list of created records alone: [skipped_files] is no
    part of it. The file leaves nothing in the response or in the store:
    after a content duplicate both are those of the same batch without the
    file; after a title duplicate they are what the remaining files make of
    the store as it was, one call to the parser later. *)
Theorem skipped_job_file_is_not_reported `{outside : Externals}
    (uid : string) (pre : list UploadFile) (file : UploadFile) (post : list UploadFile)
    (w0 w1 : world) (created skipped : list document) :
  upload_job_descriptions_loop uid pre [] [] w0 = (w1, inr (created, skipped)) →
  (holds_upload uid (content file) (job_descriptions w1) →
   upload_job_descriptions (pre ++ file :: post) uid w0
   = upload_job_descriptions (pre ++ post) uid w0
   ∧ ∀ w' c s,
       upload_job_descriptions_loop uid (pre ++ file :: post) [] [] w0 = (w', inr (c, s)) →
       duplicate_entry (filename file) ∈ s
       ∧ upload_job_descriptions (pre ++ file :: post) uid w0 = (w', inr c))
  ∧ (∀ text parsed title company,
       find_one (hash_filter uid (sha256_hexdigest (content file))) (job_descriptions w1)
       = None →
       jd_inline_text file = inr text →
       parse_job_description text w1 = (advance w1, inr parsed) →
       parsed !! "job_title" = Some (VStr title) → title ≠ "" →
       parsed !! "company" = Some (VStr company) → company ≠ "" →
       (∃ jd, jd ∈ job_descriptions w1 ∧ owned_by uid jd
              ∧ names_id "job_title" title jd ∧ names_id "company" company jd) →
       upload_job_descriptions (pre ++ file :: post) uid w0
       = visible (upload_job_descriptions_loop uid post created skipped (advance w1))
       ∧ ∀ w' c s,
           upload_job_descriptions_loop uid (pre ++ file :: post) [] [] w0
           = (w', inr (c, s)) →
           posting_entry (filename file) title company ∈ s
           ∧ upload_job_descriptions (pre ++ file :: post) uid w0 = (w', inr c)).
Proof.
  intros Hpre. split.
  - intros Hdup. split.
    + rewrite !upload_job_descriptions_visible, !upload_job_descriptions_loop_app, Hpre.
      rewrite upload_job_descriptions_loop_cons, jd_duplicate_content by done.
      apply upload_job_descriptions_loop_skipped.
    + intros w' c s Hrun. split; [|by rewrite upload_job_descriptions_visible, Hrun].
      revert Hrun. rewrite upload_job_descriptions_loop_app, Hpre.
      rewrite upload_job_descriptions_loop_cons, jd_duplicate_content by done.
      intros [more ->]%upload_job_descriptions_loop_grows.
      apply elem_of_app. left. apply elem_of_app. right. by left.
  - intros text parsed title company Hnone Htext Hparse Htitle Hnt Hcompany Hnc Hjd.
    pose proof (jd_duplicate_posting uid file w1 text parsed title company
                  Hnone Htext Hparse Htitle Hnt Hcompany Hnc Hjd) as Hstep.
    split.
    + rewrite upload_job_descriptions_visible, upload_job_descriptions_loop_app, Hpre.
      rewrite upload_job_descriptions_loop_cons, Hstep.
      apply upload_job_descriptions_loop_skipped.
    + intros w' c s Hrun. split; [|by rewrite upload_job_descriptions_visible, Hrun].
      revert Hrun. rewrite upload_job_descriptions_loop_app, Hpre.
      rewrite upload_job_descriptions_loop_cons, Hstep.
      intros [more ->]%upload_job_descriptions_loop_grows.
      apply elem_of_app. left. apply elem_of_app. right. by left.
Qed.

(** A renamed copy of the stored posting, and another file for the same
    title and company: after either, the caller gets the one created
    record. *)
Lemma skipped_job_file_is_not_reported_witness :
  upload_job_descriptions (outside := scripted answers_profile)
    ([posting] ++ posting_copy :: []) "u1" empty_world
  = upload_job_descriptions (outside := scripted answers_profile)
      ([posting] ++ []) "u1" empty_world
  ∧ upload_job_descriptions (outside := scripted answers_profile)
      ([posting] ++ posting_again :: []) "u1" empty_world
    = visible (upload_job_descriptions_loop (outside := scripted answers_profile)
                 "u1" [] [posting_record] [] (advance after_posting)).
Proof.
  destruct (skipped_job_file_is_not_reported (outside := scripted answers_profile)
              "u1" [posting] posting_copy [] empty_world after_posting [posting_record] [])
    as [Hcontent _]; [reflexivity|].
  destruct (skipped_job_file_is_not_reported (outside := scripted answers_profile)
              "u1" [posting] posting_again [] empty_world after_posting [posting_record] [])
    as [_ Htitle]; [reflexivity|].
  split.
  - apply Hcontent. apply holds_upload_find. eexists. reflexivity.
  - apply (Htitle (content posting_again) posting_parsed "Analyst" "Acme").
    + reflexivity.
    + reflexivity.
    + reflexivity.
    + reflexivity.
    + discriminate.
    + reflexivity.
    + discriminate.
    + exists posting_record. split_and!; [|reflexivity..].
      apply (list_elem_of_lookup_2 _ 0). reflexivity.
Defined.

(** A batch of one file, a renamed copy of a stored posting: the file is
    in [skipped_files] with its reason, and the caller gets what the empty
    batch gets, the empty list. *)
Lemma skipped_files_are_not_in_the_response :
  (upload_job_descriptions_loop (outside := scripted answers_profile)
     "u1" [posting_copy] [] [] after_posting).2
  = inr ([], [duplicate_entry "renamed.docx"])
  ∧ respond (upload_job_descriptions (outside := scripted answers_profile)
               [posting_copy] "u1" after_posting).2 = Ok []
  ∧ respond (upload_job_descriptions (outside := scripted answers_profile)
               [] "u1" after_posting).2 = Ok [].
Proof. split_and!; reflexivity. Qed.

(** ** What the parsers return *)

Section Parsers.
Context `{outside : Externals}.

Lemma parse_resume_run text w :
  parse_resume text w
  = (advance w, inr match parse_resume_attempt (tick w) text with
                    | inr cleaned_data => cleaned_data
                    | inl e => resume_fallback e
                    end).
Proof. reflexivity. Qed.

Lemma parse_job_description_run text w :
  parse_job_description text w
  = (advance w, inr match parse_jd_attempt (tick w) text with
                    | inr fields => fields
                    | inl e => jd_fallback e
                    end).
Proof. reflexivity. Qed.

Ltac bind_inv H :=
  repeat match type of H with
         | match ?m with inl _ => _ | inr _ => _ end = inr _ =>
             let E := fresh "E" in destruct m eqn:E; [discriminate H|]
         end.

(** Neither parser binds a key of the record the upload builds around its
    result. *)
Lemma clean_and_validate_data_keys parsed d :
  clean_and_validate_data parsed = inr d →
  d !! "uid" = None ∧ d !! "file_hash" = None.
Proof.
  unfold clean_and_validate_data. destruct parsed; try done.
  intros Hd. unfold mbind, result_bind in Hd. bind_inv Hd.
  injection Hd as <-. done.
Qed.

Lemma parse_resume_keys text w d w' :
  parse_resume text w = (w', inr d) →
  d !! "uid" = None ∧ d !! "file_hash" = None.
Proof.
  rewrite parse_resume_run. intros [= _ <-].
  destruct (parse_resume_attempt _ _) as [e|d] eqn:E; [done|].
  unfold parse_resume_attempt, mbind, result_bind in E.
  destruct (chat_parse_resume _ _); [done|]. destruct (json_loads _); [done|].
  by eapply clean_and_validate_data_keys.
Qed.

Lemma parse_job_description_keys text w d w' :
  parse_job_description text w = (w', inr d) →
  d !! "uid" = None ∧ d !! "file_hash" = None ∧ d !! "jd_id" = None.
Proof.
  rewrite parse_job_description_run. intros [= _ <-].
  destruct (parse_jd_attempt _ _) as [e|d] eqn:E; [done|].
  unfold parse_jd_attempt, mbind, result_bind in E.
  destruct (chat_parse_jd _ _); [done|]. destruct (json_loads _) as [|[]]; try done.
  by injection E as <-.
Qed.

(** ** The fan-out leaves the profiles alone *)

#[local] Instance same_profiles_preorder : PreOrder same_profiles.
Proof.
  split.
  - by intros w.
  - intros w1 w2 w3 [Hc12 Hj12] [Hc23 Hj23]. split; congruence.
Qed.

Lemma keeps_profiles_store_upload_score jd uid score :
  keeps same_profiles (store_upload_score jd uid score).
Proof.
  unfold store_upload_score. apply keeps_bind; [apply _| |].
  - intros w. destruct (prepare_score_world jd uid score w) as (Hc & Hj & _). by split.
  - intros [[cid d]|]; [|apply keeps_ret; apply _]. by apply keeps_write.
Qed.

Lemma keeps_profiles_analyze job_text cands :
  keeps same_profiles (analyze_multiple_resumes_structured job_text cands).
Proof. by intros w. Qed.

Lemma keeps_profiles_fan_out uid jd_text jd_data :
  keeps same_profiles (fan_out uid jd_text jd_data).
Proof.
  unfold fan_out.
  repeat first
    [ apply keeps_profiles_analyze | apply keeps_profiles_store_upload_score | keeps_step ].
Qed.

(** ** An accepted upload can be found again *)

(** It leaves a record with the caller's [uid] and the digest of the file. *)
Lemma accepted_candidate_is_held uid file w w' r :
  candidate_file_body uid file w = (w', inr (Created r)) →
  holds_upload uid (content file) (candidates w').
Proof.
  unfold candidate_file_body.
  destruct (is_supported_file _); [|done]. simpl.
  unfold bind at 1. unfold read at 1.
  destruct (find_one _ _); [done|].
  unfold bind at 1. unfold lift at 1.
  destruct (extract_text_from_upload file) as [|text]; [done|].
  destruct (_ || _); [done|].
  unfold bind at 1. rewrite parse_resume_run.
  set (d := match parse_resume_attempt _ _ with inl e => _ | inr c => c end).
  assert (d !! "uid" = None ∧ d !! "file_hash" = None) as [Hu Hh].
  { eapply (parse_resume_keys text w). apply parse_resume_run. }
  unfold bind at 1. unfold lift at 1. destruct (py_len _); [done|].
  unfold bind at 1.
  destruct (if truthy _ then _ else _) as [w1 [|[]]] eqn:E1; try done.
  unfold upload_from_stream, bind, fresh, write, ret. simpl.
  destruct (Candidate_validates _); [|done].
  intros [= <- <-]. simpl. eexists. split; [apply elem_of_app; right; by left|].
  split; by rewrite lookup_union_r.
Qed.

Lemma accepted_jd_is_held uid file w w' r :
  jd_file_body uid file w = (w', inr (Created r)) →
  holds_upload uid (content file) (job_descriptions w').
Proof.
  unfold jd_file_body.
  unfold bind at 1. unfold read at 1.
  destruct (find_one _ _); [done|].
  unfold bind at 1. unfold lift at 1.
  destruct (jd_inline_text file) as [|text]; [done|].
  unfold bind at 1. rewrite parse_job_description_run.
  set (d := match parse_jd_attempt _ _ with inl e => _ | inr c => c end).
  assert (d !! "uid" = None ∧ d !! "file_hash" = None ∧ d !! "jd_id" = None)
    as (Hu & Hh & _).
  { eapply (parse_job_description_keys text w). apply parse_job_description_run. }
  unfold bind at 1.
  destruct (if truthy _ && truthy _ then _ else _) as [w1 [|[]]] eqn:E1; try done.
  unfold upload_from_stream. unfold bind at 1 2 3 4 5 6 7.
  unfold fresh, write, ret. simpl.
  destruct (JobDescription_validates _); [|done]. simpl.
  set (jd_data := d ∪ _). set (w2 := set_job_descriptions _ _).
  unfold bind. pose proof (keeps_profiles_fan_out uid text jd_data w2) as [_ Hjobs].
  destruct (fan_out uid text jd_data w2) as [w3 [|[]]]; [done|].
  intros [= <- <-]. simpl in Hjobs. rewrite Hjobs.
  exists jd_data. split; [apply elem_of_app; right; by left|].
  subst jd_data. split; by rewrite lookup_union_r.
Qed.

(** ** A parser failure during an upload *)

Lemma strip_empty_text text : (50 ≤ str_len (strip text))%nat → nonempty text = true.
Proof. destruct text; [|done]. intros Hlen. vm_compute in Hlen. lia. Qed.

(** A resume the parser failed on is stored with the placeholder fields. *)
Lemma candidate_parse_failure_is_stored uid file w text e :
  is_supported_file (filename file) = true →
  find_one (hash_filter uid (sha256_hexdigest (content file))) (candidates w) = None →
  extract_text_from_upload file = inr text →
  (50 ≤ str_len (strip text))%nat →
  parse_resume_attempt (tick w) text = inl e →
  ∃ w' r,
    or_abort (filename file) (candidate_file_body uid file) w = (w', inr (Created r))
    ∧ r ∈ candidates w'
    ∧ r !! "name" = Some (VStr "Unknown")
    ∧ r !! "professional_summary" = Some (VStr ("Error parsing resume: " ++ str_exn e)).
Proof.
  intros Hs Hn Ht Hlen He.
  unfold or_abort, try_except, candidate_file_body. rewrite Hs. simpl.
  unfold bind at 1. unfold read at 1. rewrite Hn.
  unfold bind at 1. unfold lift at 1. rewrite Ht.
  rewrite (strip_empty_text _ Hlen).
  assert ((str_len (strip text) <? 50)%nat = false) as -> by by apply Nat.ltb_ge.
  simpl.
  unfold bind at 1. rewrite parse_resume_run, He.
  assert (get (resume_fallback e) "skills" (VList []) = VList []) as -> by reflexivity.
  assert (get (resume_fallback e) "email" VNone = VNone) as -> by reflexivity.
  unfold bind, lift, read, ret, upload_from_stream, fresh, write. simpl.
  rewrite Candidate_validates_fits by reflexivity.
  eexists _, _. split; [reflexivity|]. simpl.
  split; [apply elem_of_app; right; by left|]. done.
Qed.

(** A job the parser failed on is stored with the placeholder fields, and
    what remains of the turn is the fan-out. *)
Lemma jd_parse_failure_is_stored uid file w text e :
  find_one (hash_filter uid (sha256_hexdigest (content file))) (job_descriptions w) = None →
  jd_inline_text file = inr text →
  parse_jd_attempt (tick w) text = inl e →
  ∃ w' r,
    r ∈ job_descriptions w'
    ∧ candidates w' = candidates w
    ∧ r !! "job_title" = Some (VStr "Untitled Position")
    ∧ r !! "description" = Some (VStr ("Error parsing JD: " ++ str_exn e))
    ∧ jd_file_body uid file w = (fan_out uid text r ;; ret (Created r)) w'.
Proof.
  intros Hn Ht He.
  unfold jd_file_body.
  unfold bind at 1. unfold read at 1. rewrite Hn.
  unfold bind at 1. unfold lift at 1. rewrite Ht.
  unfold bind at 1. rewrite parse_job_description_run, He.
  assert (get (jd_fallback e) "job_title" VNone = VStr "Untitled Position") as ->
    by reflexivity.
  assert (get (jd_fallback e) "company" VNone = VStr "") as -> by reflexivity.
  simpl.
  unfold upload_from_stream. unfold bind at 1 2 3 4 5 6 7 8.
  unfold fresh, write, ret. simpl.
  rewrite JobDescription_validates_fits by reflexivity.
  eexists _, _. split_and!; [| | | |reflexivity]; simpl.
  - apply elem_of_app; right; by left.
  - done.
  - done.
  - done.
Qed.

End Parsers.

(** C9. Neither parser raises: each returns a record for every text, and
    when anything inside it fails that record is the fallback, with the
    placeholder name [Unknown] (title [Untitled Position] for a job) and the
    error noted in the summary (the description). An upload goes on with the
    fallback record: the resume is stored and returned as created; the job
    is stored, and the rest of its turn is the scoring fan-out. *)
Theorem parser_failure_is_contained `{outside : Externals} :
  (∀ text w,
     ∃ d, parse_resume text w = (advance w, inr d)
          ∧ ∀ e, parse_resume_attempt (tick w) text = inl e →
                 d = resume_fallback e
                 ∧ d !! "name" = Some (VStr "Unknown")
                 ∧ d !! "professional_summary"
                   = Some (VStr ("Error parsing resume: " ++ str_exn e)))
  ∧ (∀ text w,
       ∃ d, parse_job_description text w = (advance w, inr d)
            ∧ ∀ e, parse_jd_attempt (tick w) text = inl e →
                   d = jd_fallback e
                   ∧ d !! "job_title" = Some (VStr "Untitled Position")
                   ∧ d !! "description" = Some (VStr ("Error parsing JD: " ++ str_exn e)))
  ∧ (∀ uid file w text e,
       is_supported_file (filename file) = true →
       find_one (hash_filter uid (sha256_hexdigest (content file))) (candidates w) = None →
       extract_text_from_upload file = inr text →
       (50 ≤ str_len (strip text))%nat →
       parse_resume_attempt (tick w) text = inl e →
       ∃ w' r,
         or_abort (filename file) (candidate_file_body uid file) w
         = (w', inr (Created r))
         ∧ r ∈ candidates w'
         ∧ r !! "name" = Some (VStr "Unknown")
         ∧ r !! "professional_summary"
           = Some (VStr ("Error parsing resume: " ++ str_exn e)))
  ∧ (∀ uid file w text e,
       find_one (hash_filter uid (sha256_hexdigest (content file))) (job_descriptions w)
       = None →
       jd_inline_text file = inr text →
       parse_jd_attempt (tick w) text = inl e →
       ∃ w' r,
         r ∈ job_descriptions w'
         ∧ candidates w' = candidates w
         ∧ r !! "job_title" = Some (VStr "Untitled Position")
         ∧ r !! "description" = Some (VStr ("Error parsing JD: " ++ str_exn e))
         ∧ jd_file_body uid file w = (fan_out uid text r ;; ret (Created r)) w').
Proof.
  split_and!.
  - intros text w. eexists. split; [apply parse_resume_run|].
    intros e ->. done.
  - intros text w. eexists. split; [apply parse_job_description_run|].
    intros e ->. done.
  - apply @candidate_parse_failure_is_stored.
  - apply @jd_parse_failure_is_stored.
Qed.

(** The model answers no JSON at all: the resume of Ann is stored under the
    name [Unknown], with the decoding error in its summary. *)
Lemma parser_failure_is_contained_witness :
  ∃ w' r,
    or_abort (filename ann_txt)
      (candidate_file_body (outside := scripted no_answers) "u1" ann_txt) empty_world
    = (w', inr (Created r))
    ∧ r ∈ candidates w'
    ∧ r !! "name" = Some (VStr "Unknown")
    ∧ r !! "professional_summary"
      = Some (VStr ("Error parsing resume: " ++ str_exn parse_error)).
Proof.
  destruct (parser_failure_is_contained (outside := scripted no_answers))
    as (_ & _ & Hupload & _).
  apply (Hupload "u1" ann_txt empty_world ann_text parse_error).
  - reflexivity.
  - reflexivity.
  - reflexivity.
  - vm_compute. lia.
  - reflexivity.
Defined.

(** A record that the parser returns normally can still end the batch: with
    [null] for the skills, the log line of the upload takes its length. *)
Lemma null_skills_end_the_upload :
  respond (upload_candidates (outside := scripted answers_null_skills)
             [ann_txt] "u1" empty_world).2
  = Error 500 "Error processing ann.txt: object of type 'NoneType' has no len()".
Proof. reflexivity. Qed.

(** * More properties of the code *)

(** ** llmservices/parser_llm.py *)

Section MoreParsers.
Context `{outside : Externals}.

Ltac bind_inv' H :=
  repeat match type of H with
         | match ?m with inl _ => _ | inr _ => _ end = inr _ =>
             let E := fresh "E" in destruct m eqn:E; [discriminate H|]
         end.

Lemma dedup_go_spec seen l :
  NoDup (dedup_go seen l) ∧ ∀ x, x ∈ dedup_go seen l → x ∈ l ∧ x ∉ seen.
Proof.
  revert seen. induction l as [|y l IH]; intros seen; simpl.
  - split; [constructor|]. by intros x ?%elem_of_nil.
  - case_bool_decide as Hy.
    + destruct (IH seen) as [Hnd Hin]. split; [done|].
      intros x Hx. destruct (Hin x Hx). split; [by right|done].
    + destruct (IH (y :: seen)) as [Hnd Hin]. split.
      * constructor; [|done]. intros Hy'. destruct (Hin y Hy') as [_ Hn].
        apply Hn. by left.
      * intros x [->|Hx]%elem_of_cons; [split; [by left|done]|].
        destruct (Hin x Hx) as [Hl Hn]. split; [by right|].
        intros Hs. apply Hn. by right.
Qed.

Lemma dedup_NoDup l : NoDup (dedup l).
Proof. apply dedup_go_spec. Qed.

Lemma dedup_subset l x : x ∈ dedup l → x ∈ l.
Proof. intros Hx. by apply (dedup_go_spec [] l). Qed.

Lemma normalize_skill_nonblank s : s ≠ "" → normalize_skill s ≠ "".
Proof.
  intros Hs. unfold normalize_skill.
  destruct (List.find _ skill_mappings) as [[k v]|] eqn:E; [|done].
  apply find_some in E as [Hin _]. simpl.
  unfold skill_mappings in Hin. simpl in Hin.
  repeat (destruct Hin as [[= <- <-]|Hin]; [done|]). done.
Qed.

Lemma stripped_nonempty_no_blanks v l : stripped_nonempty v = inr l → no_blanks l.
Proof.
  unfold stripped_nonempty, mbind, result_bind.
  destruct (iterate v); [done|]. destruct (map_result as_str _); [done|].
  intros [= <-]. apply Forall_forall. intros s [_ Hs]%list_elem_of_In%filter_In.
  unfold nonempty in Hs. intros ->. done.
Qed.

(** What [clean_and_validate_data] returns, field by field. *)
Lemma clean_and_validate_data_fields parsed d :
  clean_and_validate_data parsed = inr d →
  dom d = resume_fields
  ∧ (∃ name, d !! "name" = Some (VStr name) ∧ name ≠ "")
  ∧ (d !! "email" = Some VNone
     ∨ ∃ e, d !! "email" = Some (VStr e) ∧ re_match_email e = true)
  ∧ (∃ v, d !! "skills" = Some v
          ∧ (truthy v = false
             ∨ ∃ l, v = str_list l ∧ NoDup l ∧ no_blanks l))
  ∧ (∀ k, k ∈ ["certifications"; "projects"; "key_achievements"] →
          ∃ l, d !! k = Some (str_list l) ∧ no_blanks l).
Proof.
  unfold clean_and_validate_data. destruct parsed as [| | | | | |kvs]; try done.
  intros Hd. unfold mbind, result_bind in Hd. bind_inv' Hd.
  injection Hd as <-. split_and!.
  - unfold resume_fields. rewrite !dom_insert_L, dom_empty_L. set_solver.
  - eexists. split; [reflexivity|].
    destruct (nonempty _) eqn:Hn; [|done].
    unfold nonempty in Hn. intros Heq. by rewrite Heq in Hn.
  - destruct (truthy (get _ "email" _)); [|injection E0 as <-; by left].
    destruct (as_str (get _ "email" _)); [done|]. injection E0 as <-.
    destruct (re_match_email _) eqn:Hm; [right|by left].
    eexists. split; [reflexivity|done].
  - exists v0. split; [reflexivity|].
    destruct (truthy (get _ "skills" _)) eqn:Ht; [|injection E2 as <-; by left].
    destruct (stripped_nonempty _) as [|ss] eqn:Hss; [done|]. injection E2 as <-.
    right. eexists. split; [reflexivity|]. split; [apply dedup_NoDup|].
    apply Forall_forall. intros x Hx%dedup_subset.
    apply list_elem_of_fmap in Hx as (y & -> & Hy%dedup_subset).
    apply normalize_skill_nonblank.
    apply stripped_nonempty_no_blanks in Hss.
    by eapply (proj1 (Forall_forall _ _) Hss).
  - intros k Hk. apply stripped_nonempty_no_blanks in E7, E8, E9.
    repeat (apply elem_of_cons in Hk as [->|Hk]; [eexists; split; [reflexivity|done]|]).
    by apply elem_of_nil in Hk.
Qed.

(** X1. Whatever the model answers, [parse_resume] returns a record with
    exactly the twelve profile fields, and its name is a string that is not
    empty. *)
Theorem parse_resume_has_all_fields (text : string) (w : world) :
  ∃ d name,
    parse_resume text w = (advance w, inr d)
    ∧ dom d = resume_fields
    ∧ d !! "name" = Some (VStr name) ∧ name ≠ "".
Proof.
  rewrite parse_resume_run.
  destruct (parse_resume_attempt _ _) as [e|d] eqn:E.
  - exists (resume_fallback e), "Unknown". split_and!; [done| |done|done].
    unfold resume_fallback, resume_fields. rewrite !dom_insert_L, dom_empty_L. set_solver.
  - unfold parse_resume_attempt, mbind, result_bind in E.
    destruct (chat_parse_resume _ _); [done|]. destruct (json_loads _); [done|].
    apply clean_and_validate_data_fields in E as (Hdom & (name & Hname & Hne) & _).
    by exists d, name.
Qed.

(** X2. The email of the record [parse_resume] returns is [None] or a string
    that the pattern of the cleaner accepts; it is never a string the
    pattern rejects. *)
Theorem parse_resume_email_is_checked (text : string) (w : world) :
  ∃ d,
    parse_resume text w = (advance w, inr d)
    ∧ (d !! "email" = Some VNone
       ∨ ∃ e, d !! "email" = Some (VStr e) ∧ re_match_email e = true).
Proof.
  rewrite parse_resume_run.
  destruct (parse_resume_attempt _ _) as [e|d] eqn:E.
  - exists (resume_fallback e). split; [done|]. by left.
  - unfold parse_resume_attempt, mbind, result_bind in E.
    destruct (chat_parse_resume _ _); [done|]. destruct (json_loads _); [done|].
    apply clean_and_validate_data_fields in E as (_ & _ & Hemail & _).
    by exists d.
Qed.

(** X3. In the record [parse_resume] returns, the certifications, projects
    and achievements are lists of non-empty strings, and the skills are a
    list of non-empty strings without repetition, unless the model sent a
    falsy value for them, which is passed on as it is. *)
Theorem parse_resume_lists_are_clean (text : string) (w : world) :
  ∃ d skills,
    parse_resume text w = (advance w, inr d)
    ∧ d !! "skills" = Some skills
    ∧ (truthy skills = false ∨ ∃ l, skills = str_list l ∧ NoDup l ∧ no_blanks l)
    ∧ ∀ k, k ∈ ["certifications"; "projects"; "key_achievements"] →
           ∃ l, d !! k = Some (str_list l) ∧ no_blanks l.
Proof.
  rewrite parse_resume_run.
  destruct (parse_resume_attempt _ _) as [e|d] eqn:E.
  - exists (resume_fallback e), (VList []). split_and!; [done|done|by left|].
    intros k Hk.
    repeat (apply elem_of_cons in Hk as [->|Hk];
            [exists []; split; [reflexivity|constructor]|]).
    by apply elem_of_nil in Hk.
  - unfold parse_resume_attempt, mbind, result_bind in E.
    destruct (chat_parse_resume _ _); [done|]. destruct (json_loads _); [done|].
    apply clean_and_validate_data_fields in E as (_ & _ & _ & (sk & Hv & Hskills) & Hlists).
    by exists d, sk.
Qed.

(** X4. Whatever the model answers, [parse_job_description] returns a record
    with exactly the ten job fields. *)
Theorem parse_job_description_has_all_fields (text : string) (w : world) :
  ∃ d, parse_job_description text w = (advance w, inr d) ∧ dom d = jd_fields.
Proof.
  rewrite parse_job_description_run.
  destruct (parse_jd_attempt _ _) as [e|d] eqn:E.
  - exists (jd_fallback e). split; [done|].
    unfold jd_fallback, jd_fields. rewrite !dom_insert_L, dom_empty_L. set_solver.
  - exists d. split; [done|].
    unfold parse_jd_attempt, mbind, result_bind in E.
    destruct (chat_parse_jd _ _); [done|]. destruct (json_loads _) as [|[]]; try done.
    injection E as <-.
    unfold jd_fields. rewrite !dom_insert_L, dom_empty_L. set_solver.
Qed.

End MoreParsers.


(** ** llmservices/topscore_gemini.py *)

Section MoreScoring.
Context `{outside : Externals}.

Lemma map_result_Forall {A B} (f : A → exn + B) (P : B → Prop) l l' :
  (∀ x y, f x = inr y → P y) → map_result f l = inr l' → Forall P l'.
Proof.
  intros Hf. revert l'. induction l as [|x l IH]; intros l'; simpl.
  - intros [= <-]. constructor.
  - unfold mbind, result_bind. destruct (f x) as [|y] eqn:Hx; [done|].
    destruct (map_result f l) as [|ys]; [done|]. intros [= <-].
    constructor; [by eapply Hf|by apply IH].
Qed.

Lemma resume_of_has_id c r : resume_of c = inr r → is_Some (r !! "candidate_id").
Proof.
  unfold resume_of, mbind, result_bind. destruct (item c "candidate_id") as [|cid]; [done|].
  intros [= <-]. by eexists.
Qed.

(** With a first candidate that has an id, or none at all, the error record
    can be built, and it carries the id and the name of that candidate. *)
Lemma error_record_built msg cands :
  Forall (λ r : document, is_Some (r !! "candidate_id")) cands →
  ∃ cid name,
    error_record msg cands
    = inr (VList [VDict [("error", VStr msg); ("candidate_id", cid); ("name", name)]])
    ∧ match cands with
      | first :: _ =>
          first !! "candidate_id" = Some cid ∧ name = get first "name" (VStr "Unknown")
      | [] => cid = VStr "unknown" ∧ name = VStr "Unknown"
      end.
Proof.
  intros Hall. unfold error_record, mbind, result_bind.
  destruct Hall as [|c cands [cid Hc] _]; [by eexists _, _|].
  unfold item. rewrite Hc. by eexists _, _.
Qed.

Lemma analyze_attempt_answer t job_text cands v :
  Forall (λ r : document, is_Some (r !! "candidate_id")) cands →
  analyze_attempt t job_text cands = inr v →
  truthy v = true ∧ ∃ n, py_len v = inr (S n).
Proof.
  intros Hall. unfold analyze_attempt, mbind, result_bind.
  destruct (chat_score _ _ _); [done|]. destruct (json_loads _); [done|].
  destruct (locate_scores _) as [|[parsed|]]; [done| |].
  - destruct (truthy parsed) eqn:Ht; simpl.
    + destruct (py_len parsed) as [|[|n]] eqn:Hl; [done| |].
      * destruct (error_record_built "AI returned empty results" cands Hall)
          as (cid & name & -> & _).
        intros [= <-]. split; [done|by exists 0].
      * intros [= <-]. split; [done|by exists n].
    + destruct (error_record_built "AI returned empty results" cands Hall)
        as (cid & name & -> & _).
      intros [= <-]. split; [done|by exists 0].
  - match goal with |- error_record ?m _ = _ → _ =>
      destruct (error_record_built m cands Hall) as (cid & name & -> & _) end.
    intros [= <-]. split; [done|by exists 0].
Qed.

(** Both [except] clauses return an error record: a decoding error with
    its own prefix, any other exception with its text. *)
Lemma analysis_handler_record e cands :
  ∃ msg,
    match e with
    | PyError "JSONDecodeError" m =>
        error_record ("Failed to parse AI response as JSON: " ++ m) cands
    | _ => error_record (str_exn e) cands
    end = error_record msg cands
    ∧ (∀ m, e = PyError "JSONDecodeError" m →
            msg = "Failed to parse AI response as JSON: " ++ m)
    ∧ ((∀ m, e ≠ PyError "JSONDecodeError" m) → msg = str_exn e).
Proof.
  destruct e as [c d|k m].
  { eexists. split_and!; [reflexivity|by intros m [=]|done]. }
  destruct (decide (k = "JSONDecodeError")) as [->|Hk].
  - eexists. split_and!; [reflexivity|by intros m' [= ->]|].
    intros Hno. by destruct (Hno m).
  - exists (str_exn (PyError k m)). split_and!.
    + repeat case_match; done.
    + intros m' [= -> _]. done.
    + done.
Qed.

(** X5. For the resumes its callers build, the scorer wrapper never raises
    and never answers with something empty: it returns a value that is
    truthy and has a positive length. When anything inside its [try] raises,
    that value is a list of one record with three keys: ["error"], which is
    the text of the exception (after [Failed to parse AI response as JSON: ]
    for a decoding error), and the id and the name of the first candidate
    ([unknown] and [Unknown] when there is none, [Unknown] for a candidate
    without a name). *)
Theorem analysis_always_answers (docs resumes : list document)
    (job_text : string) (w : world) :
  map_result resume_of docs = inr resumes →
  ∃ v n,
    analyze_multiple_resumes_structured job_text resumes w = (advance w, inr v)
    ∧ truthy v = true
    ∧ py_len v = inr (S n)
    ∧ ∀ e, analyze_attempt (tick w) job_text resumes = inl e →
           ∃ msg cid name,
             v = VList [VDict [("error", VStr msg); ("candidate_id", cid); ("name", name)]]
             ∧ match resumes with
               | first :: _ =>
                   first !! "candidate_id" = Some cid
                   ∧ name = get first "name" (VStr "Unknown")
               | [] => cid = VStr "unknown" ∧ name = VStr "Unknown"
               end
             ∧ (∀ m, e = PyError "JSONDecodeError" m →
                     msg = "Failed to parse AI response as JSON: " ++ m)
             ∧ ((∀ m, e ≠ PyError "JSONDecodeError" m) → msg = str_exn e).
Proof.
  intros Hres.
  assert (Forall (λ r : document, is_Some (r !! "candidate_id")) resumes) as Hall.
  { eapply map_result_Forall; [|exact Hres]. apply resume_of_has_id. }
  unfold analyze_multiple_resumes_structured, bind, fresh, lift.
  destruct (analyze_attempt _ _ _) as [e|v] eqn:E.
  - destruct (analysis_handler_record e resumes) as (msg & -> & Hjson & Hother).
    destruct (error_record_built msg resumes Hall) as (cid & name & -> & Hfirst).
    eexists _, 0. split_and!; [done..|]. intros e' [= <-]. by eexists _, _, _.
  - destruct (analyze_attempt_answer _ _ _ _ Hall E) as [Ht [n Hn]].
    exists v, n. split_and!; [done..|]. done.
Qed.

End MoreScoring.

(** The model never answers with JSON: the scorer returns the error record
    for the one resume it was given, that of Ann. *)
Lemma analysis_always_answers_witness :
  ∃ v n,
    analyze_multiple_resumes_structured (outside := scripted no_answers)
      "job text" [resume1] world1 = (advance world1, inr v)
    ∧ truthy v = true
    ∧ py_len v = inr (S n)
    ∧ ∀ e, analyze_attempt (outside := scripted no_answers) (tick world1) "job text" [resume1]
           = inl e →
           ∃ msg cid name,
             v = VList [VDict [("error", VStr msg); ("candidate_id", cid); ("name", name)]]
             ∧ (resume1 !! "candidate_id" = Some cid
                ∧ name = get resume1 "name" (VStr "Unknown"))
             ∧ (∀ m, e = PyError "JSONDecodeError" m →
                     msg = "Failed to parse AI response as JSON: " ++ m)
             ∧ ((∀ m, e ≠ PyError "JSONDecodeError" m) → msg = str_exn e).
Proof.
  apply (analysis_always_answers (outside := scripted no_answers) [candidate1] [resume1]).
  reflexivity.
Defined.


(** ** The composite score: routes/matching.py, routes/job_descriptions.py *)

Lemma Q2Qc_le (x y : Q) : (x <= y)%Q → (Q2Qc x ≤ Q2Qc y)%Qc.
Proof. intros H. unfold Qcle. simpl. by rewrite !Qred_correct. Qed.

Lemma weighted_in_range score k (wt : Q) :
  (0 <= wt)%Q → in_range score k →
  ∃ x, weighted score k (Q2Qc wt) = inr x
       ∧ (Q2Qc 0 ≤ x)%Qc ∧ (x ≤ Q2Qc 100 * Q2Qc wt)%Qc.
Proof.
  intros Hw (q & Hq & H0 & H100). unfold weighted, mbind, result_bind. rewrite Hq. simpl.
  eexists. split; [reflexivity|].
  assert (Q2Qc 0 ≤ Q2Qc wt)%Qc as Hw' by by apply Q2Qc_le.
  split.
  - rewrite <-(Qcmult_0_l (Q2Qc wt)). by apply Qcmult_le_compat_r.
  - by apply Qcmult_le_compat_r.
Qed.

Lemma weighted_total_bounds (score : document) :
  in_range score "skills_score" → in_range score "experience_score" →
  in_range score "education_score" → in_range score "certifications_score" →
  ∃ total,
    weighted_total score = inr total ∧ (Q2Qc 0 ≤ total)%Qc ∧ (total ≤ Q2Qc 100)%Qc.
Proof.
  intros Hs He Hd Hc. unfold weighted_total, mbind, result_bind.
  destruct (weighted_in_range score "skills_score" (50 # 100)) as (s & -> & Hs0 & Hs1);
    [done|done|].
  destruct (weighted_in_range score "experience_score" (30 # 100)) as (e & -> & He0 & He1);
    [done|done|].
  destruct (weighted_in_range score "education_score" (15 # 100)) as (d & -> & Hd0 & Hd1);
    [done|done|].
  destruct (weighted_in_range score "certifications_score" (5 # 100))
    as (c & -> & Hc0 & Hc1); [done|done|].
  eexists. split; [reflexivity|]. split.
  - replace (Q2Qc 0) with (Q2Qc 0 + Q2Qc 0 + Q2Qc 0 + Q2Qc 0)%Qc
      by (apply Qc_is_canon; reflexivity).
    repeat apply Qcplus_le_compat; done.
  - replace (Q2Qc 100)
      with (Q2Qc 100 * Q2Qc (50 # 100) + Q2Qc 100 * Q2Qc (30 # 100)
            + Q2Qc 100 * Q2Qc (15 # 100) + Q2Qc 100 * Q2Qc (5 # 100))%Qc
      by (apply Qc_is_canon; reflexivity).
    repeat apply Qcplus_le_compat; done.
Qed.

(** X6. When the four category scores of a record are numbers between 0 and
    100, the composite is computed and lies between 0 and 100: the weights
    are not negative and add up to 1. *)
Theorem weighted_total_in_range (score : document) :
  in_range score "skills_score" → in_range score "experience_score" →
  in_range score "education_score" → in_range score "certifications_score" →
  ∃ total,
    weighted_total score = inr total ∧ (Q2Qc 0 ≤ total)%Qc ∧ (total ≤ Q2Qc 100)%Qc.
Proof. apply weighted_total_bounds. Qed.

(** The category scores 90, 85, 80 and 70 of the worked example. *)
Lemma weighted_total_in_range_witness :
  ∃ total,
    weighted_total (to_document record_with_total) = inr total
    ∧ (Q2Qc 0 ≤ total)%Qc ∧ (total ≤ Q2Qc 100)%Qc.
Proof.
  apply weighted_total_in_range; eexists; (split; [reflexivity|]); split; by vm_compute.
Defined.


(** ** routes/matching.py *)

Section MoreMatching.
Context `{outside : Externals}.

#[local] Instance only_scores_preorder : PreOrder only_scores.
Proof.
  split.
  - by intros w.
  - intros w1 w2 w3 (? & ? & ?) (? & ? & ?). split_and!; congruence.
Qed.

Lemma prepare_score_only_scores jd uid score :
  keeps only_scores (prepare_score jd uid score).
Proof.
  intros w. unfold prepare_score. destruct score; try done.
  destruct (has_key _ _); [done|].
  unfold bind, lift, fresh, ret.
  destruct (weighted_total _); [done|]. destruct (item _ _); done.
Qed.

Lemma store_match_score_only_scores jd uid score :
  keeps only_scores (store_match_score jd uid score).
Proof.
  unfold store_match_score. apply keeps_bind; [apply _|apply prepare_score_only_scores|].
  intros [[cid d]|]; [|apply keeps_ret; apply _]. by apply keeps_write.
Qed.

Lemma analyze_only_scores job_text cands :
  keeps only_scores (analyze_multiple_resumes_structured job_text cands).
Proof. by intros w. Qed.

(** X7. The /match handler writes to the scores only: whether it returns or
    raises, the candidates, the jobs and the stored files are as they were. *)
Theorem match_writes_scores_only (jd_id : string) (candidate_ids : list string)
    (uid : string) (w : world) :
  candidates (match_candidates jd_id candidate_ids uid w).1 = candidates w
  ∧ job_descriptions (match_candidates jd_id candidate_ids uid w).1 = job_descriptions w
  ∧ gridfs (match_candidates jd_id candidate_ids uid w).1 = gridfs w.
Proof.
  revert w. change (keeps only_scores (match_candidates jd_id candidate_ids uid)).
  unfold match_candidates.
  repeat first
    [ apply analyze_only_scores | apply store_match_score_only_scores | keeps_step ].
Qed.

(** What can be raised while a score is stored is raised by the
    interpreter, not by the handler. *)
Lemma weighted_total_no_http score c d : weighted_total score ≠ inl (HTTPException c d).
Proof.
  unfold weighted_total, weighted.
  destruct (as_number (get score "skills_score" _)) as [e1|q1] eqn:E1; simpl.
  { unfold as_number in E1. destruct (get score "skills_score" _); congruence. }
  destruct (as_number (get score "experience_score" _)) as [e2|q2] eqn:E2; simpl.
  { unfold as_number in E2. destruct (get score "experience_score" _); congruence. }
  destruct (as_number (get score "education_score" _)) as [e3|q3] eqn:E3; simpl.
  { unfold as_number in E3. destruct (get score "education_score" _); congruence. }
  destruct (as_number (get score "certifications_score" _)) as [e4|q4] eqn:E4; simpl.
  { unfold as_number in E4. destruct (get score "certifications_score" _); congruence. }
  done.
Qed.

Lemma store_match_score_no_http jd uid score : no_http (store_match_score jd uid score).
Proof.
  intros w c d. unfold store_match_score, prepare_score.
  destruct score; try done.
  destruct (has_key _ _); [done|].
  unfold bind, lift, fresh, ret, write.
  destruct (weighted_total _) as [e|t] eqn:E.
  - simpl. intros [= ->]. by eapply weighted_total_no_http.
  - unfold item. destruct (_ !! "candidate_id"); done.
Qed.

Lemma for_each_no_http {A} (l : list A) (body : A → M unit) :
  (∀ x, no_http (body x)) → no_http (for_each l body).
Proof.
  intros Hb. induction l as [|x l IH]; intros w c d; simpl; [done|].
  unfold bind. specialize (Hb x w c d).
  destruct (body x w) as [w' [e|[]]]; simpl in *; [done|apply IH].
Qed.

Lemma for_each_returns_or_not {A} (l : list A) (body : A → M unit) w :
  (for_each l body w).2 = inr tt ∨ ∃ e, (for_each l body w).2 = inl e.
Proof. destruct (for_each l body w).2 as [e|[]]; eauto. Qed.

(** X8. Every error the /match handler raises itself (the two 404s and the
    two 500s about the analysis) is raised before anything is written: when
    the handler ends with an [HTTPException], the scores are as they were. *)
Theorem match_http_errors_precede_writes (jd_id : string) (candidate_ids : list string)
    (uid : string) (w w' : world) (status : Z) (detail : string) :
  match_candidates jd_id candidate_ids uid w = (w', inl (HTTPException status detail)) →
  top_scores w' = top_scores w.
Proof.
  unfold match_candidates.
  unfold bind at 1. unfold read at 1.
  destruct (find_one _ _); [|by intros [= <-]].
  unfold bind at 1. unfold read at 1.
  destruct (find _ _) as [|c cands]; [by intros [= <-]|].
  unfold bind at 1. unfold lift at 1.
  destruct (map_result _ _); [by intros [= <-]|].
  unfold bind at 1. unfold lift at 1.
  destruct (render_jd_text _); [by intros [= <-]|].
  unfold bind at 1.
  destruct (analyze_multiple_resumes_structured _ _ w) as [w1 [e|scores]] eqn:Ha.
  { intros [= <- _]. by injection Ha as <- _. }
  assert (top_scores w1 = top_scores w) as Hw1 by by injection Ha as <- _.
  destruct scores as [| | | | |[|first rest]|]; try by intros [= <-].
  destruct (error_of first); [by intros [= <-]|].
  unfold bind.
  pose proof (for_each_no_http (first :: rest) (store_match_score (VStr jd_id) uid)
                (store_match_score_no_http _ _) w1 status detail) as Hno.
  destruct (for_each _ _ w1) as [w2 [e|[]]]; simpl in Hno; [|done].
  intros [= <- ->]. done.
Qed.

End MoreMatching.

(** The model never answers with JSON: /match ends with the 500 about the
    analysis, and no score was written. *)
Lemma match_http_errors_precede_writes_witness :
  top_scores (advance world1) = top_scores world1.
Proof.
  apply (match_http_errors_precede_writes (outside := scripted no_answers)
           "jd1" [] "u1" world1 (advance world1) 500
           "AI analysis error: Failed to parse AI response as JSON: Expecting value").
  reflexivity.
Defined.


Section MoreMatching2.
Context `{outside : Externals}.

Lemma elem_of_sort_desc k docs (d : document) : d ∈ sort_desc k docs ↔ d ∈ docs.
Proof. unfold sort_desc. by rewrite merge_sort_Permutation. Qed.

Lemma elem_of_limit n docs (d : document) : d ∈ limit n docs → d ∈ docs.
Proof.
  destruct (limit_prefix n docs) as [rest Hrest]. intros Hd.
  rewrite Hrest. apply elem_of_app. by left.
Qed.

Lemma matches_top_query jd_id uid min_score d :
  matches (jd_filter jd_id uid ++ [("total_score", Gte min_score)])%list d = true
  ↔ job_of jd_id uid d ∧ composite_at_least min_score d.
Proof.
  change (matches _ d)
    with (cond_holds (Eq (VStr jd_id)) (d !! "jd_id")
          && (cond_holds (Eq (VStr uid)) (d !! "uid")
              && (cond_holds (Gte min_score) (d !! "total_score") && true))).
  rewrite !andb_true_iff, !cond_holds_eq_str, cond_holds_gte.
  unfold job_of, composite_at_least. tauto.
Qed.

(** What a run of the query that returns has returned. *)
Lemma top_matches_run jd_id min_score limit_ uid w w' docs :
  get_top_matches jd_id min_score limit_ uid w = (w', inr docs) →
  w' = w
  ∧ docs = limit limit_ (sort_desc "total_score"
             (find (jd_filter jd_id uid ++ [("total_score", Gte min_score)])%list
                (top_scores w))).
Proof.
  unfold get_top_matches, bind, read, raise, lift.
  destruct (find_one _ _); [|done].
  intros [= <- Hr]. by apply map_result_check in Hr as ->.
Qed.

Lemma top_matches_own jd_id min_score limit_ uid w w' docs d :
  get_top_matches jd_id min_score limit_ uid w = (w', inr docs) →
  d ∈ docs → d ∈ top_scores w ∧ job_of jd_id uid d.
Proof.
  intros [-> ->]%top_matches_run Hd.
  apply elem_of_limit, elem_of_sort_desc, elem_of_find in Hd as [Hd Hm].
  apply matches_top_query in Hm as [Hj _]. done.
Qed.

Lemma top_matches_complete jd_id min_score uid w w' docs d :
  get_top_matches jd_id min_score 0 uid w = (w', inr docs) →
  d ∈ top_scores w → job_of jd_id uid d → composite_at_least min_score d → d ∈ docs.
Proof.
  intros [-> ->]%top_matches_run Hd Hj Hc.
  change (limit 0 ?l) with l.
  apply elem_of_sort_desc, elem_of_find. split; [done|]. by apply matches_top_query.
Qed.

(** X9. The top-matches query reads and does not write, and what it returns
    is stored under the requested job with the caller's uid: no score of
    another user or of another job is returned. With a limit of 0 it
    returns every such score that reaches the minimum. *)
Theorem top_matches_are_the_callers_own (jd_id : string) (min_score : Qc) (limit_ : Z)
    (uid : string) (w w' : world) (docs : list document) :
  get_top_matches jd_id min_score limit_ uid w = (w', inr docs) →
  w' = w
  ∧ (∀ d, d ∈ docs → d ∈ top_scores w ∧ job_of jd_id uid d)
  ∧ (limit_ = 0%Z →
     ∀ d, d ∈ top_scores w → job_of jd_id uid d → composite_at_least min_score d →
          d ∈ docs).
Proof.
  intros Hrun. split_and!.
  - by apply top_matches_run in Hrun as [-> _].
  - intros d. by eapply top_matches_own.
  - intros -> d. by eapply top_matches_complete.
Qed.

(** An upsert leaves a document with every field of the update, and adds at
    most one document. *)
Lemma update_first_holds flt upd coll coll' :
  update_first flt upd coll = Some coll' →
  length coll' = length coll ∧ ∃ old, upd ∪ old ∈ coll'.
Proof.
  revert coll'. induction coll as [|d coll IH]; intros coll'; simpl; [done|].
  destruct (matches flt d).
  - intros [= <-]. split; [done|]. exists d. by left.
  - destruct (update_first flt upd coll) as [c|]; simpl; [|done].
    intros [= <-]. destruct (IH c eq_refl) as [Hl [old Hold]].
    split; [simpl; by rewrite Hl|]. exists old. by right.
Qed.

Lemma upsert_holds_update flt upd coll :
  (length (update_one_upsert flt upd coll) ≤ S (length coll))%nat
  ∧ ∃ d, d ∈ update_one_upsert flt upd coll ∧ ∀ k v, upd !! k = Some v → d !! k = Some v.
Proof.
  unfold update_one_upsert. destruct (update_first flt upd coll) as [coll'|] eqn:E.
  - apply update_first_holds in E as [Hl [old Hold]]. split; [lia|].
    exists (upd ∪ old). split; [done|]. intros k v Hk. by apply lookup_union_Some_l.
  - split; [rewrite length_app; simpl; lia|].
    exists (upd ∪ eq_fields flt). split; [apply elem_of_app; right; by left|].
    intros k v Hk. by apply lookup_union_Some_l.
Qed.

Lemma score_data_fields sid jd cid now total score uid :
  score !! "total_score" = None → score !! "jd_id" = None →
  score !! "candidate_id" = Some cid →
  let d := score_data sid jd cid now total score uid in
  d !! "jd_id" = Some jd ∧ d !! "candidate_id" = Some cid
  ∧ d !! "uid" = Some (VStr uid) ∧ d !! "total_score" = Some (VNum total).
Proof.
  intros Ht Hj Hc. split_and!.
  - unfold score_data. rewrite lookup_insert_ne by done.
    rewrite lookup_union_r by done. by repeat (rewrite lookup_insert_ne by done).
  - unfold score_data. rewrite lookup_insert_ne by done.
    by apply lookup_union_Some_l.
  - apply score_data_uid.
  - by apply score_data_total_computed.
Qed.

(** One turn of the storing loop of /match on a record as the prompt asks
    for it. *)
Lemma store_match_score_stores jd_id uid kvs cid total w :
  has_key (to_document kvs) "error" = false →
  to_document kvs !! "total_score" = None →
  to_document kvs !! "jd_id" = None →
  to_document kvs !! "candidate_id" = Some (VStr cid) →
  weighted_total (to_document kvs) = inr total →
  ∃ w' d,
    store_match_score (VStr jd_id) uid (VDict kvs) w = (w', inr tt)
    ∧ candidates w' = candidates w ∧ job_descriptions w' = job_descriptions w
    ∧ (length (top_scores w') ≤ S (length (top_scores w)))%nat
    ∧ d ∈ top_scores w'
    ∧ d !! "jd_id" = Some (VStr jd_id) ∧ d !! "candidate_id" = Some (VStr cid)
    ∧ d !! "uid" = Some (VStr uid) ∧ d !! "total_score" = Some (VNum total).
Proof.
  intros He Ht Hj Hc Hw.
  unfold store_match_score, prepare_score, bind, lift, fresh, ret, write.
  rewrite He, Hw. unfold item. rewrite Hc. cbn -[score_data update_one_upsert].
  match goal with |- context [update_one_upsert ?flt ?upd ?coll] =>
    destruct (upsert_holds_update flt upd coll) as [Hl (d & Hd & Hfields)];
    pose proof (score_data_fields (uuid4 (tick w)) (VStr jd_id) (VStr cid)
                  (utcnow (tick (advance w))) total (to_document kvs) uid Ht Hj Hc)
      as (F1 & F2 & F3 & F4)
  end.
  eexists _, d. split; [reflexivity|]. split_and!; try done; by apply Hfields.
Qed.

(** X10. Storing and asking back: when /match stores a scorer record that
    names its candidate, has no error, total or job id of its own, and whose
    four category scores are numbers from 0 to 100, at most one document is
    added and the store then holds a score for the job and the candidate
    with the caller's uid and a composite from 0 to 100; every top-matches
    query of the caller for that job without a limit and with a minimum of
    at most the stored composite that returns lists that score. *)
Theorem stored_score_is_listed (jd_id uid cid : string) (kvs : list (string * value))
    (w : world) :
  has_key (to_document kvs) "error" = false →
  to_document kvs !! "total_score" = None →
  to_document kvs !! "jd_id" = None →
  to_document kvs !! "candidate_id" = Some (VStr cid) →
  in_range (to_document kvs) "skills_score" →
  in_range (to_document kvs) "experience_score" →
  in_range (to_document kvs) "education_score" →
  in_range (to_document kvs) "certifications_score" →
  ∃ w' d stored,
    store_match_score (VStr jd_id) uid (VDict kvs) w = (w', inr tt)
    ∧ (length (top_scores w') ≤ S (length (top_scores w)))%nat
    ∧ d ∈ top_scores w'
    ∧ job_of jd_id uid d
    ∧ d !! "candidate_id" = Some (VStr cid)
    ∧ d !! "total_score" = Some (VNum stored)
    ∧ (Q2Qc 0 ≤ stored)%Qc ∧ (stored ≤ Q2Qc 100)%Qc
    ∧ ∀ min_score w'' docs,
        (min_score ≤ stored)%Qc →
        get_top_matches jd_id min_score 0 uid w' = (w'', inr docs) →
        d ∈ docs.
Proof.
  intros He Ht Hj Hc Hs1 Hs2 Hs3 Hs4.
  destruct (weighted_total_bounds (to_document kvs) Hs1 Hs2 Hs3 Hs4)
    as (total & Hw & H0 & H100).
  destruct (store_match_score_stores jd_id uid kvs cid total w He Ht Hj Hc Hw)
    as (w' & d & Hrun & _ & _ & Hl & Hd & F1 & F2 & F3 & F4).
  exists w', d, total. split_and!; [done..|by split|done|done|done|done|].
  intros min_score w'' docs Hmin Hq.
  eapply top_matches_complete; [done..| |]; [by split|by exists total].
Qed.

(** X11. A failing scorer fails /match and writes nothing: when the job and
    the candidates are found, the resumes and the job text are built, and
    the scorer's attempt raises, the handler answers 500 with a detail
    that starts with [AI analysis error: ], and the store is as it was
    but for the counter of the outside calls. *)
Theorem scorer_failure_fails_the_match (jd_id : string) (candidate_ids : list string)
    (uid : string) (w : world) (jd c : document) (cands resumes : list document)
    (jd_text : string) (e : exn) :
  find_one (jd_filter jd_id uid) (job_descriptions w) = Some jd →
  find (("uid", Eq (VStr uid)) ::
        match candidate_ids with
        | [] => []
        | _ => [("candidate_id", In (VStr <$> candidate_ids))]
        end) (candidates w) = c :: cands →
  map_result resume_of (c :: cands) = inr resumes →
  render_jd_text jd = inr jd_text →
  analyze_attempt (tick w) jd_text resumes = inl e →
  ∃ msg,
    match_candidates jd_id candidate_ids uid w
    = (advance w, inl (HTTPException 500 ("AI analysis error: " ++ msg))).
Proof.
  intros Hjd Hc Hres Htext Hfail.
  assert (Forall (λ r : document, is_Some (r !! "candidate_id")) resumes) as Hall.
  { eapply map_result_Forall; [|exact Hres]. apply resume_of_has_id. }
  unfold match_candidates.
  unfold bind at 1. unfold read at 1. rewrite Hjd.
  unfold bind at 1. unfold read at 1. rewrite Hc.
  unfold bind at 1. unfold lift at 1. rewrite Hres.
  unfold bind at 1. unfold lift at 1. rewrite Htext.
  unfold bind at 1.
  unfold analyze_multiple_resumes_structured, bind, fresh, lift. rewrite Hfail.
  destruct (analysis_handler_record e resumes) as (msg & -> & _).
  destruct (error_record_built msg resumes Hall) as (cid & name & -> & _).
  exists msg. reflexivity.
Qed.

(** X12. The same failure does not fail a job upload: the fan-out that
    follows the insertion of the job returns normally and stores no
    score. *)
Theorem scorer_failure_is_swallowed_by_fan_out (uid jd_text : string) (jd_data : document)
    (w : world) (c : document) (cands resumes : list document) (e : exn) :
  is_Some (jd_data !! "jd_id") →
  find [("uid", Eq (VStr uid))] (candidates w) = c :: cands →
  map_result resume_of (c :: cands) = inr resumes →
  analyze_attempt (tick w) jd_text resumes = inl e →
  fan_out uid jd_text jd_data w = (advance w, inr tt).
Proof.
  intros [jd Hjd] Hc Hres Hfail.
  assert (Forall (λ r : document, is_Some (r !! "candidate_id")) resumes) as Hall.
  { eapply map_result_Forall; [|exact Hres]. apply resume_of_has_id. }
  unfold fan_out.
  unfold bind at 1. unfold read at 1. rewrite Hc.
  unfold bind at 1. unfold lift at 1. rewrite Hres.
  unfold bind at 1.
  unfold analyze_multiple_resumes_structured, bind, fresh, lift. rewrite Hfail.
  destruct (analysis_handler_record e resumes) as (msg & -> & _).
  destruct (error_record_built msg resumes Hall) as (cid & name & -> & _).
  unfold item. rewrite Hjd. reflexivity.
Qed.

End MoreMatching2.

(** Both scores of the job of [u1], asked for without a limit. *)
Lemma top_matches_are_the_callers_own_witness :
  scored_world = scored_world
  ∧ (∀ d, d ∈ [scored_c1; scored_c2] →
          d ∈ top_scores scored_world ∧ job_of "jd1" "u1" d)
  ∧ (0%Z = 0%Z →
     ∀ d, d ∈ top_scores scored_world → job_of "jd1" "u1" d →
          composite_at_least (Q2Qc 0) d →
          d ∈ [scored_c1; scored_c2]).
Proof.
  apply (top_matches_are_the_callers_own (outside := scripted no_answers)
           "jd1" (Q2Qc 0) 0 "u1" scored_world scored_world).
  reflexivity.
Defined.

(** The record of the worked example is stored for the job of [u1], and the
    query with a minimum of 50 returns it. *)
Lemma stored_score_is_listed_witness :
  (∃ w' d stored,
     store_match_score (outside := scripted no_answers)
       (VStr "jd1") "u1" (VDict record_full) world1 = (w', inr tt)
     ∧ (length (top_scores w') ≤ S (length (top_scores world1)))%nat
     ∧ d ∈ top_scores w'
     ∧ job_of "jd1" "u1" d
     ∧ d !! "candidate_id" = Some (VStr "c1")
     ∧ d !! "total_score" = Some (VNum stored)
     ∧ (Q2Qc 0 ≤ stored)%Qc ∧ (stored ≤ Q2Qc 100)%Qc
     ∧ ∀ min_score w'' docs,
         (min_score ≤ stored)%Qc →
         get_top_matches (outside := scripted no_answers) "jd1" min_score 0 "u1" w'
         = (w'', inr docs) →
         d ∈ docs)
  ∧ length
      (default []
         (match
            (get_top_matches (outside := scripted no_answers) "jd1" (Q2Qc 50) 0 "u1"
               (store_match_score (outside := scripted no_answers)
                  (VStr "jd1") "u1" (VDict record_full) world1).1).2
          with inr docs => Some docs | inl _ => None end)) = 1%nat.
Proof.
  split; [|reflexivity].
  apply (stored_score_is_listed (outside := scripted no_answers)
           "jd1" "u1" "c1" record_full world1);
    try reflexivity;
    (eexists; (split; [reflexivity|]); split; by vm_compute).
Defined.

(** The model never answers with JSON while [u1] matches the stored
    candidate against the stored job. *)
Lemma scorer_failure_fails_the_match_witness :
  ∃ msg,
    match_candidates (outside := scripted no_answers) "jd1" [] "u1" world1
    = (advance world1, inl (HTTPException 500 ("AI analysis error: " ++ msg))).
Proof.
  apply (scorer_failure_fails_the_match (outside := scripted no_answers)
           "jd1" [] "u1" world1 job1 candidate1 [] [resume1] "job text" parse_error);
    reflexivity.
Defined.

Lemma scorer_failure_is_swallowed_by_fan_out_witness :
  fan_out (outside := scripted no_answers) "u1" "job text" job1 world1
  = (advance world1, inr tt).
Proof.
  apply (scorer_failure_is_swallowed_by_fan_out (outside := scripted no_answers)
           "u1" "job text" job1 world1 candidate1 [] [resume1] parse_error).
  - by eexists.
  - reflexivity.
  - reflexivity.
  - reflexivity.
Defined.


(** ** Deleting: routes/candidates.py, routes/job_descriptions.py *)

Section Deleting.
Context `{outside : Externals}.

Lemma matches_id_filter key id d :
  matches (id_filter key id) d = true ↔ names_id key id d.
Proof.
  change (matches _ d) with (cond_holds (Eq (VStr id)) (d !! key) && true).
  by rewrite andb_true_r, cond_holds_eq_str.
Qed.

Lemma matches_owned_filter key id uid d :
  matches (owned_filter key id uid) d = true ↔ names_id key id d ∧ owned_by uid d.
Proof.
  change (matches _ d)
    with (cond_holds (Eq (VStr id)) (d !! key)
          && (cond_holds (Eq (VStr uid)) (d !! "uid") && true)).
  by rewrite andb_true_r, andb_true_iff, !cond_holds_eq_str.
Qed.

Lemma find_one_owned_None key id uid coll :
  find_one (owned_filter key id uid) coll = None
  ↔ ∀ d, d ∈ coll → ¬ (names_id key id d ∧ owned_by uid d).
Proof.
  rewrite find_one_None. split; intros H d Hd.
  - rewrite <-matches_owned_filter, (H d Hd). done.
  - apply not_true_is_false. rewrite matches_owned_filter. by apply H.
Qed.

Lemma find_one_owned_Some key id uid coll c :
  find_one (owned_filter key id uid) coll = Some c →
  c ∈ coll ∧ names_id key id c ∧ owned_by uid c.
Proof. intros [Hc Hm]%find_one_Some. by apply matches_owned_filter in Hm. Qed.

(** [delete_one] *)
Lemma delete_one_elem flt coll d : d ∈ delete_one flt coll → d ∈ coll.
Proof.
  induction coll as [|x coll IH]; simpl; [done|].
  destruct (matches flt x); [by right|].
  intros [->|Hd]%elem_of_cons; [by left|right; by apply IH].
Qed.

Lemma delete_one_keeps flt coll d :
  d ∈ coll → matches flt d = false → d ∈ delete_one flt coll.
Proof.
  intros Hd Hm. induction coll as [|x coll IH]; simpl; [done|].
  apply elem_of_cons in Hd as [->|Hd].
  - rewrite Hm. by left.
  - destruct (matches flt x); [done|]. right. by apply IH.
Qed.

Lemma delete_one_length flt coll d :
  d ∈ coll → matches flt d = true → S (length (delete_one flt coll)) = length coll.
Proof.
  intros Hd Hm. induction coll as [|x coll IH]; simpl; [by apply elem_of_nil in Hd|].
  destruct (matches flt x) eqn:Hx; [done|].
  apply elem_of_cons in Hd as [->|Hd]; [congruence|]. simpl. by rewrite IH.
Qed.

Lemma find_cons flt (d : document) coll :
  find flt (d :: coll) = if matches flt d then d :: find flt coll else find flt coll.
Proof. done. Qed.

Lemma at_most_one_tail key id d coll :
  at_most_one key id (d :: coll) → at_most_one key id coll.
Proof.
  unfold at_most_one. rewrite find_cons. destruct (matches _ d); simpl; lia.
Qed.

Lemma at_most_one_head key id d coll x :
  at_most_one key id (d :: coll) → names_id key id d → x ∈ coll → ¬ names_id key id x.
Proof.
  unfold at_most_one. rewrite find_cons. intros Hone Hd%matches_id_filter Hx Hn.
  change (matches [(key, Eq (VStr id))] d) with (matches (id_filter key id) d) in Hone.
  rewrite Hd in Hone. simpl in Hone.
  assert (x ∈ find [(key, Eq (VStr id))] coll) as Hin.
  { apply elem_of_find. split; [done|]. by apply matches_id_filter. }
  destruct (find _ coll); [by apply elem_of_nil in Hin|simpl in Hone; lia].
Qed.

(** With at most one document under the id, two that have it are one. *)
Lemma at_most_one_same key id coll c c' :
  at_most_one key id coll → c ∈ coll → c' ∈ coll →
  names_id key id c → names_id key id c' → c = c'.
Proof.
  induction coll as [|x coll IH]; [by intros _ ?%elem_of_nil|].
  intros Hone Hc Hc' Hn Hn'.
  apply elem_of_cons in Hc as [->|Hc]; apply elem_of_cons in Hc' as [->|Hc'].
  - done.
  - by destruct (at_most_one_head key id x coll c' Hone Hn Hc').
  - by destruct (at_most_one_head key id x coll c Hone Hn' Hc).
  - apply IH; [by eapply at_most_one_tail|done..].
Qed.

Lemma find_delete_one_length flt' flt coll :
  (length (find flt' (delete_one flt coll)) ≤ length (find flt' coll))%nat.
Proof.
  induction coll as [|x coll IH]; cbn [delete_one]; [done|].
  destruct (matches flt x).
  - rewrite find_cons. destruct (matches flt' x); simpl; lia.
  - rewrite !find_cons. destruct (matches flt' x); simpl; lia.
Qed.

Lemma at_most_one_delete_one key id flt coll :
  at_most_one key id coll → at_most_one key id (delete_one flt coll).
Proof.
  unfold at_most_one. intros Hone.
  etrans; [apply find_delete_one_length|done].
Qed.

Lemma delete_one_gone key id coll d :
  at_most_one key id coll → d ∈ delete_one (id_filter key id) coll → ¬ names_id key id d.
Proof.
  induction coll as [|x coll IH]; cbn [delete_one]; [by intros _ ?%elem_of_nil|].
  intros Hone. destruct (matches (id_filter key id) x) eqn:Hx.
  - apply matches_id_filter in Hx. intros Hd. by eapply at_most_one_head.
  - intros [->|Hd]%elem_of_cons.
    + rewrite <-matches_id_filter, Hx. done.
    + apply IH; [by eapply at_most_one_tail|done].
Qed.

(** [delete_many] *)
Lemma elem_of_delete_many key id coll d :
  d ∈ delete_many (id_filter key id) coll ↔ d ∈ coll ∧ ¬ names_id key id d.
Proof.
  unfold delete_many. rewrite !list_elem_of_In, filter_In, negb_true_iff.
  rewrite <-matches_id_filter, not_true_iff_false. done.
Qed.

(** The deletion of the stored file never fails the request, removes
    nothing but the file the record points to, and leaves no file under
    that id. *)
Lemma discard_file_run record w :
  ∃ g, discard_file record w = (set_gridfs g w, inr tt)
       ∧ g ⊆ gridfs w
       ∧ ∀ f, record !! "file_id" = Some (VStr f) → g !! f = None.
Proof.
  assert (set_gridfs (gridfs w) w = w) as Hw by by destruct w.
  unfold discard_file, try_except, bind, lift, read, raise, write, ret, item.
  destruct (record !! "file_id") as [v|] eqn:Hf; simpl.
  - destruct v; simpl;
      try (exists (gridfs w); rewrite Hw; split_and!; [done..|]; by intros f [=]).
    destruct (gridfs w !! s) eqn:Hs.
    + exists (delete s (gridfs w)). split_and!; [done|apply delete_subseteq|].
      intros f [= <-]. apply lookup_delete_eq.
    + exists (gridfs w). rewrite Hw. split_and!; [done..|]. by intros f [= <-].
  - exists (gridfs w). rewrite Hw. split_and!; [done..|]. by intros f [=].
Qed.

Lemma remove_candidate_run candidate_id c w :
  ∃ w', remove_candidate candidate_id c w = (w', inr tt)
        ∧ candidates w' = delete_one (id_filter "candidate_id" candidate_id) (candidates w)
        ∧ top_scores w' = delete_many (id_filter "candidate_id" candidate_id) (top_scores w)
        ∧ job_descriptions w' = job_descriptions w
        ∧ gridfs w' ⊆ gridfs w
        ∧ ∀ f, c !! "file_id" = Some (VStr f) → gridfs w' !! f = None.
Proof.
  unfold remove_candidate. unfold bind at 1.
  destruct (discard_file_run c w) as (g & -> & Hsub & Hgone).
  eexists. split; [reflexivity|]. done.
Qed.

(** X13. Deleting a candidate of one's own cascades: the handler returns its
    message, one candidate document is gone and the others are kept, every
    score that names the candidate is gone and the other scores are kept,
    the jobs are untouched and no file is added. *)
Theorem delete_candidate_cascades (candidate_id uid : string) (w : world) :
  (∃ c, c ∈ candidates w ∧ names_id "candidate_id" candidate_id c ∧ owned_by uid c) →
  ∃ w',
    delete_candidate candidate_id uid w = (w', inr "Candidate deleted successfully")
    ∧ S (length (candidates w')) = length (candidates w)
    ∧ (∀ d, d ∈ candidates w' → d ∈ candidates w)
    ∧ (∀ d, d ∈ candidates w → ¬ names_id "candidate_id" candidate_id d →
            d ∈ candidates w')
    ∧ (∀ d, d ∈ top_scores w'
            ↔ d ∈ top_scores w ∧ ¬ names_id "candidate_id" candidate_id d)
    ∧ job_descriptions w' = job_descriptions w
    ∧ gridfs w' ⊆ gridfs w.
Proof.
  intros (c0 & Hc0 & Hn0 & Ho0).
  unfold delete_candidate. unfold bind at 1. unfold read at 1.
  destruct (find_one _ _) as [c|] eqn:Hfind.
  2:{ rewrite find_one_owned_None in Hfind. by destruct (Hfind c0 Hc0). }
  apply find_one_owned_Some in Hfind as (Hc & Hn & Ho).
  unfold bind at 1.
  destruct (remove_candidate_run candidate_id c w) as (w' & -> & Hcs & Hts & Hjs & Hg & _).
  exists w'. split; [reflexivity|]. rewrite Hcs, Hts. split_and!; try done.
  - eapply delete_one_length; [done|]. by apply matches_id_filter.
  - intros d. apply delete_one_elem.
  - intros d Hd Hnot. apply delete_one_keeps; [done|].
    apply not_true_is_false. by rewrite matches_id_filter.
  - intros d. apply elem_of_delete_many.
Qed.

(** A candidate the caller does not own is as good as absent. *)
Lemma delete_candidate_absent candidate_id uid w :
  (∀ d, d ∈ candidates w → ¬ (names_id "candidate_id" candidate_id d ∧ owned_by uid d)) →
  delete_candidate candidate_id uid w = (w, inl (HTTPException 404 "Candidate not found")).
Proof.
  intros H%find_one_owned_None. unfold delete_candidate, bind, read. by rewrite H.
Qed.

Lemma get_candidate_absent candidate_id uid w :
  (∀ d, d ∈ candidates w → ¬ (names_id "candidate_id" candidate_id d ∧ owned_by uid d)) →
  get_candidate candidate_id uid w = (w, inl (HTTPException 404 "Candidate not found")).
Proof.
  intros H%find_one_owned_None. unfold get_candidate, bind, read.
  change (find_one _ (candidates w))
    with (find_one (owned_filter "candidate_id" candidate_id uid) (candidates w)).
  by rewrite H.
Qed.

(** X14. Nobody deletes the candidate of another user: when no candidate with
    the id belongs to the caller, the handler answers 404 and the store is as
    it was. *)
Theorem delete_candidate_needs_ownership (candidate_id uid : string) (w : world) :
  (∀ d, d ∈ candidates w → names_id "candidate_id" candidate_id d → ¬ owned_by uid d) →
  delete_candidate candidate_id uid w
  = (w, inl (HTTPException 404 "Candidate not found")).
Proof. intros H. apply delete_candidate_absent. intros d Hd [Hn Ho]. by eapply H. Qed.

(** X15. A deleted candidate is gone: when at most one candidate has the id,
    after a deletion that returned no candidate has it, the candidates of
    the other users are all kept, the file the candidate pointed to is no
    longer stored, and reading the candidate, downloading the resume and
    deleting again all answer 404. *)
Theorem deleted_candidate_is_gone (candidate_id uid : string) (w w' : world)
    (message : string) :
  at_most_one "candidate_id" candidate_id (candidates w) →
  delete_candidate candidate_id uid w = (w', inr message) →
  (∀ d, d ∈ candidates w' → ¬ names_id "candidate_id" candidate_id d)
  ∧ (∀ d, d ∈ candidates w → ¬ owned_by uid d → d ∈ candidates w')
  ∧ (∀ c f, c ∈ candidates w → names_id "candidate_id" candidate_id c →
            c !! "file_id" = Some (VStr f) → gridfs w' !! f = None)
  ∧ get_candidate candidate_id uid w'
    = (w', inl (HTTPException 404 "Candidate not found"))
  ∧ download_candidate_resume candidate_id uid w'
    = (w', inl (HTTPException 404 "Candidate not found"))
  ∧ delete_candidate candidate_id uid w'
    = (w', inl (HTTPException 404 "Candidate not found")).
Proof.
  intros Hone. unfold delete_candidate at 1. unfold bind at 1. unfold read at 1.
  destruct (find_one _ _) as [c|] eqn:Hfind; [|done].
  apply find_one_owned_Some in Hfind as (Hc & Hn & Ho).
  unfold bind at 1.
  destruct (remove_candidate_run candidate_id c w)
    as (w1 & -> & Hcs & Hts & Hjs & Hg & Hfile).
  intros [= <- _].
  assert (∀ d, d ∈ candidates w1 → ¬ names_id "candidate_id" candidate_id d) as Hgone.
  { intros d. rewrite Hcs. by apply delete_one_gone. }
  split_and!.
  - done.
  - intros d Hd Hnot. rewrite Hcs. apply delete_one_keeps; [done|].
    apply not_true_is_false. rewrite matches_id_filter. intros Hnd.
    by rewrite (at_most_one_same _ _ _ d c Hone) in Hnot.
  - intros c' f Hc' Hn' Hf. apply Hfile.
    by rewrite (at_most_one_same _ _ _ c c' Hone).
  - apply get_candidate_absent. intros d Hd [Hnd _]. by eapply Hgone.
  - unfold download_candidate_resume, bind, read.
    change (find_one _ (candidates w1))
      with (find_one (id_filter "candidate_id" candidate_id) (candidates w1)).
    destruct (find_one _ _) as [d|] eqn:E; [|done].
    apply find_one_Some in E as [Hd Hm]. apply matches_id_filter in Hm.
    by destruct (Hgone d Hd).
  - apply delete_candidate_absent. intros d Hd [Hnd _]. by eapply Hgone.
Qed.

(** The loop of the bulk deletion, from any count. *)
Lemma bulk_delete_loop_run uid ids count w :
  ∃ w' n,
    bulk_delete_loop uid ids count w = (w', inr (count + n))
    ∧ (n ≤ length ids)%nat
    ∧ length (candidates w') + n = length (candidates w)
    ∧ (∀ d, d ∈ candidates w' → d ∈ candidates w)
    ∧ (∀ d, d ∈ candidates w → (∀ id, id ∈ ids → ¬ names_id "candidate_id" id d) →
            d ∈ candidates w')
    ∧ (∀ d, d ∈ top_scores w' → d ∈ top_scores w)
    ∧ (∀ d, d ∈ top_scores w → (∀ id, id ∈ ids → ¬ names_id "candidate_id" id d) →
            d ∈ top_scores w')
    ∧ job_descriptions w' = job_descriptions w
    ∧ gridfs w' ⊆ gridfs w.
Proof.
  revert count w. induction ids as [|id ids IH]; intros count w; cbn [bulk_delete_loop].
  - exists w, 0. unfold ret. rewrite Nat.add_0_r. split_and!; done.
  - unfold bind at 1. unfold read at 1.
    destruct (find_one _ _) as [c|] eqn:Hfind.
    + apply find_one_owned_Some in Hfind as (Hc & Hn & Ho).
      unfold bind at 1.
      destruct (remove_candidate_run id c w) as (w1 & -> & Hcs & Hts & Hjs & Hg & _).
      destruct (IH (S count) w1) as (w' & n & -> & Hn' & Hlen & Hsub & Hkeep & Ht1 & Ht2 & Hj & Hgr).
      exists w', (S n). split_and!.
      * f_equal. f_equal. lia.
      * simpl. lia.
      * assert (S (length (candidates w1)) = length (candidates w)) as Hl.
        { rewrite Hcs. eapply delete_one_length; [done|]. by apply matches_id_filter. }
        lia.
      * intros d Hd%Hsub. rewrite Hcs in Hd. by eapply delete_one_elem.
      * intros d Hd Hnot. apply Hkeep.
        -- rewrite Hcs. apply delete_one_keeps; [done|].
           apply not_true_is_false. rewrite matches_id_filter. apply Hnot. by left.
        -- intros id' Hid'. apply Hnot. by right.
      * intros d Hd%Ht1. rewrite Hts in Hd. by apply elem_of_delete_many in Hd as [? _].
      * intros d Hd Hnot. apply Ht2.
        -- rewrite Hts. apply elem_of_delete_many. split; [done|]. apply Hnot. by left.
        -- intros id' Hid'. apply Hnot. by right.
      * congruence.
      * by etrans.
    + destruct (IH count w) as (w' & n & -> & Hn' & Hlen & Hsub & Hkeep & Ht1 & Ht2 & Hj & Hgr).
      exists w', n. split_and!; try done.
      * simpl. lia.
      * intros d Hd Hnot. apply Hkeep; [done|]. intros id' Hid'. apply Hnot. by right.
      * intros d Hd Hnot. apply Ht2; [done|]. intros id' Hid'. apply Hnot. by right.
Qed.

(** X16. The bulk deletion always returns, whatever ids it is given: the
    count it reports is at most the number of ids and is exactly the number
    of candidate documents that are gone; candidates and scores that none
    of the ids names are kept, nothing is added, and the jobs are
    untouched. *)
Theorem bulk_delete_counts_what_it_deletes (candidate_ids : list string) (uid : string)
    (w : world) :
  ∃ w' deleted_count,
    bulk_delete_candidates candidate_ids uid w = (w', inr deleted_count)
    ∧ (deleted_count ≤ length candidate_ids)%nat
    ∧ length (candidates w') + deleted_count = length (candidates w)
    ∧ (∀ d, d ∈ candidates w' → d ∈ candidates w)
    ∧ (∀ d, d ∈ candidates w →
            (∀ id, id ∈ candidate_ids → ¬ names_id "candidate_id" id d) →
            d ∈ candidates w')
    ∧ (∀ d, d ∈ top_scores w' → d ∈ top_scores w)
    ∧ (∀ d, d ∈ top_scores w →
            (∀ id, id ∈ candidate_ids → ¬ names_id "candidate_id" id d) →
            d ∈ top_scores w')
    ∧ job_descriptions w' = job_descriptions w.
Proof.
  destruct (bulk_delete_loop_run uid candidate_ids 0 w)
    as (w' & n & Hrun & Hn & Hlen & Hsub & Hkeep & Ht1 & Ht2 & Hj & _).
  exists w', n. split_and!; done.
Qed.

(** The bulk deletion keeps what is not the caller's. *)
Lemma bulk_delete_loop_spares uid ids count w d :
  (∀ id, at_most_one "candidate_id" id (candidates w)) →
  d ∈ candidates w → ¬ owned_by uid d →
  d ∈ candidates (bulk_delete_loop uid ids count w).1.
Proof.
  revert count w. induction ids as [|id ids IH]; intros count w Hone Hd Hnot;
    cbn [bulk_delete_loop]; [done|].
  unfold bind at 1. unfold read at 1.
  destruct (find_one _ _) as [c|] eqn:Hfind; [|by apply IH].
  apply find_one_owned_Some in Hfind as (Hc & Hn & Ho).
  unfold bind at 1.
  destruct (remove_candidate_run id c w) as (w1 & -> & Hcs & _).
  apply IH; [| |done].
  - intros id'. rewrite Hcs. apply at_most_one_delete_one, Hone.
  - rewrite Hcs. apply delete_one_keeps; [done|].
    apply not_true_is_false. rewrite matches_id_filter. intros Hnd.
    by rewrite (at_most_one_same _ _ _ d c (Hone id)) in Hnot.
Qed.

(** X17. The bulk deletion spares the other users: when no two candidates
    share an id, every candidate that does not belong to the caller is
    still stored afterwards, whatever ids were sent. *)
Theorem bulk_delete_spares_other_users (candidate_ids : list string) (uid : string)
    (w : world) (d : document) :
  (∀ id, at_most_one "candidate_id" id (candidates w)) →
  d ∈ candidates w → ¬ owned_by uid d →
  d ∈ candidates (bulk_delete_candidates candidate_ids uid w).1.
Proof. apply bulk_delete_loop_spares. Qed.

Lemma get_job_description_absent jd_id uid w :
  (∀ d, d ∈ job_descriptions w → ¬ names_id "jd_id" jd_id d) →
  get_job_description jd_id uid w
  = (w, inl (HTTPException 404 "Job description not found")).
Proof.
  intros H. unfold get_job_description, bind, read.
  destruct (find_one _ _) as [d|] eqn:E; [|done].
  apply (find_one_owned_Some "jd_id") in E as (Hd & Hn & _). by destruct (H d Hd).
Qed.

(** X18. Deleting a job cascades and the job is gone: when at most one job
    has the id, after a deletion that returned no score names the job, the
    scores of the other jobs are kept, the candidates are untouched, the jobs
    of the other users are kept, and reading the job, asking for its top
    matches, downloading it and deleting it again all answer 404. *)
Theorem deleted_job_is_gone (jd_id uid : string) (w w' : world) (message : string) :
  at_most_one "jd_id" jd_id (job_descriptions w) →
  delete_job_description jd_id uid w = (w', inr message) →
  (∀ d, d ∈ top_scores w' ↔ d ∈ top_scores w ∧ ¬ names_id "jd_id" jd_id d)
  ∧ candidates w' = candidates w
  ∧ (∀ d, d ∈ job_descriptions w → ¬ owned_by uid d → d ∈ job_descriptions w')
  ∧ get_job_description jd_id uid w'
    = (w', inl (HTTPException 404 "Job description not found"))
  ∧ (∀ min_score limit_,
       get_top_matches jd_id min_score limit_ uid w'
       = (w', inl (HTTPException 404 "Job description not found")))
  ∧ download_job_description jd_id uid w'
    = (w', inl (HTTPException 404 "Job description not found"))
  ∧ delete_job_description jd_id uid w'
    = (w', inl (HTTPException 404 "Job description not found")).
Proof.
  intros Hone. unfold delete_job_description at 1. unfold bind at 1. unfold read at 1.
  destruct (find_one _ _) as [jd|] eqn:Hfind; [|done].
  apply (find_one_owned_Some "jd_id") in Hfind as (Hc & Hn & Ho).
  unfold bind at 1. destruct (discard_file_run jd w) as (g & -> & Hsub & Hfile).
  unfold bind, write, ret. intros [= <- _]. cbn [top_scores candidates job_descriptions
    set_top_scores set_job_descriptions set_gridfs].
  set (w1 := set_top_scores _ _).
  assert (∀ d, d ∈ job_descriptions w1 → ¬ names_id "jd_id" jd_id d) as Hgone.
  { intros d. by apply delete_one_gone. }
  assert (find_one (jd_filter jd_id uid) (job_descriptions w1) = None) as Hnone.
  { apply (find_one_owned_None "jd_id"). intros d Hd [Hnd _]. by eapply Hgone. }
  split_and!.
  - intros d. apply elem_of_delete_many.
  - done.
  - intros d Hd Hnot. apply delete_one_keeps; [done|].
    apply not_true_is_false. rewrite matches_id_filter. intros Hnd.
    by rewrite (at_most_one_same _ _ _ d jd Hone) in Hnot.
  - by apply get_job_description_absent.
  - intros min_score limit_. unfold get_top_matches, bind, read. by rewrite Hnone.
  - unfold download_job_description, bind, read.
    change (find_one _ (job_descriptions w1))
      with (find_one (id_filter "jd_id" jd_id) (job_descriptions w1)).
    destruct (find_one (id_filter "jd_id" jd_id) _) as [d|] eqn:E; [|reflexivity].
    apply find_one_Some in E as [Hd Hm]. apply matches_id_filter in Hm.
    by destruct (Hgone d Hd).
  - unfold delete_job_description, bind, read. by rewrite Hnone.
Qed.

End Deleting.

Lemma at_most_one_singleton key id d : at_most_one key id [d].
Proof.
  unfold at_most_one. change (find ?flt [d]) with (if matches flt d then [d] else []).
  destruct (matches _ d); simpl; lia.
Qed.

(** [alice] deletes her candidate: the candidate and its score are gone, her
    job is still there. *)
Lemma delete_candidate_cascades_witness :
  ∃ w',
    delete_candidate "c1" "alice" alice_scored = (w', inr "Candidate deleted successfully")
    ∧ S (length (candidates w')) = length (candidates alice_scored)
    ∧ (∀ d, d ∈ candidates w' → d ∈ candidates alice_scored)
    ∧ (∀ d, d ∈ candidates alice_scored → ¬ names_id "candidate_id" "c1" d →
            d ∈ candidates w')
    ∧ (∀ d, d ∈ top_scores w'
            ↔ d ∈ top_scores alice_scored ∧ ¬ names_id "candidate_id" "c1" d)
    ∧ job_descriptions w' = job_descriptions alice_scored
    ∧ gridfs w' ⊆ gridfs alice_scored.
Proof.
  apply (delete_candidate_cascades "c1" "alice" alice_scored).
  exists alice_candidate. split_and!; [by left|reflexivity|reflexivity].
Defined.

(** [bob] asks for the deletion of the candidate of [alice]. *)
Lemma delete_candidate_needs_ownership_witness :
  delete_candidate "c1" "bob" alice_scored
  = (alice_scored, inl (HTTPException 404 "Candidate not found")).
Proof.
  apply (delete_candidate_needs_ownership "c1" "bob" alice_scored).
  intros d Hd _ Hbob. apply list_elem_of_singleton in Hd as ->. discriminate Hbob.
Defined.

(** After [alice] has deleted her candidate, the resume is no longer stored
    and the candidate cannot be read. *)
Lemma deleted_candidate_is_gone_witness :
  gridfs without_candidate !! "f1" = None
  ∧ get_candidate (outside := scripted no_answers) "c1" "alice" without_candidate
    = (without_candidate, inl (HTTPException 404 "Candidate not found")).
Proof.
  destruct (deleted_candidate_is_gone (outside := scripted no_answers)
              "c1" "alice" alice_scored without_candidate "Candidate deleted successfully")
    as (_ & _ & Hfile & Hget & _).
  - apply at_most_one_singleton.
  - reflexivity.
  - split; [|exact Hget].
    apply (Hfile alice_candidate "f1"); [by left|reflexivity|reflexivity].
Defined.

(** [bob] sends the id of the candidate of [alice] twice. *)
Lemma bulk_delete_spares_other_users_witness :
  alice_candidate ∈ candidates (bulk_delete_candidates ["c1"; "c1"] "bob" alice_scored).1.
Proof.
  apply (bulk_delete_spares_other_users ["c1"; "c1"] "bob" alice_scored alice_candidate).
  - intros id. apply at_most_one_singleton.
  - by left.
  - intros Hbob. discriminate Hbob.
Defined.

(** After [alice] has deleted her job, its score is gone and the job has no
    top matches to ask for. *)
Lemma deleted_job_is_gone_witness :
  top_scores without_job = []
  ∧ get_top_matches (outside := scripted no_answers) "jd1" (Q2Qc 0) 10 "alice" without_job
    = (without_job, inl (HTTPException 404 "Job description not found")).
Proof.
  destruct (deleted_job_is_gone (outside := scripted no_answers)
              "jd1" "alice" alice_scored without_job "Job description deleted successfully")
    as (_ & _ & _ & _ & Htop & _).
  - apply at_most_one_singleton.
  - reflexivity.
  - split; [reflexivity|apply Htop].
Defined.


(** ** Listing: routes/candidates.py, routes/job_descriptions.py *)

Section Listing.
Context `{outside : Externals}.

Lemma map_result_Forall2 {A B} (f : A → exn + B) l l' :
  map_result f l = inr l' → Forall2 (λ x y, f x = inr y) l l'.
Proof.
  revert l'. induction l as [|x l IH]; intros l'; simpl.
  - intros [= <-]. constructor.
  - unfold mbind, result_bind. destruct (f x) as [|y] eqn:Hx; [done|].
    destruct (map_result f l) as [|ys]; [done|]. intros [= <-].
    constructor; [done|by apply IH].
Qed.

Lemma map_result_app {A B} (f : A → exn + B) l1 l2 r1 r2 :
  map_result f l1 = inr r1 → map_result f l2 = inr r2 →
  map_result f (l1 ++ l2)%list = inr (r1 ++ r2)%list.
Proof.
  revert r1. induction l1 as [|x l1 IH]; intros r1; simpl.
  - by intros [= <-].
  - unfold mbind, result_bind. destruct (f x) as [|y]; [done|].
    destruct (map_result f l1) as [|ys] eqn:E; [done|]. intros [= <-] H2.
    by rewrite (IH ys eq_refl H2).
Qed.

Lemma matches_uid_filter uid d :
  matches [("uid", Eq (VStr uid))] d = true ↔ owned_by uid d.
Proof. apply (matches_id_filter "uid"). Qed.

Lemma clean_email_uid d : clean_email d !! "uid" = d !! "uid".
Proof.
  unfold clean_email. destruct (d !! "email") as [[| | |s| | |]|]; try done.
  destruct s; [|done]. by rewrite lookup_insert_ne.
Qed.

Lemma elem_of_page skip limit_ docs p d :
  page skip limit_ docs = inr p → d ∈ p → d ∈ docs.
Proof.
  unfold page, cursor_skip, mbind, result_bind. destruct (skip <? 0)%Z; [done|].
  intros [= <-] Hd%elem_of_limit. by eapply subseteq_drop.
Qed.

Lemma page_length skip limit_ docs p :
  page skip limit_ docs = inr p → (0 < limit_)%Z → (Z.of_nat (length p) ≤ limit_)%Z.
Proof.
  unfold page, cursor_skip, mbind, result_bind. destruct (skip <? 0)%Z; [done|].
  intros [= <-]. apply limit_length.
Qed.

Lemma page_tiles skip n m docs :
  (0 ≤ skip)%Z → (0 < n)%Z → (0 < m)%Z →
  ∃ p1 p2, page skip n docs = inr p1 ∧ page (skip + n) m docs = inr p2
           ∧ page skip (n + m) docs = inr (p1 ++ p2)%list.
Proof.
  intros Hs Hn Hm. unfold page, cursor_skip, mbind, result_bind, limit.
  destruct (Z.ltb_spec skip 0); [lia|]. destruct (Z.ltb_spec (skip + n) 0); [lia|].
  destruct (Z.eqb_spec n 0); [lia|]. destruct (Z.eqb_spec m 0); [lia|].
  destruct (Z.eqb_spec (n + m) 0); [lia|].
  eexists _, _. split_and!; [done..|]. f_equal.
  replace (Z.to_nat (Z.abs n)) with (Z.to_nat n) by lia.
  replace (Z.to_nat (Z.abs m)) with (Z.to_nat m) by lia.
  replace (Z.to_nat (Z.abs (n + m))) with (Z.to_nat n + Z.to_nat m)%nat by lia.
  replace (Z.to_nat (skip + n)) with (Z.to_nat skip + Z.to_nat n)%nat by lia.
  rewrite <-drop_drop. symmetry. apply take_take_drop.
Qed.

Lemma get_candidates_page skip limit_ uid w :
  get_candidates skip limit_ uid w
  = (w, p ← page skip limit_ (find [("uid", Eq (VStr uid))] (candidates w));
        map_result as_Candidate p).
Proof.
  unfold get_candidates, page, bind, read, lift, mbind, result_bind.
  by destruct (cursor_skip _ _).
Qed.

Lemma get_job_descriptions_page skip limit_ uid w :
  get_job_descriptions skip limit_ uid w
  = (w, p ← page skip limit_ (find [("uid", Eq (VStr uid))] (job_descriptions w));
        map_result as_JobDescription p).
Proof.
  unfold get_job_descriptions, page, bind, read, lift, mbind, result_bind.
  by destruct (cursor_skip _ _).
Qed.

(** X19. The listing of candidates reads and does not write; every record it
    returns is a stored candidate of the caller (with an empty email
    replaced by [None]), in the order of the store, and with a limit of at
    least 1 there are at most [limit_] of them. *)
Theorem listed_candidates_are_the_callers_own (skip limit_ : Z) (uid : string)
    (w w' : world) (docs : list document) :
  get_candidates skip limit_ uid w = (w', inr docs) →
  w' = w
  ∧ (∀ d, d ∈ docs → owned_by uid d
          ∧ ∃ c, c ∈ candidates w ∧ owned_by uid c ∧ d = clean_email c)
  ∧ ((0 < limit_)%Z → (Z.of_nat (length docs) ≤ limit_)%Z).
Proof.
  rewrite get_candidates_page. unfold mbind, result_bind.
  destruct (page _ _ _) as [|p] eqn:Hp; [done|].
  intros [= <- Hmap]. apply map_result_Forall2 in Hmap. split_and!; [done| |].
  - intros d Hd. apply list_elem_of_lookup in Hd as [i Hi].
    destruct (Forall2_lookup_r _ _ _ _ _ Hmap Hi) as (c & Hc & Hcd).
    unfold as_Candidate in Hcd. destruct (Candidate_validates _); [|done].
    injection Hcd as <-.
    assert (c ∈ find [("uid", Eq (VStr uid))] (candidates w)) as Hin.
    { eapply elem_of_page; [done|]. by eapply list_elem_of_lookup_2. }
    apply elem_of_find in Hin as [Hin Hu%matches_uid_filter].
    split; [unfold owned_by; by rewrite clean_email_uid|by exists c].
  - intros Hl. rewrite <-(Forall2_length _ _ _ Hmap). by eapply page_length.
Qed.

(** X20. Consecutive pages tile the listing: for a skip that is not negative
    and limits of at least 1, when the page of [n] records after [skip] and
    the page of [m] records after [skip + n] are returned, the page of
    [n + m] records after [skip] is the first followed by the second. The
    same holds for the listing of jobs. *)
Theorem pages_tile_the_listing (skip n m : Z) (uid : string) (w : world) :
  (0 ≤ skip)%Z → (0 < n)%Z → (0 < m)%Z →
  (∀ p1 p2,
     get_candidates skip n uid w = (w, inr p1) →
     get_candidates (skip + n) m uid w = (w, inr p2) →
     get_candidates skip (n + m) uid w = (w, inr (p1 ++ p2)%list))
  ∧ (∀ p1 p2,
     get_job_descriptions skip n uid w = (w, inr p1) →
     get_job_descriptions (skip + n) m uid w = (w, inr p2) →
     get_job_descriptions skip (n + m) uid w = (w, inr (p1 ++ p2)%list)).
Proof.
  intros Hs Hn Hm. split; intros p1 p2.
  - rewrite !get_candidates_page.
    destruct (page_tiles skip n m (find [("uid", Eq (VStr uid))] (candidates w)) Hs Hn Hm)
      as (q1 & q2 & -> & -> & ->).
    unfold mbind, result_bind. intros [= H1] [= H2]. f_equal. by apply map_result_app.
  - rewrite !get_job_descriptions_page.
    destruct (page_tiles skip n m (find [("uid", Eq (VStr uid))] (job_descriptions w))
                Hs Hn Hm) as (q1 & q2 & -> & -> & ->).
    unfold mbind, result_bind. intros [= H1] [= H2]. f_equal. by apply map_result_app.
Qed.

(** X21. The edges of the listing: a negative skip is refused by the cursor
    and the handler raises its [ValueError]; a skip past the last record of
    the caller returns the empty list. *)
Theorem listing_skip_edges (skip limit_ : Z) (uid : string) (w : world) :
  ((skip < 0)%Z →
     get_candidates skip limit_ uid w
     = (w, inl (PyError "ValueError" "skip must be >= 0")))
  ∧ ((Z.of_nat (length (find [("uid", Eq (VStr uid))] (candidates w))) ≤ skip)%Z →
     get_candidates skip limit_ uid w = (w, inr [])).
Proof.
  rewrite get_candidates_page. unfold page, cursor_skip, mbind, result_bind. split.
  - intros Hneg. destruct (Z.ltb_spec skip 0); [done|lia].
  - intros Hpast. destruct (Z.ltb_spec skip 0); [lia|].
    rewrite drop_ge by lia. unfold limit.
    destruct (limit_ =? 0)%Z; [done|]. by rewrite take_nil.
Qed.

End Listing.

(** The second of the two candidates of [u1], then the first, then both. *)
Lemma listed_candidates_are_the_callers_own_witness :
  two_candidates = two_candidates
  ∧ (∀ d, d ∈ [candidate2] → owned_by "u1" d
          ∧ ∃ c, c ∈ candidates two_candidates ∧ owned_by "u1" c ∧ d = clean_email c)
  ∧ ((0 < 5)%Z → (Z.of_nat (length [candidate2]) ≤ 5)%Z).
Proof.
  apply (listed_candidates_are_the_callers_own (outside := scripted no_answers)
           1 5 "u1" two_candidates two_candidates [candidate2]).
  reflexivity.
Defined.

Lemma pages_tile_the_listing_witness :
  get_candidates (outside := scripted no_answers) 0 (1 + 1) "u1" two_candidates
  = (two_candidates, inr ([candidate1] ++ [candidate2])%list).
Proof.
  destruct (pages_tile_the_listing (outside := scripted no_answers)
              0 1 1 "u1" two_candidates) as [Hc _]; [lia..|].
  apply Hc; reflexivity.
Defined.

Lemma listing_skip_edges_witness :
  get_candidates (outside := scripted no_answers) (-1) 100 "u1" two_candidates
  = (two_candidates, inl (PyError "ValueError" "skip must be >= 0"))
  ∧ get_candidates (outside := scripted no_answers) 2 100 "u1" two_candidates
    = (two_candidates, inr []).
Proof.
  split.
  - apply (listing_skip_edges (outside := scripted no_answers) (-1) 100 "u1" two_candidates).
    lia.
  - apply (listing_skip_edges (outside := scripted no_answers) 2 100 "u1" two_candidates).
    apply Z.leb_le. reflexivity.
Defined.


(** ** utils/file_extractor.py *)

Section Extractor.
Context `{outside : Externals}.

(** The extensions of the guard are those of the four branches. *)
Lemma is_supported_file_branches name :
  is_supported_file name
  = endswith (lower name) ".pdf" || endswith (lower name) ".docx"
    || endswith (lower name) ".txt"
    || existsb (endswith (lower name)) [".jpg"; ".jpeg"; ".png"; ".bmp"; ".tiff"].
Proof.
  unfold is_supported_file, supported_extensions. cbn [existsb].
  by rewrite !orb_assoc.
Qed.

(** X22. The guard of the candidate upload and the extractor agree on what
    is supported. A name the guard refuses is refused by the extractor with
    its own 400; for a name the guard accepts the extractor's 400 branch is
    not taken, so when the three outside extractors return a text for the
    content, so does [extract_text_from_upload]. *)
Theorem guard_agrees_with_extractor (file : UploadFile) :
  (is_supported_file (filename file) = false →
     extract_text_from_upload file
     = inl (HTTPException 400
              "Unsupported file format. Supported: PDF, DOCX, TXT, JPG, PNG"))
  ∧ (is_supported_file (filename file) = true →
     (∃ t, extract_from_pdf (content file) = inr t) →
     (∃ t, extract_from_docx (content file) = inr t) →
     (∃ t, extract_from_image (content file) = inr t) →
     ∃ text, extract_text_from_upload file = inr text).
Proof.
  rewrite is_supported_file_branches. unfold extract_text_from_upload.
  destruct (endswith (lower (filename file)) ".pdf");
    destruct (endswith (lower (filename file)) ".docx");
    destruct (endswith (lower (filename file)) ".txt");
    destruct (existsb _ _); cbn [orb]; (split; [try done|]);
    intros Hsup [? Hp] [? Hd] [? Hi]; try discriminate Hsup;
    rewrite ?Hp, ?Hd, ?Hi; by eexists.
Qed.

(** X23. Whatever goes wrong inside, the extractor raises an [HTTPException]
    and nothing else. For a name that is not supported it is the
    extractor's own 400. For a supported name one of the three outside
    extractors has raised: an [HTTPException] passes through as it is, and
    any other exception becomes a 500 whose detail is [Error extracting
    text from file: ] followed by the text of the exception. *)
Theorem extractor_raises_http_errors_only (file : UploadFile) (e : exn) :
  extract_text_from_upload file = inl e →
  (∃ status detail, e = HTTPException status detail)
  ∧ ((is_supported_file (filename file) = false
      ∧ e = HTTPException 400
              "Unsupported file format. Supported: PDF, DOCX, TXT, JPG, PNG")
     ∨ (is_supported_file (filename file) = true
        ∧ ∃ raised,
            (extract_from_pdf (content file) = inl raised
             ∨ extract_from_docx (content file) = inl raised
             ∨ extract_from_image (content file) = inl raised)
            ∧ e = match raised with
                  | HTTPException _ _ => raised
                  | PyError _ msg =>
                      HTTPException 500 ("Error extracting text from file: " ++ msg)
                  end)).
Proof.
  rewrite is_supported_file_branches. unfold extract_text_from_upload.
  destruct (endswith (lower (filename file)) ".pdf"); cbn [orb].
  { destruct (extract_from_pdf _) as [[c d|k m]|text] eqn:E; intros [= <-];
      (split; [by eexists _, _|]); right; (split; [done|]); eexists;
      (split; [left; reflexivity|done]). }
  destruct (endswith (lower (filename file)) ".docx"); cbn [orb].
  { destruct (extract_from_docx _) as [[c d|k m]|text] eqn:E; intros [= <-];
      (split; [by eexists _, _|]); right; (split; [done|]); eexists;
      (split; [right; left; reflexivity|done]). }
  destruct (endswith (lower (filename file)) ".txt"); cbn [orb]; [done|].
  destruct (existsb _ _).
  { destruct (extract_from_image _) as [[c d|k m]|text] eqn:E; intros [= <-];
      (split; [by eexists _, _|]); right; (split; [done|]); eexists;
      (split; [right; right; reflexivity|done]). }
  intros [= <-]. split; [by eexists _, _|]. by left.
Qed.

End Extractor.

Lemma guard_agrees_with_extractor_witness :
  extract_text_from_upload (outside := scripted no_answers) ann_exe
  = inl (HTTPException 400 "Unsupported file format. Supported: PDF, DOCX, TXT, JPG, PNG")
  ∧ ∃ text, extract_text_from_upload (outside := scripted no_answers) ann_txt = inr text.
Proof.
  split.
  - apply (guard_agrees_with_extractor (outside := scripted no_answers) ann_exe).
    reflexivity.
  - apply (guard_agrees_with_extractor (outside := scripted no_answers) ann_txt);
      [reflexivity|by eexists..].
Defined.

(** A file that is not supported. *)
Lemma extractor_raises_http_errors_only_witness :
  (∃ status detail,
     HTTPException 400 "Unsupported file format. Supported: PDF, DOCX, TXT, JPG, PNG"
     = HTTPException status detail)
  ∧ ((is_supported_file (filename ann_exe) = false
      ∧ HTTPException 400 "Unsupported file format. Supported: PDF, DOCX, TXT, JPG, PNG"
        = HTTPException 400
            "Unsupported file format. Supported: PDF, DOCX, TXT, JPG, PNG")
     ∨ (is_supported_file (filename ann_exe) = true
        ∧ ∃ raised,
            (extract_from_pdf (Externals := scripted no_answers) (content ann_exe)
             = inl raised
             ∨ extract_from_docx (Externals := scripted no_answers) (content ann_exe)
               = inl raised
             ∨ extract_from_image (Externals := scripted no_answers) (content ann_exe)
               = inl raised)
            ∧ HTTPException 400
                "Unsupported file format. Supported: PDF, DOCX, TXT, JPG, PNG"
              = match raised with
                | HTTPException _ _ => raised
                | PyError _ msg =>
                    HTTPException 500 ("Error extracting text from file: " ++ msg)
                end)).
Proof.
  apply (extractor_raises_http_errors_only (outside := scripted no_answers) ann_exe).
  reflexivity.
Defined.


(** ** What the uploads store *)

Section Stored.
Context `{outside : Externals}.

Lemma find_app flt (l1 l2 : list document) :
  find flt (l1 ++ l2) = (find flt l1 ++ find flt l2)%list.
Proof. unfold find. apply List.filter_app. Qed.

Lemma find_None_nil flt coll : find_one flt coll = None → find flt coll = [].
Proof.
  rewrite find_one_None. intros Hall. induction coll as [|d coll IH]; [done|].
  rewrite find_cons, (Hall d) by left. apply IH. intros x Hx. apply Hall. by right.
Qed.

Lemma matches_owner_key key uid s d :
  matches [("uid", Eq (VStr uid)); (key, Eq (VStr s))] d = true
  ↔ owned_by uid d ∧ names_id key s d.
Proof.
  change (matches _ d)
    with (cond_holds (Eq (VStr uid)) (d !! "uid")
          && (cond_holds (Eq (VStr s)) (d !! key) && true)).
  by rewrite andb_true_r, andb_true_iff, !cond_holds_eq_str.
Qed.

(** A record whose owner has none with the same string under [key] can be
    appended. *)
Lemma one_per_owner_snoc key coll d uid s :
  one_per_owner key coll → owned_by uid d → names_id key s d →
  find_one [("uid", Eq (VStr uid)); (key, Eq (VStr s))] coll = None →
  one_per_owner key (coll ++ [d]).
Proof.
  intros Hone Hu Hk Hnone uid' s'. rewrite find_app, length_app.
  change (find ?flt [d]) with (if matches flt d then [d] else []).
  destruct (matches _ d) eqn:Hm; [|specialize (Hone uid' s'); simpl; lia].
  apply matches_owner_key in Hm as [Hu' Hk'].
  unfold owned_by, names_id in *.
  assert (uid' = uid) as -> by congruence. assert (s' = s) as -> by congruence.
  rewrite (find_None_nil _ _ Hnone). simpl. lia.
Qed.

Ltac nothing_added :=
  unfold ret, raise, read; cbn beta iota;
  split_and!; [done..|left; split; [done|by intros ? [=]]].

Lemma or_abort_run {A} name (body : M A) w :
  (or_abort name body w).1 = (body w).1
  ∧ ∀ a, (or_abort name body w).2 = inr a ↔ (body w).2 = inr a.
Proof.
  unfold or_abort, try_except, raise. destruct (body w) as [w' [e|a]]; simpl; [|done].
  split; [done|]. intros a. split; intros [=].
Qed.

Lemma one_email_per_owner_snoc coll d uid :
  one_email_per_owner coll → owned_by uid d →
  (∀ e, e ≠ "" → names_id "email" e d →
        find_one [("uid", Eq (VStr uid)); ("email", Eq (VStr e))] coll = None) →
  one_email_per_owner (coll ++ [d]).
Proof.
  intros Hone Hu Hnone uid' e' He'. rewrite find_app, length_app.
  change (find ?flt [d]) with (if matches flt d then [d] else []).
  destruct (matches _ d) eqn:Hm; [|specialize (Hone uid' e' He'); simpl; lia].
  apply matches_owner_key in Hm as [Hu' Hk'].
  assert (uid' = uid) as -> by (unfold owned_by in *; congruence).
  rewrite (find_None_nil _ _ (Hnone e' He' Hk')). simpl. lia.
Qed.

Lemma pair_impl {A B} (x : A * B) (P Q : A → B → Prop) :
  (∀ a b, P a b → Q a b) → (let '(a, b) := x in P a b) → let '(a, b) := x in Q a b.
Proof. destruct x. auto. Qed.

(** What one file of a candidate upload leaves in the store, however it
    ends: nothing, or one record of the caller with the digest of the file,
    which no record of the caller had, and with an email that no record of
    the caller had unless it is empty or no string. The jobs and the scores
    are not touched. *)
Lemma candidate_file_body_store uid file w :
  match candidate_file_body uid file w with
  | (w', res) =>
      job_descriptions w' = job_descriptions w
      ∧ top_scores w' = top_scores w
      ∧ ((candidates w' = candidates w ∧ ∀ r, res ≠ inr (Created r))
         ∨ ∃ r, candidates w' = (candidates w ++ [r])%list
                ∧ owned_by uid r
                ∧ names_id "file_hash" (sha256_hexdigest (content file)) r
                ∧ find_one (hash_filter uid (sha256_hexdigest (content file)))
                    (candidates w) = None
                ∧ (∀ e, e ≠ "" → names_id "email" e r →
                        find_one [("uid", Eq (VStr uid)); ("email", Eq (VStr e))]
                          (candidates w) = None)
                ∧ (∀ r', res = inr (Created r') → r' = r)
                ∧ ∀ entry, res ≠ inr (Skipped entry))
  end.
Proof.
  unfold candidate_file_body.
  destruct (is_supported_file _); cbn [negb]; [|nothing_added].
  unfold bind at 1. unfold read at 1.
  destruct (find_one _ _) eqn:Hnone; [nothing_added|].
  unfold bind at 1. unfold lift at 1.
  destruct (extract_text_from_upload file) as [|text]; [nothing_added|].
  destruct (_ || _); [nothing_added|].
  unfold bind at 1. rewrite parse_resume_run.
  set (d := match parse_resume_attempt _ _ with inl e => _ | inr c => c end).
  assert (d !! "uid" = None ∧ d !! "file_hash" = None) as [Hu Hh].
  { eapply (parse_resume_keys text w). apply parse_resume_run. }
  unfold bind at 1. unfold lift at 1.
  destruct (py_len _); [nothing_added|].
  unfold bind at 1.
  pose (P := λ (existing : option document) (w' : world) (res : exn + outcome),
    job_descriptions w' = job_descriptions w
    ∧ top_scores w' = top_scores w
    ∧ ((candidates w' = candidates w ∧ ∀ r, res ≠ inr (Created r))
       ∨ ∃ r, candidates w' = (candidates w ++ [r])%list
              ∧ owned_by uid r
              ∧ names_id "file_hash" (sha256_hexdigest (content file)) r
              ∧ existing = None
              ∧ (∀ e, names_id "email" e r → d !! "email" = Some (VStr e))
              ∧ (∀ r', res = inr (Created r') → r' = r)
              ∧ ∀ entry, res ≠ inr (Skipped entry))).
  assert (∀ existing : option document,
    let '(w', res) :=
      match existing with
      | Some _ =>
          ret (Skipped (skipped_entry (filename file)
                          ("Candidate with email " ++ py_str (get d "email" VNone)
                             ++ " already exists")))
      | None =>
          let* file_id := upload_from_stream (filename file) (content file) in
          let* t_id := fresh in
          let* t_now := fresh in
          let candidate_data :=
            d ∪ <["uploaded_at" := VTime (utcnow t_now)]>
                  (<["resume_filename" := VStr (filename file)]>
                    (<["file_hash" := VStr (sha256_hexdigest (content file))]>
                      (<["file_id" := VStr file_id]>
                        (<["uid" := VStr uid]>
                          (<["candidate_id" := VStr (uuid4 t_id)]> ∅))))) in
          write (λ w, set_candidates (insert_one candidate_data (candidates w)) w) ;;
          if Candidate_validates candidate_data then ret (Created candidate_data)
          else raise (PyError "ValidationError" "Candidate")
      end (advance w) in P existing w' res) as Hrest.
  { subst P. intros [c|]; [nothing_added|].
    unfold upload_from_stream, bind, fresh, write, ret, raise. cbn beta iota.
    destruct (Candidate_validates _); cbn beta iota;
      (split_and!; [done..|]; right; eexists; split; [reflexivity|];
       split_and!;
       [unfold owned_by; by rewrite lookup_union_r
       |unfold names_id; by rewrite lookup_union_r
       |done
       |intros e [He|[_ He]]%lookup_union_Some_raw; [done|];
        by repeat (rewrite lookup_insert_ne in He by done)
       |
       |by intros ? [=]]).
    - by intros r' [= <-].
    - by intros r' [=]. }
  assert (∀ existing w' res,
    existing = find_one [("uid", Eq (VStr uid)); ("email", Eq (get d "email" VNone))]
                 (candidates w) →
    P existing w' res →
    job_descriptions w' = job_descriptions w
    ∧ top_scores w' = top_scores w
    ∧ ((candidates w' = candidates w ∧ ∀ r, res ≠ inr (Created r))
       ∨ ∃ r, candidates w' = (candidates w ++ [r])%list
              ∧ owned_by uid r
              ∧ names_id "file_hash" (sha256_hexdigest (content file)) r
              ∧ None = (None : option document)
              ∧ (∀ e, e ≠ "" → names_id "email" e r →
                      find_one [("uid", Eq (VStr uid)); ("email", Eq (VStr e))]
                        (candidates w) = None)
              ∧ (∀ r', res = inr (Created r') → r' = r)
              ∧ ∀ entry, res ≠ inr (Skipped entry))) as Himpl.
  { intros existing w' res Hyes (Hj & Ht & [Hsame|(r & Hc & Ho & Hn & Hex & Hem & Hr & Hs)]);
      (split_and!; [done..|]); [by left|]. right. exists r.
    split_and!; try done.
    intros e He Hne. specialize (Hem e Hne).
    assert (get d "email" VNone = VStr e) as Hget by (unfold get; by rewrite Hem).
    rewrite Hget in Hyes. by rewrite <-Hyes. }
  destruct (truthy (get d "email" VNone)) eqn:Htruthy.
  - eapply (pair_impl _ (P (find_one [("uid", Eq (VStr uid));
                                       ("email", Eq (get d "email" VNone))]
                              (candidates (advance w))))).
    + intros w' res. by apply Himpl.
    + apply Hrest.
  - eapply (pair_impl _ (P None)).
    + intros w' res HP. destruct HP as (Hj & Ht & [Hsame|(r & Hc & Ho & Hn & Hex & Hem & Hr & Hs)]);
        (split_and!; [done..|]); [by left|]. right. exists r.
      split_and!; try done.
      intros e He Hne. specialize (Hem e Hne).
      assert (get d "email" VNone = VStr e) as Hget by (unfold get; by rewrite Hem).
      rewrite Hget in Htruthy. simpl in Htruthy. by destruct (String.eqb_spec e "").
    + apply (Hrest None).
Qed.

Lemma upload_candidates_loop_store uid files created skipped w :
  match upload_candidates_loop uid files created skipped w with
  | (w', res) =>
      job_descriptions w' = job_descriptions w
      ∧ top_scores w' = top_scores w
      ∧ ∃ added,
          candidates w' = (candidates w ++ added)%list
          ∧ Forall (owned_by uid) added
          ∧ (one_per_owner "file_hash" (candidates w) →
             one_per_owner "file_hash" (candidates w'))
          ∧ (one_email_per_owner (candidates w) → one_email_per_owner (candidates w'))
          ∧ ∀ c s, res = inr (c, s) → c = (created ++ added)%list
  end.
Proof.
  revert created skipped w. induction files as [|file files IH]; intros created skipped w.
  - cbn. split_and!; [done..|]. exists []. rewrite !app_nil_r.
    split_and!; [done..|]. by intros c s [= <- _].
  - rewrite upload_candidates_loop_cons. unfold or_abort, try_except, raise.
    pose proof (candidate_file_body_store uid file w) as Hs.
    destruct (candidate_file_body uid file w) as [w1 [e|[r|e]]].
    + destruct Hs as (Hj & Ht & [[Hc _]|(r & Hc & Hu & Hh & Hnone & Hmail & _)]).
      * split_and!; [done..|]. exists []. rewrite app_nil_r, Hc.
        split_and!; done.
      * split_and!; [done..|]. exists [r]. rewrite Hc.
        split_and!; [done|by constructor| | |done].
        -- intros Hone. by eapply one_per_owner_snoc.
        -- intros Hone. by eapply one_email_per_owner_snoc.
    + destruct Hs as (Hj & Ht & [[_ Hno]|(r0 & Hc & Hu & Hh & Hnone & Hmail & Hr & _)]);
        [by destruct (Hno r)|].
      rewrite (Hr r eq_refl) in *. clear Hr.
      specialize (IH (created ++ [r0])%list skipped w1).
      destruct (upload_candidates_loop _ _ _ _ w1) as [w' res].
      destruct IH as (Hj' & Ht' & added & Hc' & Hall & Hone' & Hmail' & Hres).
      split_and!; [congruence..|]. exists (r0 :: added).
      split_and!.
      * rewrite Hc', Hc, <-app_assoc. done.
      * by constructor.
      * intros Hone. apply Hone'. rewrite Hc. by eapply one_per_owner_snoc.
      * intros Hone. apply Hmail'. rewrite Hc. by eapply one_email_per_owner_snoc.
      * intros c s Hcs. rewrite (Hres c s Hcs), <-app_assoc. done.
    + destruct Hs as (Hj & Ht & [[Hc _]|(r0 & _ & _ & _ & _ & _ & _ & Hno)]);
        [|by destruct (Hno e)].
      specialize (IH created (skipped ++ [e])%list w1).
      destruct (upload_candidates_loop _ _ _ _ w1) as [w' res].
      destruct IH as (Hj' & Ht' & added & Hc' & Hall & Hone' & Hmail' & Hres).
      split_and!; [congruence..|]. exists added.
      split_and!; [congruence|done| | |done].
      * intros Hone. apply Hone'. by rewrite Hc.
      * intros Hone. apply Hmail'. by rewrite Hc.
Qed.

(** X24. A candidate upload only appends candidates of the caller: whether
    it returns or fails on some file, the candidates are those there were
    followed by the records added, each with the caller's uid; the jobs and
    the scores are not touched; and when it returns, the records it returns
    are exactly the records added. *)
Theorem candidate_upload_appends_own_records (files : list UploadFile) (uid : string)
    (w : world) :
  job_descriptions (upload_candidates files uid w).1 = job_descriptions w
  ∧ top_scores (upload_candidates files uid w).1 = top_scores w
  ∧ ∃ added,
      candidates (upload_candidates files uid w).1 = (candidates w ++ added)%list
      ∧ Forall (owned_by uid) added
      ∧ ∀ created, (upload_candidates files uid w).2 = inr created → created = added.
Proof.
  rewrite upload_candidates_visible. unfold visible.
  pose proof (upload_candidates_loop_store uid files [] [] w) as Hs.
  destruct (upload_candidates_loop uid files [] [] w) as [w' res]. cbn [fst snd].
  destruct Hs as (Hj & Ht & added & Hc & Hall & _ & _ & Hres).
  split_and!; [done..|]. exists added. split_and!; [done..|].
  intros created. destruct res as [e|[c s]]; [done|]. intros [= <-]. by apply (Hres c s).
Qed.

(** X25. An upload that runs alone leaves no user with two candidates of the
    same file. The handler is taken as one step of the store: no other
    request writes between its duplicate checks and its inserts (the code
    has no unique index that would keep the property when two uploads
    interleave at their awaits). Under that condition, when no two
    candidates of one user carry the same digest before the upload, this is
    still so after it, whatever the files are and whether the upload returns
    or fails. *)
Theorem candidate_upload_keeps_one_record_per_file (files : list UploadFile) (uid : string)
    (w : world) :
  one_per_owner "file_hash" (candidates w) →
  one_per_owner "file_hash" (candidates (upload_candidates files uid w).1).
Proof.
  rewrite upload_candidates_visible. unfold visible.
  pose proof (upload_candidates_loop_store uid files [] [] w) as Hs.
  destruct (upload_candidates_loop uid files [] [] w) as [w' res]. cbn [fst snd].
  by destruct Hs as (_ & _ & added & _ & _ & Hone & _).
Qed.

(** X26. An upload that runs alone leaves no user with two candidates of the
    same email. The handler is taken as one step of the store: no other
    request writes between its duplicate checks and its inserts. Under that
    condition, when no two candidates of one user carry the same non-empty
    email before the upload, this is still so after it, whatever the files
    are, whatever the model answers and whether the upload returns or
    fails. *)
Theorem candidate_upload_keeps_one_record_per_email (files : list UploadFile)
    (uid : string) (w : world) :
  one_email_per_owner (candidates w) →
  one_email_per_owner (candidates (upload_candidates files uid w).1).
Proof.
  rewrite upload_candidates_visible. unfold visible.
  pose proof (upload_candidates_loop_store uid files [] [] w) as Hs.
  destruct (upload_candidates_loop uid files [] [] w) as [w' res]. cbn [fst snd].
  by destruct Hs as (_ & _ & added & _ & _ & _ & Hone & _).
Qed.

(** The same for one file of a job upload; here the scores may change and
    the candidates may not. *)
Lemma jd_file_body_store uid file w :
  match jd_file_body uid file w with
  | (w', res) =>
      candidates w' = candidates w
      ∧ ((job_descriptions w' = job_descriptions w ∧ ∀ r, res ≠ inr (Created r))
         ∨ ∃ r, job_descriptions w' = (job_descriptions w ++ [r])%list
                ∧ owned_by uid r
                ∧ names_id "file_hash" (sha256_hexdigest (content file)) r
                ∧ find_one (hash_filter uid (sha256_hexdigest (content file)))
                    (job_descriptions w) = None
                ∧ (∀ r', res = inr (Created r') → r' = r)
                ∧ ∀ entry, res ≠ inr (Skipped entry))
  end.
Proof.
  unfold jd_file_body.
  unfold bind at 1. unfold read at 1.
  destruct (find_one _ _) eqn:Hnone;
    [unfold ret; cbn beta iota; split; [done|left; split; [done|by intros ? [=]]]|].
  unfold bind at 1. unfold lift at 1.
  destruct (jd_inline_text file) as [|text];
    [cbn beta iota; split; [done|left; split; [done|by intros ? [=]]]|].
  unfold bind at 1. rewrite parse_job_description_run.
  set (d := match parse_jd_attempt _ _ with inl e => _ | inr c => c end).
  assert (d !! "uid" = None ∧ d !! "file_hash" = None ∧ d !! "jd_id" = None)
    as (Hu & Hh & _).
  { eapply (parse_job_description_keys text w). apply parse_job_description_run. }
  unfold bind at 1.
  assert (∀ existing : option document,
    match
      match existing with
      | Some _ =>
          ret (Skipped (skipped_entry (filename file)
                          ("Job description '" ++ py_str (get d "job_title" VNone)
                             ++ "' from '" ++ py_str (get d "company" VNone)
                             ++ "' already exists")))
      | None =>
          let* file_id := upload_from_stream (filename file) (content file) in
          let* t_id := fresh in
          let* t_now := fresh in
          let jd_data :=
            d ∪ <["uploaded_at" := VTime (utcnow t_now)]>
                  (<["jd_filename" := VStr (filename file)]>
                    (<["file_hash" := VStr (sha256_hexdigest (content file))]>
                      (<["file_id" := VStr file_id]>
                        (<["uid" := VStr uid]>
                          (<["jd_id" := VStr (uuid4 t_id)]> ∅))))) in
          write (λ w, set_job_descriptions (insert_one jd_data (job_descriptions w)) w) ;;
          (if JobDescription_validates jd_data then ret tt
           else raise (PyError "ValidationError" "JobDescription")) ;;
          fan_out uid text jd_data ;;
          ret (Created jd_data)
      end (advance w)
    with
    | (w', res) =>
        candidates w' = candidates w
        ∧ ((job_descriptions w' = job_descriptions w ∧ ∀ r, res ≠ inr (Created r))
           ∨ ∃ r, job_descriptions w' = (job_descriptions w ++ [r])%list
                  ∧ owned_by uid r
                  ∧ names_id "file_hash" (sha256_hexdigest (content file)) r
                  ∧ None = (None : option document)
                  ∧ (∀ r', res = inr (Created r') → r' = r)
                  ∧ ∀ entry, res ≠ inr (Skipped entry))
    end) as Hrest.
  { intros [c|];
      [unfold ret; cbn beta iota; split; [done|left; split; [done|by intros ? [=]]]|].
    unfold upload_from_stream. unfold bind at 1 2 3 4 5 6 7.
    unfold fresh, write, ret. cbn beta iota.
    set (jd_data := d ∪ _). set (w2 := set_job_descriptions _ _).
    assert (owned_by uid jd_data
            ∧ names_id "file_hash" (sha256_hexdigest (content file)) jd_data) as [Ho Hn].
    { subst jd_data. unfold owned_by, names_id. split; by rewrite lookup_union_r. }
    destruct (JobDescription_validates _); unfold raise; cbn beta iota.
    - unfold bind. pose proof (keeps_profiles_fan_out uid text jd_data w2) as [Hcs Hjobs].
      destruct (fan_out uid text jd_data w2) as [w3 [e|[]]]; cbn [fst] in Hcs, Hjobs;
        (split; [by rewrite Hcs|]; right; exists jd_data; rewrite Hjobs;
         split_and!; [done..| |by intros ? [=]]).
      + by intros ? [=].
      + by intros ? [= <-].
    - split; [done|]. right. exists jd_data.
      split_and!; [done..| |by intros ? [=]]. by intros ? [=]. }
  destruct (truthy (get d "job_title" VNone) && truthy (get d "company" VNone)).
  - exact (Hrest (find_one [("uid", Eq (VStr uid));
                            ("job_title", Eq (get d "job_title" VNone));
                            ("company", Eq (get d "company" VNone))]
                    (job_descriptions (advance w)))).
  - exact (Hrest None).
Qed.

Lemma upload_job_descriptions_loop_store uid files created skipped w :
  match upload_job_descriptions_loop uid files created skipped w with
  | (w', res) =>
      candidates w' = candidates w
      ∧ ∃ added,
          job_descriptions w' = (job_descriptions w ++ added)%list
          ∧ Forall (owned_by uid) added
          ∧ (one_per_owner "file_hash" (job_descriptions w) →
             one_per_owner "file_hash" (job_descriptions w'))
          ∧ ∀ c s, res = inr (c, s) → c = (created ++ added)%list
  end.
Proof.
  revert created skipped w. induction files as [|file files IH]; intros created skipped w.
  - cbn. split; [done|]. exists []. rewrite !app_nil_r.
    split_and!; [done..|]. by intros c s [= <- _].
  - rewrite upload_job_descriptions_loop_cons. unfold or_abort, try_except, raise.
    pose proof (jd_file_body_store uid file w) as Hs.
    destruct (jd_file_body uid file w) as [w1 [e|[r|e]]].
    + destruct Hs as (Hcs & [[Hc _]|(r & Hc & Hu & Hh & Hnone & _)]).
      * split; [done|]. exists []. rewrite app_nil_r, Hc. split_and!; done.
      * split; [done|]. exists [r]. rewrite Hc.
        split_and!; [done|by constructor| |done].
        intros Hone. by eapply one_per_owner_snoc.
    + destruct Hs as (Hcs & [[_ Hno]|(r0 & Hc & Hu & Hh & Hnone & Hr & _)]);
        [by destruct (Hno r)|].
      rewrite (Hr r eq_refl) in *. clear Hr.
      specialize (IH (created ++ [r0])%list skipped w1).
      destruct (upload_job_descriptions_loop _ _ _ _ w1) as [w' res].
      destruct IH as (Hcs' & added & Hc' & Hall & Hone' & Hres).
      split; [congruence|]. exists (r0 :: added).
      split_and!.
      * rewrite Hc', Hc, <-app_assoc. done.
      * by constructor.
      * intros Hone. apply Hone'. rewrite Hc. by eapply one_per_owner_snoc.
      * intros c s Hcs2. rewrite (Hres c s Hcs2), <-app_assoc. done.
    + destruct Hs as (Hcs & [[Hc _]|(r0 & _ & _ & _ & _ & _ & Hno)]);
        [|by destruct (Hno e)].
      specialize (IH created (skipped ++ [e])%list w1).
      destruct (upload_job_descriptions_loop _ _ _ _ w1) as [w' res].
      destruct IH as (Hcs' & added & Hc' & Hall & Hone' & Hres).
      split; [congruence|]. exists added.
      split_and!; [congruence|done| |done].
      intros Hone. apply Hone'. by rewrite Hc.
Qed.

(** X27. A job upload only appends jobs of the caller and never touches the
    candidates: whether it returns or fails on some file, the jobs are those
    there were followed by the records added, each with the caller's uid,
    and when it returns, the records it returns are exactly the records
    added. *)
Theorem job_upload_appends_own_records (files : list UploadFile) (uid : string)
    (w : world) :
  candidates (upload_job_descriptions files uid w).1 = candidates w
  ∧ ∃ added,
      job_descriptions (upload_job_descriptions files uid w).1
      = (job_descriptions w ++ added)%list
      ∧ Forall (owned_by uid) added
      ∧ ∀ created,
          (upload_job_descriptions files uid w).2 = inr created → created = added.
Proof.
  rewrite upload_job_descriptions_visible. unfold visible.
  pose proof (upload_job_descriptions_loop_store uid files [] [] w) as Hs.
  destruct (upload_job_descriptions_loop uid files [] [] w) as [w' res]. cbn [fst snd].
  destruct Hs as (Hcs & added & Hc & Hall & _ & Hres).
  split; [done|]. exists added. split_and!; [done..|].
  intros created. destruct res as [e|[c s]]; [done|]. intros [= <-]. by apply (Hres c s).
Qed.

(** X28. A job upload that runs alone leaves no user with two jobs of the
    same file. The handler is taken as one step of the store: no other
    request writes between its duplicate checks and its inserts. Under that
    condition, when no two jobs of one user carry the same digest before the
    upload, this is still so after it, whatever the files are and whether
    the upload returns or fails. *)
Theorem job_upload_keeps_one_record_per_file (files : list UploadFile) (uid : string)
    (w : world) :
  one_per_owner "file_hash" (job_descriptions w) →
  one_per_owner "file_hash" (job_descriptions (upload_job_descriptions files uid w).1).
Proof.
  rewrite upload_job_descriptions_visible. unfold visible.
  pose proof (upload_job_descriptions_loop_store uid files [] [] w) as Hs.
  destruct (upload_job_descriptions_loop uid files [] [] w) as [w' res]. cbn [fst snd].
  by destruct Hs as (_ & added & _ & _ & Hone & _).
Qed.

(** X29. A resume whose parsed email a candidate of the caller already has
    is skipped, not stored: for a supported file with new content whose text
    has at least 50 code points once stripped, and whose parsed record has
    skills with a length, the loop appends the skip with the email in its
    reason and goes on with the next file; only the counter of the outside
    calls has moved. *)
Theorem duplicate_email_is_skipped (uid : string) (file : UploadFile)
    (rest : list UploadFile) (created skipped : list document) (w : world)
    (text email : string) (parsed : document) (n : nat) :
  is_supported_file (filename file) = true →
  find_one (hash_filter uid (sha256_hexdigest (content file))) (candidates w) = None →
  extract_text_from_upload file = inr text →
  (50 ≤ str_len (strip text))%nat →
  parse_resume text w = (advance w, inr parsed) →
  py_len (get parsed "skills" (VList [])) = inr n →
  parsed !! "email" = Some (VStr email) → email ≠ "" →
  (∃ c, c ∈ candidates w ∧ owned_by uid c ∧ names_id "email" email c) →
  upload_candidates_loop uid (file :: rest) created skipped w
  = upload_candidates_loop uid rest created
      (skipped ++ [skipped_entry (filename file)
                     ("Candidate with email " ++ email ++ " already exists")])
      (advance w).
Proof.
  intros Hs Hnone Htext Hlen Hparse Hskills Hemail Hne (c & Hc & Ho & Hn).
  rewrite upload_candidates_loop_cons.
  assert (or_abort (filename file) (candidate_file_body uid file) w
          = (advance w, inr (Skipped (skipped_entry (filename file)
               ("Candidate with email " ++ email ++ " already exists"))))) as ->; [|done].
  unfold or_abort, try_except, candidate_file_body. rewrite Hs. cbn [negb].
  unfold bind at 1. unfold read at 1. rewrite Hnone.
  unfold bind at 1. unfold lift at 1. rewrite Htext.
  rewrite (strip_empty_text text Hlen).
  assert ((str_len (strip text) <? 50)%nat = false) as -> by (apply Nat.ltb_ge; lia).
  cbn [negb orb].
  unfold bind at 1. rewrite Hparse.
  unfold bind at 1. unfold lift at 1. rewrite Hskills.
  assert (get parsed "email" VNone = VStr email) as -> by (unfold get; by rewrite Hemail).
  assert (truthy (VStr email) = true) as ->.
  { simpl. by destruct (String.eqb_spec email ""). }
  unfold bind, read.
  destruct (find_one _ (candidates (advance w))) eqn:E; [done|].
  rewrite find_one_None in E. specialize (E c Hc).
  apply not_true_iff_false in E. destruct E. by apply matches_owner_key.
Qed.

(** X30. A job whose parsed title and company a job of the caller already
    has is skipped, not stored: for a file with new content whose text can
    be read, the loop appends the skip with the title and the company in
    its reason and goes on with the next file; only the counter of the
    outside calls has moved, and the scorer is not called. *)
Theorem duplicate_posting_is_skipped (uid : string) (file : UploadFile)
    (rest : list UploadFile) (created skipped : list document) (w : world)
    (text title company : string) (parsed : document) :
  find_one (hash_filter uid (sha256_hexdigest (content file))) (job_descriptions w) = None →
  jd_inline_text file = inr text →
  parse_job_description text w = (advance w, inr parsed) →
  parsed !! "job_title" = Some (VStr title) → title ≠ "" →
  parsed !! "company" = Some (VStr company) → company ≠ "" →
  (∃ jd, jd ∈ job_descriptions w ∧ owned_by uid jd
         ∧ names_id "job_title" title jd ∧ names_id "company" company jd) →
  upload_job_descriptions_loop uid (file :: rest) created skipped w
  = upload_job_descriptions_loop uid rest created
      (skipped ++ [skipped_entry (filename file)
                     ("Job description '" ++ title ++ "' from '" ++ company
                        ++ "' already exists")])
      (advance w).
Proof.
  intros Hnone Htext Hparse Htitle Hnt Hcompany Hnc Hjd.
  rewrite upload_job_descriptions_loop_cons.
  by rewrite (jd_duplicate_posting uid file w text parsed title company).
Qed.

End Stored.

Lemma one_per_owner_nil key : one_per_owner key [].
Proof. intros uid s. simpl. lia. Qed.

(** The same resume twice in one batch, under two names. *)
Lemma candidate_upload_keeps_one_record_per_file_witness :
  one_per_owner "file_hash"
    (candidates (upload_candidates (outside := scripted answers_profile)
                   [ann_txt; ann_copy] "u1" empty_world).1).
Proof.
  apply (candidate_upload_keeps_one_record_per_file (outside := scripted answers_profile)
           [ann_txt; ann_copy] "u1" empty_world).
  apply one_per_owner_nil.
Defined.

(** Two resumes in which the model reads the same email. *)
Lemma candidate_upload_keeps_one_record_per_email_witness :
  one_email_per_owner
    (candidates (upload_candidates (outside := scripted answers_email)
                   [ann_txt; bob_txt] "u1" empty_world).1).
Proof.
  apply (candidate_upload_keeps_one_record_per_email (outside := scripted answers_email)
           [ann_txt; bob_txt] "u1" empty_world).
  intros uid e _. simpl. lia.
Defined.

Lemma job_upload_keeps_one_record_per_file_witness :
  one_per_owner "file_hash"
    (job_descriptions (upload_job_descriptions (outside := scripted answers_profile)
                         [posting; posting_copy] "u1" empty_world).1).
Proof.
  apply (job_upload_keeps_one_record_per_file (outside := scripted answers_profile)
           [posting; posting_copy] "u1" empty_world).
  apply one_per_owner_nil.
Defined.

(** The resume of Bob, in which the model reads the email of Ann. *)
Lemma duplicate_email_is_skipped_witness :
  upload_candidates_loop (outside := scripted answers_email) "u1" (bob_txt :: []) [] []
    email_world
  = upload_candidates_loop (outside := scripted answers_email) "u1" [] []
      ([] ++ [skipped_entry (filename bob_txt)
                ("Candidate with email " ++ "ann@example.com" ++ " already exists")])
      (advance email_world).
Proof.
  apply (duplicate_email_is_skipped (outside := scripted answers_email)
           "u1" bob_txt [] [] [] email_world (content bob_txt) "ann@example.com"
           bob_parsed 1).
  - reflexivity.
  - reflexivity.
  - reflexivity.
  - apply Nat.leb_le. reflexivity.
  - reflexivity.
  - reflexivity.
  - reflexivity.
  - discriminate.
  - eexists. split_and!; [by left|reflexivity|reflexivity].
Defined.

(** A second file for the job that is stored. *)
Lemma duplicate_posting_is_skipped_witness :
  upload_job_descriptions_loop (outside := scripted answers_profile) "u1"
    (posting_again :: []) [] [] after_posting
  = upload_job_descriptions_loop (outside := scripted answers_profile) "u1" [] []
      ([] ++ [skipped_entry (filename posting_again)
                ("Job description '" ++ "Analyst" ++ "' from '" ++ "Acme"
                   ++ "' already exists")])
      (advance after_posting).
Proof.
  apply (duplicate_posting_is_skipped (outside := scripted answers_profile)
           "u1" posting_again [] [] [] after_posting (content posting_again)
           "Analyst" "Acme" posting_parsed).
  - reflexivity.
  - reflexivity.
  - reflexivity.
  - reflexivity.
  - discriminate.
  - reflexivity.
  - discriminate.
  - exists posting_record. split_and!; [|reflexivity..].
    apply (list_elem_of_lookup_2 _ 0). reflexivity.
Defined.
